(** * A shallow embedding of the pull-request code reviewer

    The Python sources under [src/reviewers] and [src/utils] are embedded as
    Rocq functions and the properties stated for them are proved.

    Conventions.
    - A Python [int] is a [Z]; a Python [str] is a [string] (the embedding
      covers ASCII text: a character is one [ascii]).
    - A Python [dict] with a fixed set of string keys that is only looked up
      and updated is a [gmap string _]; a [dict] whose iteration order is
      observable is an association list in insertion order.
    - A [dict] key that may be absent is an [option] field.
    - A raised [KeyError] is the [None] of an [option] result. *)

From Stdlib Require Import ZArith Ascii String Lia DecimalString Sorted Permutation.
From stdpp Require Import gmap strings list fin_maps.


(** ** Python built-ins used by the reviewers

    [str] methods and [re] functions are library code, not code of the
    repository; they are embedded here for ASCII text so that the reviewers
    can be run. *)

Module Py.

Definition chars : string → list ascii := list_ascii_of_string.

(** [c.isspace()], also the class [\s] of [re]: tab, line feed, vertical
    tab, form feed, carriage return, the separators 28 to 31, space. *)
Definition isspace (c : ascii) : bool :=
  let n := nat_of_ascii c in
  ((9 <=? n) && (n <=? 13)) || ((28 <=? n) && (n <=? 32)).

Definition isdigit (c : ascii) : bool :=
  let n := nat_of_ascii c in (48 <=? n) && (n <=? 57).

Definition isupper (c : ascii) : bool :=
  let n := nat_of_ascii c in (65 <=? n) && (n <=? 90).

Definition islower (c : ascii) : bool :=
  let n := nat_of_ascii c in (97 <=? n) && (n <=? 122).

(** The class [\w] of [re]: letters, digits and the underscore. *)
Definition isword (c : ascii) : bool :=
  isupper c || islower c || isdigit c || Ascii.eqb c "_".

Definition upper_char (c : ascii) : ascii :=
  if islower c then ascii_of_nat (nat_of_ascii c - 32) else c.

Definition lower_char (c : ascii) : ascii :=
  if isupper c then ascii_of_nat (nat_of_ascii c + 32) else c.

(** [s.upper()] *)
Fixpoint upper (s : string) : string :=
  match s with
  | EmptyString => EmptyString
  | String c s' => String (upper_char c) (upper s')
  end.

(** [s.lstrip()], [s.rstrip()], [s.strip()] *)
Fixpoint lstrip (s : string) : string :=
  match s with
  | EmptyString => EmptyString
  | String c s' => if isspace c then lstrip s' else s
  end.

Fixpoint rstrip (s : string) : string :=
  match s with
  | EmptyString => EmptyString
  | String c s' =>
      match rstrip s' with
      | EmptyString => if isspace c then EmptyString else String c EmptyString
      | t => String c t
      end
  end.

Definition strip (s : string) : string := rstrip (lstrip s).

(** [s.count(c)] for a one-character [c] *)
Fixpoint count (c : ascii) (s : string) : Z :=
  match s with
  | EmptyString => 0
  | String d s' => ((if Ascii.eqb d c then 1 else 0) + count c s')%Z
  end.

(** [c in s] for a one-character [c] *)
Fixpoint contains (c : ascii) (s : string) : bool :=
  match s with
  | EmptyString => false
  | String d s' => Ascii.eqb d c || contains c s'
  end.

(** [sep.join(l)] *)
Fixpoint join (sep : string) (l : list string) : string :=
  match l with
  | [] => EmptyString
  | [x] => x
  | x :: l' => x +:+ sep +:+ join sep l'
  end.

(** [str(n)] for an [int] *)
Definition str (n : Z) : string := NilZero.string_of_int (Z.to_int n).

(** [len(l)] *)
Definition len {A} (l : list A) : Z := Z.of_nat (List.length l).

(** The slice [l[a:b]] for [0 <= a] and [0 <= b]. *)
Definition slice {A} (l : list A) (a b : Z) : list A :=
  take (Z.to_nat b - Z.to_nat a) (drop (Z.to_nat a) l).

Definition newline : string := String "010" EmptyString.

(** [s.strip(c)] for a one-character [c] *)
Fixpoint lstrip_char (c : ascii) (s : string) : string :=
  match s with
  | EmptyString => EmptyString
  | String d s' => if Ascii.eqb d c then lstrip_char c s' else s
  end.

Fixpoint rstrip_char (c : ascii) (s : string) : string :=
  match s with
  | EmptyString => EmptyString
  | String d s' =>
      match rstrip_char c s' with
      | EmptyString => if Ascii.eqb d c then EmptyString
                       else String d EmptyString
      | t => String d t
      end
  end.

Definition strip_char (c : ascii) (s : string) : string :=
  rstrip_char c (lstrip_char c s).

(** [s[n:]] for a natural number [n] *)
Fixpoint drop_chars (n : nat) (s : string) : string :=
  match n, s with
  | S n', String _ s' => drop_chars n' s'
  | _, _ => s
  end.

(** [s.lower()] *)
Fixpoint lower (s : string) : string :=
  match s with
  | EmptyString => EmptyString
  | String c s' => String (lower_char c) (lower s')
  end.

(** [pat in s], for strings *)
Fixpoint is_substring (pat s : string) : bool :=
  String.prefix pat s
  || match s with
     | EmptyString => false
     | String _ s' => is_substring pat s'
     end.

(** [s.rfind(c)] for a one-character [c]: the last index of [c], or -1.
    [i] is the index of the first character of [s]. *)
Fixpoint rfind_from (c : ascii) (s : string) (i : Z) : Z :=
  match s with
  | EmptyString => (-1)%Z
  | String d s' =>
      let r := rfind_from c s' (i + 1)%Z in
      if (0 <=? r)%Z then r else if Ascii.eqb d c then i else (-1)%Z
  end.

Definition rfind (c : ascii) (s : string) : Z := rfind_from c s 0.

(** The slices [s[:n]] and [s[n:]] of a string, for [0 <= n]. *)
Definition prefix_to (s : string) (n : Z) : string :=
  string_of_list_ascii (take (Z.to_nat n) (chars s)).

Definition suffix_from (s : string) (n : Z) : string :=
  string_of_list_ascii (drop (Z.to_nat n) (chars s)).

(** [os.path.splitext(p)] of [posixpath]: the extension starts at the
    last dot when that dot comes after the last slash and after a
    character of the file name that is not a dot. *)
Definition splitext (p : string) : string * string :=
  let sepIndex := rfind "/" p in
  let dotIndex := rfind "." p in
  if (sepIndex <? dotIndex)%Z
     && existsb (λ c, negb (Ascii.eqb c "."))
          (slice (chars p) (sepIndex + 1) dotIndex)
  then (prefix_to p dotIndex, suffix_from p dotIndex)
  else (p, EmptyString).

End Py.

(** *** Regular expressions

    A backtracking matcher in the manner of [re]: the states reached by a
    pattern from a state are listed in the order in which backtracking
    tries them (a repetition is greedy, an alternation tries its left
    branch first), so that the first state is the match [re] reports.  A
    state is a position in the subject and the span of group 1, when it
    has been closed. *)

Module Re.

Inductive regex :=
| Eps
| Chr (p : ascii → bool)
| Cat (r1 r2 : regex)
| Alt (r1 r2 : regex)
| Star (r : regex)
| Group (r : regex)
| Bol
| Eol
| WordB.

Definition state : Type := nat * option (nat * nat).

Definition state_eqb (x y : state) : bool :=
  (x.1 =? y.1) &&
  match x.2, y.2 with
  | None, None => true
  | Some a, Some b => (a.1 =? b.1) && (a.2 =? b.2)
  | _, _ => false
  end.

(** Drops the repeated states, keeping the first of each. *)
Fixpoint dedup (seen l : list state) : list state :=
  match l with
  | [] => []
  | x :: l' =>
      if existsb (state_eqb x) seen then dedup seen l'
      else x :: dedup (x :: seen) l'
  end.

(** A greedy repetition: one more round first, then stop.  A round that
    does not advance is not repeated. *)
Fixpoint star_iter (step : state → list state) (fuel : nat) (x : state)
  : list state :=
  match fuel with
  | 0 => [x]
  | S fuel' =>
      flat_map (λ y, if x.1 <? y.1 then star_iter step fuel' y else [])
               (step x) ++ [x]
  end.

Definition word_at (s : list ascii) (i : nat) : bool :=
  match s !! i with Some c => Py.isword c | None => false end.

(** [\b] at position [i]: exactly one of the characters before and after
    is a word character. *)
Definition boundary (s : list ascii) (i : nat) : bool :=
  xorb (match i with 0 => false | S j => word_at s j end) (word_at s i).

(** [$] at position [i]: the end, or just before a final line feed. *)
Definition at_end (s : list ascii) (i : nat) : bool :=
  (i =? List.length s) ||
  ((S i =? List.length s) &&
   match s !! i with Some c => Ascii.eqb c "010" | None => false end).

Fixpoint run (r : regex) (s : list ascii) (x : state) : list state :=
  match r with
  | Eps => [x]
  | Chr p =>
      match s !! x.1 with
      | Some c => if p c then [(S x.1, x.2)] else []
      | None => []
      end
  | Cat r1 r2 => dedup [] (flat_map (run r2 s) (run r1 s x))
  | Alt r1 r2 => dedup [] (run r1 s x ++ run r2 s x)
  | Star r1 => dedup [] (star_iter (run r1 s) (S (List.length s)) x)
  | Group r1 => map (λ y, (y.1, Some (x.1, y.1))) (run r1 s x)
  | Bol => if x.1 =? 0 then [x] else []
  | Eol => if at_end s x.1 then [x] else []
  | WordB => if boundary s x.1 then [x] else []
  end.

(** The first match of [r] that starts at position [i]. *)
Definition match_at (r : regex) (s : list ascii) (i : nat) : option state :=
  head (run r s (i, None)).

(** [re.match(r, s)]: the span of group 1 of a match at position 0;
    [Some None] is a match in which group 1 has no part. *)
Definition match_ (r : regex) (s : string) : option (option string) :=
  let cs := Py.chars s in
  y ← match_at r cs 0;
  Some (g ← y.2;
        Some (string_of_list_ascii (take (g.2 - g.1) (drop g.1 cs)))).

(** The start positions at which [r] matches. *)
Definition match_starts (r : regex) (s : string) : list nat :=
  let cs := Py.chars s in
  filter (λ i, is_Some (match_at r cs i)) (seq 0 (S (List.length cs))).

(** [re.search(r, s)] and [re.findall(r, s)], as truth values: there is
    a match somewhere. *)
Definition search (r : regex) (s : string) : bool :=
  let cs := Py.chars s in
  existsb (λ i, bool_decide (is_Some (match_at r cs i))) (seq 0 (S (List.length cs))).

(** *** Pattern syntax *)

Definition Plus (r : regex) : regex := Cat r (Star r).
Definition Opt (r : regex) : regex := Alt r Eps.

(** [.]: any character but a line feed *)
Definition Dot : regex := Chr (λ c, negb (Ascii.eqb c "010")).
Definition Space : regex := Chr Py.isspace.
Definition Word : regex := Chr Py.isword.
Definition Char (c : ascii) : regex := Chr (Ascii.eqb c).
(** a character under [(?i)] *)
Definition CharI (c : ascii) : regex :=
  Chr (λ d, Ascii.eqb (Py.lower_char d) (Py.lower_char c)).
Definition OneOf (cs : string) : regex := Chr (λ d, Py.contains d cs).

Fixpoint Lit (s : string) : regex :=
  match s with
  | EmptyString => Eps
  | String c EmptyString => Char c
  | String c s' => Cat (Char c) (Lit s')
  end.

Fixpoint LitI (s : string) : regex :=
  match s with
  | EmptyString => Eps
  | String c EmptyString => CharI c
  | String c s' => Cat (CharI c) (LitI s')
  end.

Fixpoint Seq (rs : list regex) : regex :=
  match rs with
  | [] => Eps
  | [r] => r
  | r :: rs' => Cat r (Seq rs')
  end.

Fixpoint Any (rs : list regex) : regex :=
  match rs with
  | [] => Chr (λ _, false)
  | [r] => r
  | r :: rs' => Alt r (Any rs')
  end.

(** *** The words of a pattern

    The words that a pattern without anchors and boundaries matches as a
    whole. *)

Inductive lang : regex → list ascii → Prop :=
| lang_eps : lang Eps []
| lang_chr p c : p c = true → lang (Chr p) [c]
| lang_cat r1 r2 w1 w2 :
    lang r1 w1 → lang r2 w2 → lang (Cat r1 r2) (w1 ++ w2)
| lang_alt_l r1 r2 w : lang r1 w → lang (Alt r1 r2) w
| lang_alt_r r1 r2 w : lang r2 w → lang (Alt r1 r2) w
| lang_star_nil r : lang (Star r) []
| lang_star_cons r w1 w2 :
    w1 ≠ [] → lang r w1 → lang (Star r) w2 → lang (Star r) (w1 ++ w2)
| lang_group r w : lang r w → lang (Group r) w.

End Re.

(** ** Issues

    Every reviewer reports an issue as a dictionary.  The keys ['file'] and
    ['message'] are always written; the others are present in some reviewers
    only, and the consumers test for them (['line' in issue]) or read them
    with a default ([issue.get('severity', 'info')]). *)

Record issue := Issue {
  file : string;
  line : option Z;
  message : string;
  severity : option string;
  type_ : option string;
  code : option string;
  suggestion : option string
}.

(** The value a reviewer returns: [{'issues': [...], 'count': n}].  The
    manager reads it with [results.get('issues', [])]; [None] is a
    dictionary without that key. *)

Record review_results := ReviewResults {
  issues : option (list issue)
}.

Definition get_issues (r : review_results) : list issue :=
  default [] (issues r).

(** ** [utils/file_utils.py] *)

Module FileUtils.

(** The lines that iterating over a file opened in text mode yields:
    one for each line terminator (a line feed, a carriage return, or the
    two together) and one for a last line without terminator.
    [pending] tells that the current line has a character. *)
Fixpoint count_lines_from (s : string) (pending : bool) : Z :=
  match s with
  | EmptyString => if pending then 1 else 0
  | String c s' =>
      if Ascii.eqb c "010" then (1 + count_lines_from s' false)%Z
      else if Ascii.eqb c "013" then
        match s' with
        | String "010" _ => count_lines_from s' false
        | _ => (1 + count_lines_from s' false)%Z
        end
      else count_lines_from s' true
  end.

(** [count_lines], on the decoded content of the file *)
Definition count_lines (content : string) : Z :=
  count_lines_from content false.

(** [get_file_extension] *)
Definition get_file_extension (filename : string) : string :=
  (Py.splitext filename).2.

End FileUtils.

(** ** [reviewers/security_reviewer.py]

    The reviewers read a file with [f.read()] and work on
    [lines = content.splitlines()]; the embedded checks take [lines]. *)

Module SecurityReviewer.
Import Re.

Record check_info := CheckInfo {
  pattern : regex;
  check_message : string;
  check_severity : string
}.

Definition quote_or_space : regex :=
  Chr (λ c, Ascii.eqb c "034" || Py.isspace c).
Definition quote : regex :=
  Chr (λ c, Ascii.eqb c "039" || Ascii.eqb c "034").

(** The tail [\s*\(.*\+\s*.*\)] shared by the injection patterns. *)
Definition call_with_concat : list regex :=
  [Star Space; Char "("; Star Dot; Char "+"; Star Space; Star Dot; Char ")"].

(** [self.security_patterns], in the order of the dictionary; every
    pattern is under [(?i)]. *)
Definition security_patterns : list (string * check_info) :=
  [ ("hardcoded_secrets",
     {| pattern :=
          Seq [Group (Any [LitI "password"; LitI "secret"; LitI "key";
                           LitI "token"; LitI "credential"]);
               Opt (CharI "s"); Star quote_or_space; OneOf ":=";
               Star quote_or_space; quote; Plus Word; quote];
        check_message := "Potential hardcoded secret or credential";
        check_severity := "critical" |});
    ("sql_injection",
     {| pattern :=
          Alt (Seq (LitI "execute" :: call_with_concat))
              (Seq ([Star Dot; LitI ".raw("; Star Dot; Char "+";
                     Star Space; Star Dot; Char ")"]));
        check_message := "Potential SQL injection vulnerability";
        check_severity := "critical" |});
    ("command_injection",
     {| pattern :=
          Seq (Group (Any [LitI "os.system"; LitI "subprocess.call";
                           LitI "exec"; LitI "eval"]) :: call_with_concat);
        check_message := "Potential command injection vulnerability";
        check_severity := "critical" |});
    ("xss",
     {| pattern :=
          Alt (LitI "innerHTML")
              (Seq (LitI "document.write" :: call_with_concat));
        check_message := "Potential XSS vulnerability";
        check_severity := "high" |});
    ("insecure_random",
     {| pattern := Alt (LitI "Math.random()") (LitI "random.random()");
        check_message := "Use of insecure random number generator";
        check_severity := "medium" |});
    ("debug_code",
     {| pattern :=
          Group (Any [LitI "console.log"; LitI "print"; LitI "debug";
                      LitI "todo"; LitI "fixme"]);
        check_message := "Debug code or comment found";
        check_severity := "low" |}) ].

Definition suggestions : gmap string string :=
  list_to_map
    [ ("hardcoded_secrets",
       "Store secrets in environment variables or a secure vault");
      ("sql_injection",
       "Use parameterized queries or an ORM instead of string concatenation");
      ("command_injection",
       "Use safe APIs or validate and sanitize user input before using it in commands");
      ("xss",
       "Use safe APIs or sanitize user input before inserting it into HTML");
      ("insecure_random",
       "Use a cryptographically secure random number generator");
      ("debug_code", "Remove debug code before production deployment") ].

(** [_get_suggestion] *)
Definition _get_suggestion (check_name : string) : string :=
  default "Review and fix the security issue" (suggestions !! check_name).

(** The inner loop of [_check_security_patterns]: the lines against one
    pattern, [i] being the index of the first of [lines]. *)
Fixpoint check_lines (repo_path check_name : string) (info : check_info)
    (i : Z) (lines : list string) (issues : list issue) : list issue :=
  match lines with
  | [] => issues
  | ln :: lines' =>
      let issues :=
        if search (pattern info) ln then
          issues ++ [ {| file := repo_path;
                         line := Some (i + 1)%Z;
                         message := check_message info;
                         severity := Some (check_severity info);
                         type_ := Some "security";
                         code := Some check_name;
                         suggestion := Some (_get_suggestion check_name) |} ]
        else issues in
      check_lines repo_path check_name info (i + 1)%Z lines' issues
  end.

(** [_check_security_patterns], over the rules [patterns] *)
Definition check_patterns (patterns : list (string * check_info))
    (lines : list string) (repo_path : string) : list issue :=
  fold_left
    (λ issues check,
       check_lines repo_path check.1 check.2 0%Z lines issues)
    patterns [].

Definition _check_security_patterns (lines : list string)
    (repo_path : string) : list issue :=
  check_patterns security_patterns lines repo_path.

End SecurityReviewer.

(** ** [reviewers/quality_reviewer.py]

    As for the security reviewer, a check that reads the file at
    [local_path] takes [lines = content.splitlines()]; [_check_file_length]
    takes the text of the file, and the thresholds of [self.thresholds] are
    an argument. *)

Module QualityReviewer.
Import Re.

(** [self.thresholds].  Its fourth entry, ['duplication'], is read by no
    check and is left out. *)
Record thresholds := Thresholds {
  function_length : Z;
  file_length : Z;
  complexity : Z
}.

Definition quality_issue (repo_path : string) (ln : option Z)
    (msg sugg : string) : issue :=
  {| file := repo_path; line := ln; message := msg;
     severity := Some "medium"; type_ := Some "quality";
     code := None; suggestion := Some sugg |}.

(** [_check_file_length].  [content] is the text of the file at
    [local_path]; [None] is a file that cannot be read: [count_lines]
    raises, and the handler returns the still empty list. *)
Definition _check_file_length (th : thresholds) (content : option string)
    (repo_path : string) : list issue :=
  match content with
  | None => []
  | Some text =>
      let line_count := FileUtils.count_lines text in
      let threshold := file_length th in
      if (threshold <? line_count)%Z then
        [ {| file := repo_path;
             line := None;
             message := "File is too long (" +:+ Py.str line_count
                        +:+ " lines, threshold: " +:+ Py.str threshold +:+ ")";
             severity := Some "medium";
             type_ := Some "quality";
             code := None;
             suggestion :=
               Some "Consider breaking the file into smaller, more focused modules" |} ]
      else []
  end.

(** *** Function spans *)

Definition name_group : regex := Group (Plus Word).
Definition indent : list regex := [Bol; Star Space].
Definition close_brace : regex := Seq (indent ++ [Char "}"]).

(** [_get_function_patterns]: the table of a file type, in the order of
    its dictionary; the table of ['.js'] for a type that has none. *)
Definition _get_function_patterns (file_ext : string)
  : list (string * regex) :=
  let py :=
    [ ("function", Seq (indent ++ [Lit "def"; Plus Space; name_group;
                                   Star Space; Char "("]));
      ("class", Seq (indent ++ [Lit "class"; Plus Space; name_group]));
      ("method", Seq (indent ++ [Lit "def"; Plus Space; name_group;
                                 Star Space; Char "("]));
      ("end", Seq (indent ++ [Eol])) ] in
  let js :=
    [ ("function", Seq (indent ++ [Lit "function"; Plus Space; name_group;
                                   Star Space; Char "("]));
      ("method", Seq (indent ++ [name_group; Star Space; Char "(";
                                 Star Dot; Char ")"; Star Space; Char "{"]));
      ("arrow", Seq (indent ++ [Any [Lit "const"; Lit "let"; Lit "var"];
                                Plus Space; name_group; Star Space;
                                Char "="; Star Space; Char "("; Star Dot;
                                Char ")"; Star Space; Lit "=>"]));
      ("end", close_brace) ] in
  let java :=
    [ ("method",
       Seq (indent ++ [Plus (Any [Lit "public"; Lit "private";
                                  Lit "protected"; Lit "static"; Space]);
                       Plus (Chr (λ c, Py.isword c || Py.contains c "<>[]"));
                       Plus Space; name_group; Star Space; Char "("]));
      ("end", close_brace) ] in
  let go :=
    [ ("function", Seq (indent ++ [Lit "func"; Plus Space; name_group;
                                   Star Space; Char "("]));
      ("method", Seq (indent ++ [Lit "func"; Plus Space; Char "("; Star Dot;
                                 Char ")"; Plus Space; name_group;
                                 Star Space; Char "("]));
      ("end", close_brace) ] in
  if String.eqb file_ext ".py" then py
  else if String.eqb file_ext ".js" then js
  else if String.eqb file_ext ".java" then java
  else if String.eqb file_ext ".go" then go
  else js.

(** An entry of [functions] once its span is closed. *)
Record func := Func {
  func_name : string;
  func_type : string;
  start_line : Z;
  end_line : Z;
  func_length : Z
}.

(** The state of the scan of [_find_functions]: the spans closed so
    far, the open span ([current_function], with its name, type and start
    line) and [brace_count]. *)
Record scan := Scan {
  functions : list func;
  current_function : option (string * string * Z);
  brace_count : Z
}.

Definition close (st : scan) (cur : string * string * Z) (last : Z) : scan :=
  {| functions :=
       functions st ++
       [ {| func_name := cur.1.1; func_type := cur.1.2;
            start_line := cur.2; end_line := last;
            func_length := (last - cur.2 + 1)%Z |} ];
     current_function := None;
     brace_count := 0 |}.

(** [patterns.get(key)] *)
Fixpoint get_pattern (key : string) (patterns : list (string * regex))
  : option regex :=
  match patterns with
  | [] => None
  | (k, pat) :: rest =>
      if String.eqb k key then Some pat else get_pattern key rest
  end.

(** [patterns.get('end', r'^$')] *)
Definition end_pattern (patterns : list (string * regex)) : regex :=
  default (Seq [Bol; Eol]) (get_pattern "end" patterns).

(** The loop over [patterns.items()] that looks for the start of a
    function: the type and the name of the first pattern other than
    ['end'] that matches.  [match.group(1)] raises [IndexError] when the
    match has no group 1; that outcome is the inner [None]. *)
Fixpoint find_start (patterns : list (string * regex)) (ln : string)
  : option (option (string * string)) :=
  match patterns with
  | [] => None
  | (pattern_type, pat) :: rest =>
      if String.eqb pattern_type "end" then find_start rest ln
      else match match_ pat ln with
           | Some g => Some (nm ← g; Some (nm, pattern_type))
           | None => find_start rest ln
           end
  end.

(** One round of the loop of [_find_functions] over [enumerate(lines)];
    [None] is a raised exception. *)
Definition scan_line (patterns : list (string * regex)) (st : scan)
    (line_num : Z) (ln : string) : option scan :=
  match current_function st with
  | Some cur =>
      let bc := brace_count st in
      let bc := if Py.contains "{" ln then (bc + Py.count "{" ln)%Z else bc in
      let bc := if Py.contains "}" ln then (bc - Py.count "}" ln)%Z else bc in
      if (bool_decide (is_Some (match_ (end_pattern patterns) ln))
          && (bc <=? 0)%Z)
         || ((bc <=? 0)%Z && String.eqb (Py.strip ln) "}")
      then Some (close st cur line_num)
      else Some {| functions := functions st;
                   current_function := Some cur;
                   brace_count := bc |}
  | None =>
      match find_start patterns ln with
      | None => Some st
      | Some None => None
      | Some (Some (nm, pattern_type)) =>
          Some {| functions := functions st;
                  current_function := Some (nm, pattern_type, line_num);
                  brace_count :=
                    if Py.contains "{" ln
                    then (brace_count st + Py.count "{" ln)%Z
                    else brace_count st |}
      end
  end.

Fixpoint scan_lines (patterns : list (string * regex)) (st : scan)
    (i : Z) (lines : list string) : option scan :=
  match lines with
  | [] => Some st
  | ln :: lines' =>
      st' ← scan_line patterns st (i + 1)%Z ln;
      scan_lines patterns st' (i + 1)%Z lines'
  end.

(** [_find_functions] *)
Definition _find_functions (lines : list string)
    (patterns : list (string * regex)) : option (list func) :=
  st ← scan_lines patterns
         {| functions := []; current_function := None; brace_count := 0 |}
         0%Z lines;
  match current_function st with
  | Some cur => Some (functions (close st cur (Py.len lines)))
  | None => Some (functions st)
  end.

(** *** Complexity *)

Definition keyword (w : string) : regex := Seq [WordB; Lit w; WordB].

Definition control_flow_patterns : list regex :=
  [ keyword "if"; keyword "else"; keyword "for"; keyword "while";
    keyword "switch"; keyword "case"; keyword "catch"; keyword "?";
    keyword "and"; keyword "or"; Lit "&&"; Lit "||" ].

(** [_estimate_complexity] *)
Definition _estimate_complexity (lines : list string) : Z :=
  fold_left
    (λ complexity ln,
       fold_left
         (λ complexity pat,
            if search pat ln then (complexity + 1)%Z else complexity)
         control_flow_patterns complexity)
    lines 1%Z.

Definition length_issue (th : thresholds) (repo_path : string) (f : func)
  : issue :=
  quality_issue repo_path (Some (start_line f))
    ("Function '" +:+ func_name f +:+ "' is too long ("
     +:+ Py.str (func_length f) +:+ " lines, threshold: "
     +:+ Py.str (function_length th) +:+ ")")
    "Break down the function into smaller, more focused functions".

Definition complexity_issue (th : thresholds) (repo_path : string)
    (f : func) (c : Z) : issue :=
  quality_issue repo_path (Some (start_line f))
    ("Function '" +:+ func_name f
     +:+ "' is too complex (estimated complexity: " +:+ Py.str c
     +:+ ", threshold: " +:+ Py.str (complexity th) +:+ ")")
    "Reduce complexity by extracting logic into helper functions".

(** The body of the loop of [_check_functions] over [functions]. *)
Definition check_function (th : thresholds) (lines : list string)
    (repo_path : string) (issues : list issue) (f : func) : list issue :=
  let issues :=
    if (function_length th <? func_length f)%Z
    then issues ++ [length_issue th repo_path f]
    else issues in
  let c :=
    _estimate_complexity
      (Py.slice lines (start_line f - 1) (end_line f)) in
  if (complexity th <? c)%Z
  then issues ++ [complexity_issue th repo_path f c]
  else issues.

(** [_check_functions]; an exception raised by [_find_functions] is
    caught and the empty list of issues is returned. *)
Definition _check_functions (th : thresholds) (lines : list string)
    (repo_path file_ext : string) : list issue :=
  match _find_functions lines (_get_function_patterns file_ext) with
  | None => []
  | Some functions =>
      fold_left (check_function th lines repo_path) functions []
  end.

(** *** Duplication *)

Definition block_size : nat := 5.

(** [block = '\n'.join(lines[i:i+block_size])] *)
Definition block_at (lines : list string) (i : nat) : string :=
  Py.join Py.newline (take block_size (drop i lines)).

(** The test [block.strip() == '' or block.count('#') > block_size / 2]
    that skips a window.  [block_size / 2] is the float 2.5; the
    comparison is made on the doubles of both sides. *)
Definition skip_block (block : string) : bool :=
  String.eqb (Py.strip block) ""
  || (Z.of_nat block_size <? 2 * Py.count "#" block)%Z.

(** [blocks[block].append(n)] or [blocks[block] = [n]]: the dictionary
    [blocks] keeps its keys in the order of their first insertion. *)
Fixpoint add_block (blocks : list (string * list Z)) (block : string)
    (n : Z) : list (string * list Z) :=
  match blocks with
  | [] => [(block, [n])]
  | (b, ns) :: rest =>
      if String.eqb b block then (b, ns ++ [n]) :: rest
      else (b, ns) :: add_block rest block n
  end.

(** The loop over [range(len(lines) - block_size + 1)]. *)
Definition collect_blocks (lines : list string) : list (string * list Z) :=
  fold_left
    (λ blocks i,
       let block := block_at lines i in
       if skip_block block then blocks
       else add_block blocks block (Z.of_nat i + 1)%Z)
    (seq 0 (length lines - block_size + 1)) [].

Definition duplication_issue (repo_path : string) (line_numbers : list Z)
  : issue :=
  quality_issue repo_path (head line_numbers)
    ("Duplicated code block found at lines "
     +:+ Py.join ", " (Py.str <$> line_numbers))
    "Extract duplicated code into a reusable function".

(** [_check_duplication] *)
Definition _check_duplication (lines : list string) (repo_path : string)
  : list issue :=
  if (Py.len lines <? 10)%Z then []
  else
    fold_left
      (λ issues entry,
         if (1 <? Py.len entry.2)%Z
         then issues ++ [duplication_issue repo_path entry.2]
         else issues)
      (collect_blocks lines) [].

(** *** Commented-out code *)

Definition triple_quote : string :=
  String "034" (String "034" (String "034" EmptyString)).

(** The comment delimiters of a file type: the one of a comment line and
    those of the start and of the end of a comment of several lines;
    [None] for a type that the check does not support. *)
Definition comment_delimiters (ext : string)
  : option (string * string * string) :=
  let e := Py.lower ext in
  if bool_decide (e ∈ [".py"]) then Some ("#", triple_quote, triple_quote)
  else if bool_decide (e ∈ [".js"; ".jsx"; ".ts"; ".tsx"; ".java"; ".c";
                            ".cpp"; ".go"])
  then Some ("//", "/*", "*/")
  else None.

Definition code_patterns : list regex :=
  [ Seq [WordB; Lit "if"; WordB; Star Dot; Char ":"];
    Seq [WordB; Lit "for"; WordB; Star Dot; Char ":"];
    Seq [WordB; Lit "while"; WordB; Star Dot; Char ":"];
    Seq [WordB; Lit "def"; WordB; Star Dot; Char ":"];
    Seq [WordB; Lit "class"; WordB; Star Dot; Char ":"];
    keyword "return"; keyword "function"; keyword "var"; keyword "let";
    keyword "const";
    Seq [Char "="; Star Space; Plus Word; Char "("];
    Seq [Plus Word; Char "("; Star Dot; Char ")"] ].

(** The loop over [code_patterns], which stops at the first pattern that
    matches. *)
Definition looks_like_code (comment_text : string) : bool :=
  existsb (λ pat, search pat comment_text) code_patterns.

Definition commented_code_issue (repo_path : string) (line_num : Z) : issue :=
  {| file := repo_path;
     line := Some line_num;
     message := "Commented-out code found";
     severity := Some "low";
     type_ := Some "quality";
     code := None;
     suggestion :=
       Some "Remove commented-out code or add a clear explanation for why it's kept" |}.

(** One round of the loop of [_check_commented_code] over
    [enumerate(lines)]: the state is [in_multi_line_comment] and the
    issues. *)
Definition comment_line (delims : string * string * string)
    (repo_path : string) (st : bool * list issue) (line_num : Z)
    (ln : string) : bool * list issue :=
  let single_line_comment := delims.1.1 in
  let multi_line_start := delims.1.2 in
  let multi_line_end := delims.2 in
  let in_multi :=
    if Py.is_substring multi_line_start ln && negb st.1 then true
    else st.1 in
  if Py.is_substring multi_line_end ln && in_multi then (false, st.2)
  else if negb in_multi
          && negb (String.prefix single_line_comment (Py.strip ln))
  then (in_multi, st.2)
  else
    let comment_text := Py.strip ln in
    let comment_text :=
      if in_multi then Py.strip_char "*" comment_text
      else Py.strip (Py.drop_chars (String.length single_line_comment)
                       comment_text) in
    if looks_like_code comment_text
    then (in_multi, st.2 ++ [commented_code_issue repo_path line_num])
    else (in_multi, st.2).

Fixpoint comment_lines (delims : string * string * string)
    (repo_path : string) (st : bool * list issue) (i : Z)
    (lines : list string) : bool * list issue :=
  match lines with
  | [] => st
  | ln :: lines' =>
      comment_lines delims repo_path
        (comment_line delims repo_path st (i + 1)%Z ln) (i + 1)%Z lines'
  end.

(** [_check_commented_code] *)
Definition _check_commented_code (local_path : string)
    (lines : list string) (repo_path : string) : list issue :=
  match comment_delimiters (FileUtils.get_file_extension local_path) with
  | None => []
  | Some delims => (comment_lines delims repo_path (false, []) 0%Z lines).2
  end.

End QualityReviewer.

(** ** [reviewers/review_manager.py] *)

Module ReviewManager.

Record summary := Summary {
  total_issues : Z;
  issues_by_severity : gmap string Z;
  score : Z;
  verdict : string
}.

(** [_get_verdict] *)
Definition _get_verdict (score : Z) : string :=
  if (90 <=? score)%Z then "Excellent code quality. Approved!"
  else if (80 <=? score)%Z then "Good code quality with minor issues."
  else if (70 <=? score)%Z then "Acceptable code quality but needs improvement."
  else if (50 <=? score)%Z then "Poor code quality. Significant improvements needed."
  else "Critical issues found. Must be fixed before merging.".

(** The counter dictionary [issues] of [_generate_summary]. *)
Definition initial_counts : gmap string Z :=
  <["critical" := 0%Z]> (<["high" := 0%Z]> (<["medium" := 0%Z]>
    (<["low" := 0%Z]> (<["info" := 0%Z]> ∅)))).

(** One iteration of a counting loop:
    [severity = issue.get('severity', 'info'); issues[severity] += 1].
    The augmented assignment reads the key first, so a severity that is
    not a key of the dictionary raises [KeyError]. *)
Definition count_issue (counts : option (gmap string Z)) (i : issue)
  : option (gmap string Z) :=
  d ← counts;
  let sev := default "info" (severity i) in
  n ← d !! sev;
  Some (<[sev := (n + 1)%Z]> d).

(** [sum(issues.values())] *)
Definition sum_values (d : gmap string Z) : Z :=
  map_fold (λ _ v acc, (v + acc)%Z) 0%Z d.

(** [_generate_summary] *)
Definition _generate_summary
    (style_results security_results quality_results : review_results)
  : option summary :=
  let counts := Some initial_counts in
  let counts := fold_left count_issue (get_issues style_results) counts in
  let counts := fold_left count_issue (get_issues security_results) counts in
  let counts := fold_left count_issue (get_issues quality_results) counts in
  d ← counts;
  let total := sum_values d in
  critical ← d !! "critical";
  high ← d !! "high";
  medium ← d !! "medium";
  low ← d !! "low";
  let score :=
    if (0 <? total)%Z then
      let score := (100 - critical * 10)%Z in
      let score := (score - high * 5)%Z in
      let score := (score - medium * 2)%Z in
      let score := (score - low * 1)%Z in
      Z.max 0 (Z.min 100 score)
    else 100%Z in
  Some {| total_issues := total;
          issues_by_severity := d;
          score := score;
          verdict := _get_verdict score |}.

(** The value of [_run_reviews]. *)
Record review := Review {
  style : review_results;
  security : review_results;
  quality : review_results;
  review_summary : summary
}.

(** [_run_reviews], from the results of the three reviewers *)
Definition _run_reviews
    (style_results security_results quality_results : review_results)
  : option review :=
  s ← _generate_summary style_results security_results quality_results;
  Some {| style := style_results; security := security_results;
          quality := quality_results; review_summary := s |}.

Definition nl : string := Py.newline.

(** The text that the inner loop of [_format_results] appends for one
    issue.  [issue['severity']] raises [KeyError] when the key is
    absent. *)
Definition format_issue (i : issue) : option string :=
  sev ← severity i;
  Some ("- **" +:+ Py.upper sev +:+ "**: " +:+ message i +:+ nl
        +:+ "  - File: `" +:+ file i +:+ "`" +:+ nl
        +:+ match line i with
            | Some n => "  - Line: " +:+ Py.str n +:+ nl
            | None => ""
            end
        +:+ match suggestion i with
            | Some s => "  - Suggestion: " +:+ s +:+ nl
            | None => ""
            end
        +:+ nl).

(** The body of the loop over [categories.items()] for one category:
    the section title, then either the line for an empty category or
    the issues in the order of [results[category]['issues']]. *)
Definition format_category (title : string) (category_issues : list issue)
  : option string :=
  match category_issues with
  | [] => Some (title +:+ "No issues found." +:+ nl +:+ nl)
  | _ =>
      fold_left
        (λ section i, s ← section; t ← format_issue i; Some (s +:+ t))
        category_issues (Some title)
  end.

Record formatted_results := FormattedResults {
  header : string;
  categories : list (string * string);
  raw_results : review
}.

(** [_format_results], with [pr['title']] as [title] *)
Definition _format_results (results : review) (title : string)
  : option formatted_results :=
  let summary := review_summary results in
  let counts := issues_by_severity summary in
  critical ← counts !! "critical";
  high ← counts !! "high";
  medium ← counts !! "medium";
  low ← counts !! "low";
  info ← counts !! "info";
  let header :=
    "# Code Review: " +:+ title +:+ nl +:+ nl
    +:+ "## Summary" +:+ nl +:+ nl
    +:+ "- **Score**: " +:+ Py.str (score summary) +:+ "/100" +:+ nl
    +:+ "- **Verdict**: " +:+ verdict summary +:+ nl
    +:+ "- **Total Issues**: " +:+ Py.str (total_issues summary) +:+ nl
    +:+ "  - Critical: " +:+ Py.str critical +:+ ", High: " +:+ Py.str high
    +:+ ", Medium: " +:+ Py.str medium +:+ ", Low: " +:+ Py.str low
    +:+ ", Info: " +:+ Py.str info +:+ nl +:+ nl in
  st ← format_category ("## Style Issues" +:+ nl +:+ nl)
         (get_issues (style results));
  se ← format_category ("## Security Issues" +:+ nl +:+ nl)
         (get_issues (security results));
  qu ← format_category ("## Code Quality Issues" +:+ nl +:+ nl)
         (get_issues (quality results));
  Some {| header := header;
          categories := [("style", st); ("security", se); ("quality", qu)];
          raw_results := results |}.

(** An entry of the list of files of a pull request, with the keys that
    the manager and the reviewers read. *)
Record pr_file := PrFile {
  filename : string;
  status : string;
  local_path : string
}.

Definition skipped_extensions : list string :=
  [".png"; ".jpg"; ".jpeg"; ".gif"; ".svg"; ".pdf"].

(** [any(pattern in filename for pattern in excluded_patterns)] *)
Definition excluded (excluded_patterns : list string) (name : string) : bool :=
  existsb (λ pat, Py.is_substring pat name) excluded_patterns.

(** [_filter_files_for_review], with [self.config.get('exclude_patterns',
    [])] as [excluded_patterns] *)
Definition _filter_files_for_review (excluded_patterns : list string)
    (files : list pr_file) : list pr_file :=
  fold_left
    (λ filtered_files f,
       if String.eqb (status f) "removed" then filtered_files
       else if excluded excluded_patterns (filename f) then filtered_files
       else
         let ext := FileUtils.get_file_extension (filename f) in
         if String.eqb ext ""
            || bool_decide (Py.lower ext ∈ skipped_extensions)
         then filtered_files
         else filtered_files ++ [f])
    files [].

End ReviewManager.

(** ** [utils/config.py]

    A configuration is a dictionary whose values are dictionaries or other
    values (numbers, strings, booleans, lists), which the loader never
    looks into. *)

Module Config.

#[warnings="-register-all"]
Inductive value (A : Type) : Type :=
| Atom (a : A)
| Dict (items : list (string * value A)).
Arguments Atom {A} a.
Arguments Dict {A} items.

(** [d.get(key)] *)
Fixpoint get_item {A} (key : string) (d : list (string * value A))
  : option (value A) :=
  match d with
  | [] => None
  | (k, v) :: rest => if String.eqb k key then Some v else get_item key rest
  end.

(** [d[key] = v]: the value of a key that is present is replaced where it
    stands, a new key is added at the end. *)
Fixpoint set_item {A} (d : list (string * value A)) (key : string)
    (v : value A) : list (string * value A) :=
  match d with
  | [] => [(key, v)]
  | (k, w) :: rest =>
      if String.eqb k key then (k, v) :: rest
      else (k, w) :: set_item rest key v
  end.

(** The value that [_merge_configs] leaves under a key whose value is [b]
    in the base and [o] in the override: the merge of the two when both
    are dictionaries, [o] otherwise. *)
Fixpoint merge_value {A} (o : value A) : value A → value A :=
  match o with
  | Atom _ => λ _, o
  | Dict override =>
      λ b,
        match b with
        | Atom _ => o
        | Dict base =>
            Dict
              ((fix merge_items (override base : list (string * value A)) :=
                  match override with
                  | [] => base
                  | (key, v) :: rest =>
                      merge_items rest
                        (set_item base key
                           match get_item key base with
                           | Some w => merge_value v w
                           | None => v
                           end)
                  end) override base)
        end
  end.

(** [_merge_configs]: the base configuration after the call *)
Definition _merge_configs {A} (base_config override_config
    : list (string * value A)) : list (string * value A) :=
  match merge_value (Dict override_config) (Dict base_config) with
  | Dict merged => merged
  | Atom _ => base_config
  end.

(** The values of the default configuration. *)
Inductive setting :=
| Int (n : Z)
| Bool (b : bool)
| Str (s : string)
| Strs (l : list string).

Definition default_exclude_patterns : list string :=
  ["node_modules/"; "venv/"; ".git/"; "__pycache__/"; "*.min.js";
   "*.min.css"; "*.svg"; "*.png"; "*.jpg"; "*.jpeg"; "*.gif"; "*.pdf";
   "*.lock"; "package-lock.json"].

(** [self.default_config], as [__init__] sets it *)
Definition default_config : list (string * value setting) :=
  [ ("general", Dict [ ("check_interval", Atom (Int 60));
                       ("max_prs_per_run", Atom (Int 10)) ]);
    ("style", Dict [ ("enabled", Atom (Bool true));
                     ("max_line_length", Atom (Int 100));
                     ("indent_size", Atom (Int 4)) ]);
    ("security", Dict [ ("enabled", Atom (Bool true));
                        ("severity_threshold", Atom (Str "low")) ]);
    ("quality", Dict [ ("enabled", Atom (Bool true));
                       ("function_length", Atom (Int 50));
                       ("file_length", Atom (Int 500));
                       ("complexity", Atom (Int 10)) ]);
    ("exclude_patterns", Atom (Strs default_exclude_patterns)) ].

(** What a call [_merge_configs(config, override_config)] does to
    [self.default_config] when [config] is its shallow copy
    [self.default_config.copy()].  The copy is a new dictionary that holds
    the same objects as the defaults.  A round of the loop that merges
    into the dictionary under [key] changes that object, which the
    defaults hold too; a round that assigns [config[key] = value] changes
    the copy alone.  The keys of a dictionary are distinct, so when the
    round of [key] comes [config[key]] is still the object of the
    defaults. *)
Definition merge_shared {A} (default_config override_config
    : list (string * value A)) : list (string * value A) :=
  fold_left
    (λ shared entry,
       match get_item entry.1 shared, entry.2 with
       | Some (Dict b), Dict _ =>
           set_item shared entry.1 (merge_value entry.2 (Dict b))
       | _, _ => shared
       end)
    override_config default_config.

(** [load_config], from what [json.load] reads in the configuration
    file ([None] when the file is missing or is not JSON) and from
    [self.default_config]: the configuration that is returned, and
    [self.default_config] after the call.  A file whose JSON is not an
    object makes [override_config.items()] raise before anything is
    merged; the handler keeps the copy as it is.  The dictionaries inside
    the configuration that is returned are those of the loader, taken
    here as they are when the call returns. *)
Definition load_config (file_config : option (value setting))
    (self_default_config : list (string * value setting))
  : list (string * value setting) * list (string * value setting) :=
  match file_config with
  | Some (Dict override) =>
      (_merge_configs self_default_config override,
       merge_shared self_default_config override)
  | _ => (self_default_config, self_default_config)
  end.

End Config.

(** ** The words of the specification

    The notions of the specification (the clamped score, the order of the
    report, the occurrences of keywords, the windows to skip, the lines
    that assign a secret) are defined here from its text, not from the
    code, together with the vocabulary in which the theorems say what the
    code computes and the inputs of the scenarios. *)

Module Spec.

(** [clamp(x, lo, hi)] *)
Definition clamp (x lo hi : Z) : Z := Z.max lo (Z.min hi x).

(** The severity under which an issue is counted. *)
Definition effective_severity (i : issue) : string :=
  default "info" (severity i).

(** The five values of the enumeration [Severity]. *)
Definition severities : list string :=
  ["critical"; "high"; "medium"; "low"; "info"].

(** The invariant of the data model: the severity of an issue is one of
    the five values. *)
Definition known_severity (i : issue) : Prop :=
  effective_severity i ∈ severities.

(** The number of issues of a severity in a collection. *)
Definition tally (sev : string) (l : list issue) : Z :=
  Z.of_nat (length (filter (λ i, effective_severity i = sev) l)).

(** [score = clamp(100 − 10·critical − 5·high − 2·medium − 1·low, 0, 100)] *)
Definition score_of (l : list issue) : Z :=
  clamp (100 - 10 * tally "critical" l - 5 * tally "high" l
         - 2 * tally "medium" l - 1 * tally "low" l) 0 100.

(** The counter dictionary with given values. *)
Definition counts_of (c h m l i : Z) : gmap string Z :=
  <["critical" := c]> (<["high" := h]> (<["medium" := m]>
    (<["low" := l]> (<["info" := i]> ∅)))).

(** A collection without its issues of severity info. *)
Definition without_info (r : review_results) : review_results :=
  {| issues :=
       Some (filter (λ i, effective_severity i ≠ "info") (get_issues r)) |}.

(** An issue of a given severity, for the scenarios. *)
Definition an_issue (sev : string) : issue :=
  {| file := "app.py"; line := None; message := "finding";
     severity := Some sev; type_ := None; code := None;
     suggestion := None |}.

(** The union of all categories. *)
Definition all_issues (style security quality : review_results)
  : list issue :=
  get_issues style ++ get_issues security ++ get_issues quality.

(** *** The order of the report

    "sorted by file path, then line number (unset line sorts before any
    line number), then severity rank descending" *)

Definition severity_rank (sev : string) : Z :=
  if String.eqb sev "critical" then 4
  else if String.eqb sev "high" then 3
  else if String.eqb sev "medium" then 2
  else if String.eqb sev "low" then 1
  else 0.

Definition line_compare (a b : option Z) : comparison :=
  match a, b with
  | None, None => Eq
  | None, Some _ => Lt
  | Some _, None => Gt
  | Some x, Some y => Z.compare x y
  end.

Definition report_compare (a b : issue) : comparison :=
  match String.compare (file a) (file b) with
  | Eq =>
      match line_compare (line a) (line b) with
      | Eq => Z.compare (severity_rank (effective_severity b))
                        (severity_rank (effective_severity a))
      | c => c
      end
  | c => c
  end.

Definition report_le (a b : issue) : Prop := report_compare a b ≠ Gt.

(** The entries of the issues [l], one after the other in the order of
    [l]. *)
Fixpoint listing (l : list issue) : option string :=
  match l with
  | [] => Some ""
  | i :: l' =>
      t ← ReviewManager.format_issue i;
      rest ← listing l';
      Some (t +:+ rest)
  end.

(** A section that lists the issues [l] in the order of [l]. *)
Definition section_listing (title : string) (l : list issue)
  : option string :=
  match l with
  | [] => Some (title +:+ "No issues found." +:+ ReviewManager.nl
                +:+ ReviewManager.nl)
  | _ => body ← listing l; Some (title +:+ body)
  end.

(** *** Complexity

    "complexity = 1 + the count of control-flow keyword occurrences across
    all lines in the span": an occurrence is a place of a line at which
    one of the keyword patterns matches. *)

Definition keyword_occurrences (ln : string) : Z :=
  Z.of_nat (length (flat_map (λ pat, Re.match_starts pat ln)
                      QualityReviewer.control_flow_patterns)).

Definition span_occurrences (span : list string) : Z :=
  foldr (λ ln n, (keyword_occurrences ln + n)%Z) 0%Z span.

Definition complexity_of (span : list string) : Z :=
  (1 + span_occurrences span)%Z.

(** The keyword patterns that match somewhere in a line, and the pairs of
    a line of the span and a pattern that matches in it. *)
Definition matching_patterns (ln : string) : Z :=
  Z.of_nat (length (filter (λ pat, Re.search pat ln = true)
                      QualityReviewer.control_flow_patterns)).

Definition matching_pairs (span : list string) : Z :=
  foldr (λ ln n, (matching_patterns ln + n)%Z) 0%Z span.

(** The control-flow keywords of the specification that occur in a
    line: the keywords that are words, as whole words, and the operators
    of the logical and and or.  The question mark of the ternary operator
    is not among them here. *)
Definition control_flow_words : list string :=
  ["if"; "else"; "for"; "while"; "switch"; "case"; "catch"; "and"; "or"].

Definition logical_operators : list string := ["&&"; "||"].

(** The text [w] stands at the start of [s]. *)
Fixpoint starts_with (w s : list ascii) : bool :=
  match w, s with
  | [], _ => true
  | c :: w', d :: s' => Ascii.eqb c d && starts_with w' s'
  | _ :: _, [] => false
  end.

(** The text [w] stands in the line at the position [i]. *)
Definition stands_at (w ln : list ascii) (i : nat) : bool :=
  starts_with w (drop i ln).

(** A letter, a digit or an underscore stands at the position [i]. *)
Definition word_char_at (ln : list ascii) (i : nat) : bool :=
  match ln !! i with Some c => Py.isword c | None => false end.

(** The word [w] stands at the position [i] as a whole word: no letter,
    digit or underscore comes right before it or right after it. *)
Definition whole_word_at (w ln : list ascii) (i : nat) : bool :=
  stands_at w ln i
  && negb (match i with 0 => false | S j => word_char_at ln j end)
  && negb (word_char_at ln (i + length w)).

Definition has_word (w ln : string) : bool :=
  existsb (whole_word_at (Py.chars w) (Py.chars ln))
    (seq 0 (S (length (Py.chars ln)))).

Definition has_operator (op ln : string) : bool :=
  existsb (stands_at (Py.chars op) (Py.chars ln))
    (seq 0 (S (length (Py.chars ln)))).

(** The keywords that occur in a line, and the pairs of a line of the
    span and a keyword that occurs in it. *)
Definition keywords_in (ln : string) : Z :=
  Z.of_nat (length (filter (λ w, has_word w ln = true) control_flow_words)
            + length (filter (λ op, has_operator op ln = true)
                        logical_operators)).

Definition keyword_pairs (span : list string) : Z :=
  foldr (λ ln n, (keywords_in ln + n)%Z) 0%Z span.
(** A Python function of 55 lines: its header, [n] copies of the line
    [first] and then assignments. *)
Definition long_function (n : nat) (first : string) : list string :=
  "def handle(x):" :: replicate n first
  ++ replicate (54 - n) "    x = x + 1".

Definition default_thresholds : QualityReviewer.thresholds :=
  {| QualityReviewer.function_length := 50;
     QualityReviewer.file_length := 500;
     QualityReviewer.complexity := 10 |}.

(** *** Duplication

    "skip windows that are blank or where more than half the lines are
    pure comments": a pure comment is a line that starts, after its
    indentation, with the comment delimiter of the language. *)

Definition pure_comment (delim ln : string) : bool :=
  String.prefix delim (Py.lstrip ln).

Definition skip_window (delim : string) (window : list string) : bool :=
  forallb (λ ln, String.eqb (Py.strip ln) "") window
  || (length window <? 2 * length (filter (λ ln, pure_comment delim ln = true)
                                     window)).

(** The delimiters of a comment that takes a line, in the languages of
    the files that are reviewed. *)
Definition line_comment_delimiters : list string := ["#"; "//"].

(** A window that the filter keeps whichever of these delimiters the
    language of the file has. *)
Definition kept_window (window : list string) : bool :=
  forallb (λ delim, negb (skip_window delim window)) line_comment_delimiters.

(** A file of 54 lines in which the five lines of [block] stand at the
    lines 10 to 14 and 50 to 54, between assignments that differ from one
    another. *)
Definition assignment (k : nat) : string :=
  "v" +:+ Py.str (Z.of_nat k) +:+ " = 0".

Definition block_file (block : list string) : list string :=
  (assignment <$> seq 1 9) ++ take 5 block
  ++ (assignment <$> seq 15 35) ++ take 5 block.

(** A window that is kept and holds the text [b]. *)
Definition kept_with (lines : list string) (b : string) (i : nat) : Prop :=
  QualityReviewer.skip_block (QualityReviewer.block_at lines i) = false
  ∧ QualityReviewer.block_at lines i = b.

(** The line numbers of the windows among [positions] that are kept and
    hold the text [b]. *)
Definition line_numbers_of (lines : list string) (b : string)
    (positions : list nat) : list Z :=
  (λ i, (Z.of_nat i + 1)%Z) <$> filter (kept_with lines b) positions.

(** [blocks.get(b)] *)
Fixpoint lookup_block (b : string) (blocks : list (string * list Z))
  : option (list Z) :=
  match blocks with
  | [] => None
  | (k, ns) :: rest => if String.eqb k b then Some ns else lookup_block b rest
  end.

Definition nonempty {A} (l : list A) : option (list A) :=
  match l with [] => None | _ => Some l end.

(** No two windows of [lines] hold the same text, but those at the lines
    10 and 50; as a test that can be run. *)
Definition only_duplicate_10_50 (lines : list string) : bool :=
  let n := length lines - 5 + 1 in
  forallb
    (λ i, forallb
            (λ j, negb ((i <? j) && String.eqb (QualityReviewer.block_at lines i)
                                      (QualityReviewer.block_at lines j))
                  || ((i =? 9) && (j =? 49)))
            (seq 0 n))
    (seq 0 n).

(** *** Hardcoded secrets

    "a line assigning a literal string to a variable named password (or
    secret/key/token/credential)" *)

Definition secret_keys : list string :=
  ["password"; "secret"; "key"; "token"; "credential"].

(** The plainest such line: the name, an equals sign and the literal
    between single quotes. *)
Definition secret_assignment (name lit : string) : string :=
  name +:+ " = '" +:+ lit +:+ "'".

Definition same_ignoring_case (a b : string) : Prop :=
  Py.lower_char <$> Py.chars a = Py.lower_char <$> Py.chars b.

Definition is_quote (c : ascii) : bool :=
  Ascii.eqb c "039" || Ascii.eqb c "034".

Definition is_quote_or_space (c : ascii) : bool :=
  Ascii.eqb c "034" || Py.isspace c.

(** The lines that assign a literal of word characters: after any text, a
    name that is one of the keys in any letter case, an optional plural,
    white space or double quotes, a colon or an equals sign, white space or
    double quotes, and one or more word characters between quotes. *)
Inductive word_literal_assignment : string → Prop :=
| WordLiteralAssignment pre key name plural ws1 sep ws2 q1 lit q2 post :
    key ∈ secret_keys →
    same_ignoring_case key name →
    plural ∈ [""; "s"; "S"] →
    Forall (λ c, is_quote_or_space c = true) (Py.chars ws1) →
    Py.contains sep ":=" = true →
    Forall (λ c, is_quote_or_space c = true) (Py.chars ws2) →
    is_quote q1 = true →
    lit ≠ "" →
    Forall (λ c, Py.isword c = true) (Py.chars lit) →
    is_quote q2 = true →
    word_literal_assignment
      (pre +:+ name +:+ plural +:+ ws1 +:+ String sep ws2
       +:+ String q1 lit +:+ String q2 post).

(** The issue of the rule of hardcoded secrets at a line. *)
Definition hardcoded_secret_issue (repo_path : string) (n : Z) : issue :=
  {| file := repo_path;
     line := Some n;
     message := "Potential hardcoded secret or credential";
     severity := Some "critical";
     type_ := Some "security";
     code := Some "hardcoded_secrets";
     suggestion :=
       Some "Store secrets in environment variables or a secure vault" |}.

End Spec.

(** ** The vocabulary of the further properties *)

Module Notions.

(** A file that [_filter_files_for_review] keeps. *)
Definition reviewable (excluded_patterns : list string)
    (f : ReviewManager.pr_file) : Prop :=
  ReviewManager.status f ≠ "removed"
  ∧ ReviewManager.excluded excluded_patterns (ReviewManager.filename f) = false
  ∧ FileUtils.get_file_extension (ReviewManager.filename f) ≠ ""
  ∧ Py.lower (FileUtils.get_file_extension (ReviewManager.filename f))
    ∉ ReviewManager.skipped_extensions.

#[global] Instance reviewable_dec excluded_patterns f :
  Decision (reviewable excluded_patterns f).
Proof. unfold reviewable. apply _. Defined.

(** The patterns without an asterisk. *)
Definition plain_patterns (patterns : list string) : list string :=
  filter (λ pat, Py.contains "*" pat = false) patterns.

(** The start of a span: a line of the file that a start pattern
    matches, with the name it captures. *)
Definition started (patterns : list (string * Re.regex))
    (lines : list string) (nm ty : string) (start : Z) : Prop :=
  ∃ ln, lines !! Z.to_nat (start - 1) = Some ln
        ∧ QualityReviewer.find_start patterns ln = Some (Some (nm, ty)).

(** A span of a file: it lies within the file, its length is the number
    of its lines, and it starts at a line that a start pattern matches. *)
Definition span_ok (patterns : list (string * Re.regex))
    (lines : list string) (n : Z) (f : QualityReviewer.func) : Prop :=
  (1 <= QualityReviewer.start_line f)%Z
  ∧ (QualityReviewer.start_line f <= QualityReviewer.end_line f)%Z
  ∧ (QualityReviewer.end_line f <= n)%Z
  ∧ QualityReviewer.func_length f
    = (QualityReviewer.end_line f - QualityReviewer.start_line f + 1)%Z
  ∧ started patterns lines (QualityReviewer.func_name f)
      (QualityReviewer.func_type f) (QualityReviewer.start_line f).

(** A span ends before the next one starts. *)
Definition span_before (f g : QualityReviewer.func) : Prop :=
  (QualityReviewer.end_line f < QualityReviewer.start_line g)%Z.

(** The state of the scan after [n] lines. *)
Definition scan_ok (patterns : list (string * Re.regex))
    (lines : list string) (n : Z) (st : QualityReviewer.scan) : Prop :=
  Forall (span_ok patterns lines n) (QualityReviewer.functions st)
  ∧ StronglySorted span_before (QualityReviewer.functions st)
  ∧ match QualityReviewer.current_function st with
    | Some cur =>
        (1 <= cur.2 <= n)%Z
        ∧ started patterns lines cur.1.1 cur.1.2 cur.2
        ∧ Forall (λ f, (QualityReviewer.end_line f < cur.2)%Z)
            (QualityReviewer.functions st)
    | None => True
    end.

(** A pattern whose every match closes group 1. *)
Fixpoint sets_group (r : Re.regex) : bool :=
  match r with
  | Re.Group _ => true
  | Re.Cat r1 r2 => sets_group r1 || sets_group r2
  | Re.Alt r1 r2 => sets_group r1 && sets_group r2
  | _ => false
  end.

(** A text of white space only. *)
Definition blank (s : string) : bool := forallb Py.isspace (Py.chars s).

(** A line of a Python file that is reported as commented-out code: it
    holds no triple quote, it starts with a hash after its indentation,
    and what follows the hash looks like code. *)
Definition python_comment_with_code (ln : string) : bool :=
  negb (Py.is_substring QualityReviewer.triple_quote ln)
  && String.prefix "#" (Py.strip ln)
  && QualityReviewer.looks_like_code
       (Py.strip (Py.drop_chars 1 (Py.strip ln))).

(** The issues of the lines that are reported, [i] being the index of
    the first line. *)
Fixpoint python_report (repo_path : string) (i : Z) (lines : list string)
  : list issue :=
  match lines with
  | [] => []
  | ln :: rest =>
      (if python_comment_with_code ln
       then [QualityReviewer.commented_code_issue repo_path (i + 1)%Z]
       else [])
      ++ python_report repo_path (i + 1)%Z rest
  end.

End Notions.

(** * Theorems *)

(** ** The summary: counts, score and verdict *)

Section Summary.
Import ReviewManager Spec.

Lemma initial_counts_of : initial_counts = counts_of 0 0 0 0 0.
Proof. reflexivity. Qed.

Lemma counts_of_lookup c h m l i :
  counts_of c h m l i !! "critical" = Some c ∧
  counts_of c h m l i !! "high" = Some h ∧
  counts_of c h m l i !! "medium" = Some m ∧
  counts_of c h m l i !! "low" = Some l ∧
  counts_of c h m l i !! "info" = Some i.
Proof. unfold counts_of. repeat split; by simplify_map_eq. Qed.

Lemma sum_values_counts_of c h m l i :
  sum_values (counts_of c h m l i) = (c + h + m + l + i)%Z.
Proof.
  unfold sum_values, counts_of.
  rewrite !map_fold_insert_L; try (by simplify_map_eq); try (intros; lia).
  rewrite map_fold_empty. lia.
Qed.

Lemma tally_cons sev x l :
  tally sev (x :: l) =
  ((if decide (effective_severity x = sev) then 1 else 0) + tally sev l)%Z.
Proof.
  unfold tally. rewrite filter_cons.
  destruct (decide (effective_severity x = sev)); simpl; lia.
Qed.

Lemma tally_nil sev : tally sev [] = 0%Z.
Proof. reflexivity. Qed.

Lemma tally_app sev l1 l2 :
  tally sev (l1 ++ l2) = (tally sev l1 + tally sev l2)%Z.
Proof. unfold tally. rewrite filter_app, length_app. lia. Qed.

Lemma tally_nonneg sev l : (0 <= tally sev l)%Z.
Proof. unfold tally. lia. Qed.

Lemma tally_Permutation sev l1 l2 :
  l1 ≡ₚ l2 → tally sev l1 = tally sev l2.
Proof. intros H. unfold tally. by rewrite H. Qed.

(** One round of a counting loop on a well-formed issue. *)
Lemma count_issue_counts_of c h m l i x :
  known_severity x →
  count_issue (Some (counts_of c h m l i)) x =
  Some (counts_of (c + tally "critical" [x]) (h + tally "high" [x])
          (m + tally "medium" [x]) (l + tally "low" [x])
          (i + tally "info" [x])).
Proof.
  unfold known_severity, severities.
  rewrite !tally_cons, !tally_nil.
  unfold count_issue. simpl. fold (effective_severity x).
  generalize (effective_severity x) as sev. intros sev Hk.
  repeat (apply elem_of_cons in Hk as [->|Hk]);
    try (by apply elem_of_nil in Hk);
    repeat (case_decide; try discriminate);
    rewrite ?Z.add_0_r;
    unfold counts_of; simplify_map_eq; f_equal;
    apply map_eq; intros k;
    repeat (rewrite lookup_insert; case_decide; try done).
Qed.

(** A counting loop over well-formed issues. *)
Lemma fold_count_issue xs : ∀ c h m l i,
  Forall known_severity xs →
  fold_left count_issue xs (Some (counts_of c h m l i)) =
  Some (counts_of (c + tally "critical" xs) (h + tally "high" xs)
          (m + tally "medium" xs) (l + tally "low" xs)
          (i + tally "info" xs)).
Proof.
  induction xs as [|x xs IH]; intros c h m l i Hk.
  - rewrite !tally_nil, !Z.add_0_r. reflexivity.
  - apply Forall_cons in Hk as [Hx Hxs]. cbn [fold_left].
    rewrite (count_issue_counts_of _ _ _ _ _ _ Hx), (IH _ _ _ _ _ Hxs).
    rewrite !(tally_cons _ x xs), !(tally_cons _ x []), !tally_nil.
    do 2 f_equal; lia.
Qed.

(** The five counts of a well-formed collection add up to its size. *)
Lemma tally_total xs :
  Forall known_severity xs →
  (tally "critical" xs + tally "high" xs + tally "medium" xs
   + tally "low" xs + tally "info" xs)%Z = Py.len xs.
Proof.
  unfold Py.len. induction 1 as [|x xs Hx _ IH].
  - reflexivity.
  - rewrite !tally_cons. simpl length.
    unfold known_severity, severities in Hx.
    revert Hx. generalize (effective_severity x) as sev. intros sev Hx.
    repeat (apply elem_of_cons in Hx as [->|Hx]);
      try (by apply elem_of_nil in Hx);
      repeat (case_decide; try done); lia.
Qed.

(** The summary of a well-formed collection, in closed form. *)
Lemma generate_summary_closed style sec qual :
  let all := all_issues style sec qual in
  Forall known_severity all →
  _generate_summary style sec qual =
  Some {| total_issues := Py.len all;
          issues_by_severity :=
            counts_of (tally "critical" all) (tally "high" all)
              (tally "medium" all) (tally "low" all) (tally "info" all);
          score := score_of all;
          verdict := _get_verdict (score_of all) |}.
Proof.
  intros all Hk. unfold _generate_summary.
  cbv zeta. rewrite <- !fold_left_app. fold (all_issues style sec qual).
  fold all. rewrite initial_counts_of, (fold_count_issue _ _ _ _ _ _ Hk).
  simpl. rewrite !Z.add_0_l.
  destruct (counts_of_lookup (tally "critical" all) (tally "high" all)
    (tally "medium" all) (tally "low" all) (tally "info" all))
    as (-> & -> & -> & -> & _).
  simpl. rewrite sum_values_counts_of, (tally_total _ Hk).
  assert (score_of all =
    if (0 <? Py.len all)%Z
    then Z.max 0 (Z.min 100 (100 - tally "critical" all * 10
           - tally "high" all * 5 - tally "medium" all * 2
           - tally "low" all * 1))
    else 100%Z) as ->; [|done].
  unfold score_of, clamp.
  pose proof (tally_total _ Hk).
  pose proof (tally_nonneg "critical" all).
  pose proof (tally_nonneg "high" all).
  pose proof (tally_nonneg "medium" all).
  pose proof (tally_nonneg "low" all).
  pose proof (tally_nonneg "info" all).
  destruct (Z.ltb_spec 0 (Py.len all)); lia.
Qed.

Lemma tally_without_info sev xs :
  sev ≠ "info" →
  tally sev (filter (λ i, effective_severity i ≠ "info") xs) = tally sev xs.
Proof.
  intros Hs. induction xs as [|x xs IH]; [done|].
  rewrite filter_cons. case_decide; rewrite !tally_cons, ?IH; [done|].
  case_decide; [congruence | lia].
Qed.

Lemma all_issues_without_info style sec qual :
  all_issues (without_info style) (without_info sec) (without_info qual) =
  filter (λ i, effective_severity i ≠ "info") (all_issues style sec qual).
Proof. unfold all_issues. by rewrite !filter_app. Qed.

Lemma score_of_without_info xs :
  score_of (filter (λ i, effective_severity i ≠ "info") xs) = score_of xs.
Proof. unfold score_of. by rewrite !tally_without_info. Qed.

Lemma score_of_bounds xs : (0 <= score_of xs <= 100)%Z.
Proof. unfold score_of, clamp. lia. Qed.

Lemma score_of_cons x xs : (score_of (x :: xs) <= score_of xs)%Z.
Proof.
  unfold score_of, clamp. rewrite !tally_cons.
  repeat case_decide; lia.
Qed.

Lemma score_of_Permutation xs ys : xs ≡ₚ ys → score_of xs = score_of ys.
Proof.
  intros H. unfold score_of.
  by rewrite !(tally_Permutation _ _ _ H).
Qed.

(** A severity outside the five values is not a key of the counter
    dictionary: the summary is not computed. *)
Lemma generate_summary_unknown_severity :
  _generate_summary {| issues := Some [an_issue "error"] |}
    {| issues := Some [] |} {| issues := Some [] |} = None.
Proof. reflexivity. Qed.

(** C1.  For every collection of issues that respects the data model
    (each severity is one of the five values, an absent one counting as
    info), [_generate_summary] returns a summary whose score is
    [clamp(100 - 10 critical - 5 high - 2 medium - 1 low, 0, 100)] and
    whose verdict is the verdict of that score; the collection without
    its info issues has the same score. *)
Theorem generate_summary_score style sec qual :
  Forall known_severity (all_issues style sec qual) →
  ∃ s s',
    _generate_summary style sec qual = Some s ∧
    score s = clamp (100 - 10 * tally "critical" (all_issues style sec qual)
                     - 5 * tally "high" (all_issues style sec qual)
                     - 2 * tally "medium" (all_issues style sec qual)
                     - 1 * tally "low" (all_issues style sec qual)) 0 100 ∧
    verdict s = _get_verdict (score s) ∧
    _generate_summary (without_info style) (without_info sec)
      (without_info qual) = Some s' ∧
    score s' = score s.
Proof.
  intros Hk.
  assert (Forall known_severity
            (all_issues (without_info style) (without_info sec)
               (without_info qual))) as Hk'.
  { rewrite all_issues_without_info. rewrite Forall_forall in Hk |- *.
    intros x Hx. apply list_elem_of_filter in Hx as [_ Hx]. by apply Hk. }
  eexists _, _. split; [by apply generate_summary_closed|].
  split; [done|]. split; [done|].
  split; [by apply generate_summary_closed|].
  simpl. by rewrite all_issues_without_info, score_of_without_info.
Qed.

(** The end-to-end scenario: one critical, one high and one medium issue
    score 83, "Good code quality with minor issues." *)
Lemma generate_summary_score_scenario :
  ∃ s,
    _generate_summary {| issues := Some [] |}
      {| issues := Some [an_issue "critical"; an_issue "high"] |}
      {| issues := Some [an_issue "medium"] |} = Some s ∧
    score s = 83%Z ∧
    verdict s = "Good code quality with minor issues.".
Proof.
  destruct (generate_summary_score {| issues := Some [] |}
              {| issues := Some [an_issue "critical"; an_issue "high"] |}
              {| issues := Some [an_issue "medium"] |})
    as (s & s' & Hs & Hscore & Hverdict & _).
  - repeat constructor.
  - exists s. split; [exact Hs|].
    rewrite Hverdict, Hscore. split; reflexivity.
Defined.

(** C2.  The verdict of a score is given by the threshold table: each
    of the five verdicts is returned on exactly one of the intervals
    [90..], [80..89], [70..79], [50..69], [..49], which are disjoint and
    cover the integers. *)
Theorem get_verdict_threshold_table (score : Z) :
  ((90 <= score)%Z ↔
     _get_verdict score = "Excellent code quality. Approved!") ∧
  ((80 <= score < 90)%Z ↔
     _get_verdict score = "Good code quality with minor issues.") ∧
  ((70 <= score < 80)%Z ↔
     _get_verdict score = "Acceptable code quality but needs improvement.") ∧
  ((50 <= score < 70)%Z ↔
     _get_verdict score
     = "Poor code quality. Significant improvements needed.") ∧
  ((score < 50)%Z ↔
     _get_verdict score
     = "Critical issues found. Must be fixed before merging.").
Proof.
  unfold _get_verdict.
  destruct (Z.leb_spec 90 score); [|destruct (Z.leb_spec 80 score);
    [|destruct (Z.leb_spec 70 score); [|destruct (Z.leb_spec 50 score)]]];
    repeat split; intros; try lia; try done.
Qed.

(** C3.  Adding an issue of any severity to a collection, in any
    category and at any place, does not raise the score, and the score
    lies between 0 and 100. *)
Theorem score_monotone_bounded style sec qual style' sec' qual' extra :
  Forall known_severity (all_issues style sec qual) →
  known_severity extra →
  all_issues style' sec' qual' ≡ₚ extra :: all_issues style sec qual →
  ∃ s s',
    _generate_summary style sec qual = Some s ∧
    _generate_summary style' sec' qual' = Some s' ∧
    (score s' <= score s)%Z ∧
    (0 <= score s <= 100)%Z ∧ (0 <= score s' <= 100)%Z.
Proof.
  intros Hk Hx Hperm.
  assert (Forall known_severity (all_issues style' sec' qual')) as Hk'.
  { rewrite Hperm. by constructor. }
  eexists _, _. split; [by apply generate_summary_closed|].
  split; [by apply generate_summary_closed|]. simpl.
  rewrite (score_of_Permutation _ _ Hperm).
  split; [apply score_of_cons|]. split; apply score_of_bounds.
Qed.

Lemma score_monotone_bounded_witness :
  ∃ s s',
    _generate_summary {| issues := Some [an_issue "low"] |}
      {| issues := None |} {| issues := Some [] |} = Some s ∧
    _generate_summary {| issues := Some [an_issue "low"] |}
      {| issues := Some [an_issue "critical"] |} {| issues := Some [] |}
    = Some s' ∧
    (score s' <= score s)%Z ∧
    (0 <= score s <= 100)%Z ∧ (0 <= score s' <= 100)%Z.
Proof.
  apply (score_monotone_bounded _ _ _ _ _ _ (an_issue "critical")).
  - repeat constructor.
  - repeat constructor.
  - apply Permutation_swap.
Defined.

(** C10.  An issue without a severity field is counted as info: it adds
    one to [total_issues] and to the info entry of [issues_by_severity],
    leaves the other entries as they are, and does not change the
    score. *)
Theorem missing_severity_counts_as_info
    style sec qual style' sec' qual' extra :
  Forall known_severity (all_issues style sec qual) →
  severity extra = None →
  all_issues style' sec' qual' ≡ₚ extra :: all_issues style sec qual →
  ∃ s s' n,
    _generate_summary style sec qual = Some s ∧
    _generate_summary style' sec' qual' = Some s' ∧
    total_issues s' = (total_issues s + 1)%Z ∧
    issues_by_severity s !! "info" = Some n ∧
    issues_by_severity s' = <["info" := (n + 1)%Z]> (issues_by_severity s) ∧
    score s' = score s.
Proof.
  intros Hk Hx Hperm.
  assert (known_severity extra) as Hkx.
  { unfold known_severity, effective_severity. rewrite Hx. simpl.
    unfold severities. set_solver. }
  assert (Forall known_severity (all_issues style' sec' qual')) as Hk'.
  { rewrite Hperm. by constructor. }
  assert (∀ sev, tally sev (all_issues style' sec' qual') =
            ((if decide ("info" = sev) then 1 else 0)
             + tally sev (all_issues style sec qual))%Z) as Ht.
  { intros sev. rewrite (tally_Permutation _ _ _ Hperm), tally_cons.
    unfold effective_severity. by rewrite Hx. }
  eexists _, _, _. split; [by apply generate_summary_closed|].
  split; [by apply generate_summary_closed|]. simpl.
  split; [unfold Py.len; rewrite Hperm; simpl; lia|].
  split; [by apply counts_of_lookup|].
  split.
  - rewrite !Ht. repeat (case_decide; try done). rewrite !Z.add_0_l.
    unfold counts_of. apply map_eq. intros k.
    repeat (rewrite lookup_insert; case_decide; try done);
      try (f_equal; lia); simplify_eq.
  - unfold score_of. rewrite !Ht. by repeat (case_decide; try done).
Qed.

Lemma missing_severity_counts_as_info_witness :
  ∃ s s' n,
    _generate_summary {| issues := Some [an_issue "high"] |}
      {| issues := Some [] |} {| issues := Some [] |} = Some s ∧
    _generate_summary
      {| issues := Some [Issue "a.py" (Some 3%Z) "note" None None None None;
                         an_issue "high"] |}
      {| issues := Some [] |} {| issues := Some [] |} = Some s' ∧
    total_issues s' = (total_issues s + 1)%Z ∧
    issues_by_severity s !! "info" = Some n ∧
    issues_by_severity s' = <["info" := (n + 1)%Z]> (issues_by_severity s) ∧
    score s' = score s.
Proof.
  apply (missing_severity_counts_as_info _ _ _ _ _ _
           (Issue "a.py" (Some 3%Z) "note" None None None None)).
  - repeat constructor.
  - reflexivity.
  - reflexivity.
Defined.

End Summary.

(** ** The rendered report *)

Section Report.
Import ReviewManager Spec.

Lemma string_app_assoc (a b c : string) : (a +:+ b) +:+ c = a +:+ b +:+ c.
Proof.
  induction a as [|x a IH]; [done|].
  change (String x ((a +:+ b) +:+ c) = String x (a +:+ b +:+ c)).
  by f_equal.
Qed.

Lemma string_app_nil_r (a : string) : a +:+ "" = a.
Proof.
  induction a as [|x a IH]; [done|].
  change (String x (a +:+ "") = String x a). by f_equal.
Qed.

Lemma chars_app a b : Py.chars (a +:+ b) = Py.chars a ++ Py.chars b.
Proof.
  induction a as [|c a IH]; [done|].
  change (c :: Py.chars (a +:+ b) = c :: (Py.chars a ++ Py.chars b)).
  by f_equal.
Qed.

Lemma chars_cons c a : Py.chars (String c a) = c :: Py.chars a.
Proof. reflexivity. Qed.

Lemma contains_chars c s : Py.contains c s = true ↔ c ∈ Py.chars s.
Proof.
  induction s as [|d s IH]; cbn [Py.contains].
  - split; [done|]. intros H. by apply elem_of_nil in H.
  - rewrite chars_cons, elem_of_cons, orb_true_iff, IH, Ascii.eqb_eq.
    split; intros [->|?]; auto.
Qed.

Lemma not_contains_chars c s : Py.contains c s = false ↔ c ∉ Py.chars s.
Proof. rewrite <- contains_chars. by destruct (Py.contains c s). Qed.

(** The loop that appends the entries to a section. *)
Lemma fold_format_issue l : ∀ acc,
  fold_left (λ section i, s ← section; t ← format_issue i; Some (s +:+ t))
    l (Some acc)
  = body ← listing l; Some (acc +:+ body).
Proof.
  induction l as [|i l IH]; intros acc; simpl.
  - by rewrite string_app_nil_r.
  - destruct (format_issue i) as [t|]; simpl.
    + rewrite IH. destruct (listing l); simpl; [|done].
      by rewrite string_app_assoc.
    + clear IH. induction l as [|j l IH]; [done|]. simpl. exact IH.
Qed.

Lemma format_category_listing title l :
  format_category title l = section_listing title l.
Proof.
  destruct l as [|i l]; [done|].
  unfold format_category, section_listing. apply fold_format_issue.
Qed.

(** C4, as stated: the sections of the report list the issues sorted by
    file path, line and severity.  It fails for two issues that a
    reviewer returns with the later file first. *)
Lemma report_not_sorted :
  ¬ (∀ title l, ∃ sorted,
       sorted ≡ₚ l ∧ StronglySorted report_le sorted ∧
       format_category title l = section_listing title sorted).
Proof.
  intros H.
  destruct (H "" [ Issue "b.py" (Some 1%Z) "second" (Some "low") None None None;
                   Issue "a.py" (Some 1%Z) "first" (Some "low") None None None ])
    as (sorted & Hperm & Hsorted & Heq).
  symmetry in Hperm. apply Permutation_length_2_inv in Hperm as [-> | ->].
  - apply StronglySorted_inv in Hsorted as [_ Hle].
    apply Forall_cons in Hle as [Hle _]. by apply Hle.
  - vm_compute in Heq. discriminate.
Qed.

(** C4, amended: each of the three sections of the report, in the order
    style, security, quality, lists the issues of its category in the
    order in which the reviewer returned them (or says that there is
    none). *)
Theorem format_results_keeps_order results title f :
  _format_results results title = Some f →
  ∃ st se qu,
    categories f = [("style", st); ("security", se); ("quality", qu)] ∧
    section_listing ("## Style Issues" +:+ nl +:+ nl)
      (get_issues (style results)) = Some st ∧
    section_listing ("## Security Issues" +:+ nl +:+ nl)
      (get_issues (security results)) = Some se ∧
    section_listing ("## Code Quality Issues" +:+ nl +:+ nl)
      (get_issues (quality results)) = Some qu.
Proof.
  unfold _format_results. rewrite !format_category_listing.
  intros H. cbv zeta in H.
  repeat match type of H with
         | (?o ≫= _) = Some _ =>
             let E := fresh "E" in destruct o eqn:E; simpl in H; [|done]
         end.
  injection H as <-. simpl. eauto 10.
Qed.

Lemma format_results_keeps_order_witness :
  let b := Issue "b.py" (Some 1%Z) "second" (Some "low") None None None in
  let a := Issue "a.py" None "first" (Some "low") None None (Some "fix") in
  let results :=
    {| style := {| issues := Some [b; a] |};
       security := {| issues := None |};
       quality := {| issues := Some [] |};
       review_summary :=
         {| total_issues := 2; issues_by_severity := counts_of 0 0 0 2 0;
            score := 98; verdict := _get_verdict 98 |} |} in
  ∃ f st se qu,
    _format_results results "Fix" = Some f ∧
    categories f = [("style", st); ("security", se); ("quality", qu)] ∧
    section_listing ("## Style Issues" +:+ nl +:+ nl) [b; a] = Some st ∧
    section_listing ("## Security Issues" +:+ nl +:+ nl) [] = Some se ∧
    section_listing ("## Code Quality Issues" +:+ nl +:+ nl) [] = Some qu.
Proof.
  intros b a results.
  assert (is_Some (_format_results results "Fix")) as [f Hf].
  { vm_compute. eexists. reflexivity. }
  exists f.
  destruct (format_results_keeps_order _ _ _ Hf) as (st & se & qu & H).
  exists st, se, qu. split; [exact Hf | exact H].
Defined.

End Report.

(** ** The length of a file *)

Section FileLength.
Import QualityReviewer.

(** C9.  A file of exactly [file_length] lines gets no file-length
    issue, and a file of [file_length + 1] lines gets exactly one, which
    has no line number. *)
Theorem file_length_boundary th exact over repo_path :
  FileUtils.count_lines exact = file_length th →
  FileUtils.count_lines over = (file_length th + 1)%Z →
  _check_file_length th (Some exact) repo_path = [] ∧
  ∃ i, _check_file_length th (Some over) repo_path = [i] ∧
       line i = None ∧ file i = repo_path ∧ severity i = Some "medium".
Proof.
  intros He Ho. unfold _check_file_length. rewrite He, Ho.
  rewrite Z.ltb_irrefl.
  destruct (Z.ltb_spec (file_length th) (file_length th + 1)); [|lia].
  split; [done|]. eexists. repeat split.
Qed.

Lemma file_length_boundary_witness :
  let th := {| function_length := 50; file_length := 2; complexity := 10 |} in
  _check_file_length th (Some ("a" +:+ Py.newline +:+ "b" +:+ Py.newline))
    "m.py" = [] ∧
  ∃ i, _check_file_length th
         (Some ("a" +:+ Py.newline +:+ "b" +:+ Py.newline +:+ "c")) "m.py"
       = [i] ∧
       line i = None ∧ file i = "m.py" ∧ severity i = Some "medium".
Proof.
  intros th. apply (file_length_boundary th); reflexivity.
Defined.

End FileLength.


(** ** Keyword patterns *)

Section Keywords.
Import QualityReviewer Spec Re.

Lemma stands_at_nil cs i : stands_at [] cs i = true.
Proof. reflexivity. Qed.

Lemma stands_at_cons c w cs i :
  stands_at (c :: w) cs i
  = match cs !! i with
    | Some d => Ascii.eqb c d && stands_at w cs (S i)
    | None => false
    end.
Proof.
  unfold stands_at. destruct (cs !! i) as [d|] eqn:Hi.
  - by rewrite (drop_S _ _ _ Hi).
  - apply lookup_ge_None in Hi. by rewrite drop_ge.
Qed.

Lemma stands_at_lookup w : ∀ cs i j c,
  stands_at w cs i = true → w !! j = Some c → cs !! (i + j) = Some c.
Proof.
  induction w as [|d w IH]; intros cs i j c Hs Hj; [done|].
  rewrite stands_at_cons in Hs.
  destruct (cs !! i) as [e|] eqn:Hi; [|done].
  apply andb_true_iff in Hs as [He Hs]. apply Ascii.eqb_eq in He as <-.
  destruct j as [|j].
  - injection Hj as <-. by rewrite Nat.add_0_r.
  - replace (i + S j) with (S i + j) by lia. by apply (IH _ _ _ _ Hs).
Qed.

(** A text matches where it stands. *)
Lemma run_Lit w cs : ∀ x,
  run (Lit w) cs x
  = if stands_at (Py.chars w) cs x.1
    then [(x.1 + length (Py.chars w), x.2)] else [].
Proof.
  induction w as [|c w IH]; intros [i g].
  - cbn. by rewrite Nat.add_0_r.
  - rewrite chars_cons, stands_at_cons. cbn [fst snd length].
    destruct w as [|c' w].
    + cbn [Lit Char run fst snd Py.chars list_ascii_of_string].
      destruct (cs !! i) as [d|]; [|done].
      rewrite stands_at_nil, andb_true_r.
      destruct (Ascii.eqb c d); [|done]. by rewrite Nat.add_1_r.
    + change (Lit (String c (String c' w)))
        with (Cat (Char c) (Lit (String c' w))).
      cbn [run Char fst snd].
      destruct (cs !! i) as [d|]; [|done].
      destruct (Ascii.eqb c d); [|done].
      cbn [flat_map andb]. rewrite app_nil_r, IH. cbn [fst snd].
      destruct (stands_at _ cs (S i)); [|done].
      cbn. do 2 f_equal. lia.
Qed.

(** A keyword pattern matches where the word stands between two
    boundaries. *)
Lemma run_keyword w cs : ∀ x,
  run (keyword w) cs x
  = if boundary cs x.1 && stands_at (Py.chars w) cs x.1
       && boundary cs (x.1 + length (Py.chars w))
    then [(x.1 + length (Py.chars w), x.2)] else [].
Proof.
  intros [i g]. unfold keyword.
  change (Seq [WordB; Lit w; WordB]) with (Cat WordB (Cat (Lit w) WordB)).
  cbn [run fst snd].
  destruct (boundary cs i); [|done].
  cbn [flat_map andb]. rewrite app_nil_r, run_Lit. cbn [fst snd].
  destruct (stands_at _ cs i); [|done].
  cbn [flat_map fst snd andb]. rewrite app_nil_r.
  by destruct (boundary cs (i + _)).
Qed.

Lemma existsb_ext_in {A} (f g : A → bool) l :
  (∀ x, x ∈ l → f x = g x) → existsb f l = existsb g l.
Proof.
  induction l as [|x l IH]; intros H; [done|]. cbn [existsb].
  rewrite (H x) by by left. rewrite IH; [done|].
  intros y Hy. apply H. by right.
Qed.

Lemma search_keyword_positions w ln :
  search (keyword w) ln
  = existsb (λ i, boundary (Py.chars ln) i
                  && stands_at (Py.chars w) (Py.chars ln) i
                  && boundary (Py.chars ln) (i + length (Py.chars w)))
      (seq 0 (S (length (Py.chars ln)))).
Proof.
  unfold search. cbv zeta. apply existsb_ext_in. intros i _.
  unfold match_at. rewrite run_keyword. cbn [fst snd].
  destruct (_ && _ && _); cbn [head].
  - by apply bool_decide_eq_true_2.
  - apply bool_decide_eq_false_2. by intros [? ?].
Qed.

(** For a word of letters, digits and underscores, the keyword pattern
    matches exactly where the word stands as a whole word. *)
Lemma search_keyword w ln :
  w ≠ EmptyString → forallb Py.isword (Py.chars w) = true →
  search (keyword w) ln = has_word w ln.
Proof.
  intros Hw Hall. rewrite search_keyword_positions. unfold has_word.
  apply existsb_ext_in. intros i _. unfold whole_word_at.
  set (cs := Py.chars ln). set (ws := Py.chars w) in *.
  destruct (stands_at ws cs i) eqn:Hs; [|by rewrite !andb_false_r].
  rewrite andb_true_r. cbn [andb].
  assert (∀ j, j < length ws → word_at cs (i + j) = true) as Hword.
  { intros j Hj. destruct (lookup_lt_is_Some_2 ws j Hj) as [c Hc].
    unfold word_at. rewrite (stands_at_lookup _ _ _ _ _ Hs Hc).
    rewrite forallb_forall in Hall. apply Hall.
    apply list_elem_of_In. by apply list_elem_of_lookup_2 in Hc. }
  assert (0 < length ws) as Hlen.
  { destruct w; [done|]. unfold ws. rewrite chars_cons. cbn [length]. lia. }
  unfold boundary.
  pose proof (Hword 0 Hlen) as H0. rewrite Nat.add_0_r in H0.
  pose proof (Hword (length ws - 1) ltac:(lia)) as H1.
  destruct (i + length ws) as [|k] eqn:Hk; [lia|].
  replace (i + (length ws - 1)) with k in H1 by lia.
  rewrite H0, H1. unfold word_char_at, word_at.
  by destruct i; destruct (match cs !! _ with Some c => Py.isword c | None => false end).
Qed.

Lemma search_operator op ln : search (Lit op) ln = has_operator op ln.
Proof.
  unfold search, has_operator. cbv zeta. apply existsb_ext_in. intros i _.
  unfold match_at. rewrite run_Lit. cbn [fst snd].
  destruct (stands_at _ _ i); cbn [head].
  - by apply bool_decide_eq_true_2.
  - apply bool_decide_eq_false_2. by intros [? ?].
Qed.

(** The pattern of the question mark matches no line without one. *)
Lemma search_question_mark ln :
  Py.contains "?" ln = false → search (keyword "?") ln = false.
Proof.
  intros Hno. rewrite search_keyword_positions.
  apply not_true_iff_false. intros Hex.
  apply existsb_exists in Hex as (i & _ & Hi).
  apply andb_true_iff in Hi as [Hi _]. apply andb_true_iff in Hi as [_ Hi].
  apply (stands_at_lookup _ _ _ 0 "?"%char) in Hi; [|done].
  apply list_elem_of_lookup_2, contains_chars in Hi. congruence.
Qed.

Lemma length_filter_b2z {A} (f : A → bool) l :
  Z.of_nat (length (filter (λ x, f x = true) l))
  = foldr (λ x n, (Z.b2z (f x) + n)%Z) 0%Z l.
Proof.
  induction l as [|x l IH]; [done|]. rewrite filter_cons. cbn [foldr].
  rewrite <- IH. destruct (f x).
  - rewrite decide_True by done. cbn [length Z.b2z]. lia.
  - rewrite decide_False by done. cbn [Z.b2z]. lia.
Qed.

(** In a line without question mark the patterns that match are the
    keywords that occur. *)
Lemma matching_patterns_keywords ln :
  Py.contains "?" ln = false → matching_patterns ln = keywords_in ln.
Proof.
  intros Hno. unfold matching_patterns, keywords_in.
  rewrite Nat2Z.inj_add, !length_filter_b2z.
  unfold control_flow_patterns, control_flow_words, logical_operators.
  cbn [foldr].
  rewrite (search_question_mark _ Hno), !search_operator.
  rewrite !search_keyword by done.
  cbn [Z.b2z]. lia.
Qed.

Lemma matching_pairs_keywords span :
  existsb (Py.contains "?") span = false →
  matching_pairs span = keyword_pairs span.
Proof.
  unfold matching_pairs, keyword_pairs.
  induction span as [|ln span IH]; [done|]. cbn [existsb foldr].
  intros H. apply orb_false_iff in H as [Hln H].
  by rewrite (matching_patterns_keywords _ Hln), (IH H).
Qed.

End Keywords.


(** ** Function length and complexity *)

Section Functions.
Import QualityReviewer Spec.

Lemma fold_patterns ln pats : ∀ c,
  fold_left (λ complexity pat,
               if Re.search pat ln then (complexity + 1)%Z else complexity)
    pats c
  = (c + Z.of_nat (length (filter (λ pat, Re.search pat ln = true) pats)))%Z.
Proof.
  induction pats as [|pat pats IH]; intros c; cbn [fold_left].
  - rewrite filter_nil. simpl. lia.
  - rewrite IH, filter_cons.
    destruct (decide (Re.search pat ln = true)) as [H|H].
    + rewrite H. cbn [length]. lia.
    + apply not_true_is_false in H. rewrite H. lia.
Qed.

Lemma fold_lines span : ∀ c,
  fold_left
    (λ complexity ln,
       fold_left
         (λ complexity pat,
            if Re.search pat ln then (complexity + 1)%Z else complexity)
         control_flow_patterns complexity)
    span c
  = (c + matching_pairs span)%Z.
Proof.
  induction span as [|ln span IH]; intros c; cbn [fold_left].
  - unfold matching_pairs. cbn [foldr]. lia.
  - rewrite IH, fold_patterns. unfold matching_pairs. cbn [foldr].
    unfold matching_patterns. lia.
Qed.

(** The estimate counts the pairs of a line and a pattern that matches
    in it. *)
Lemma estimate_complexity_pairs span :
  _estimate_complexity span = (1 + matching_pairs span)%Z.
Proof. apply fold_lines. Qed.

(** A pattern that matches somewhere in a line occurs in it. *)
Lemma search_match_starts pat ln :
  Re.search pat ln = true → 1 ≤ length (Re.match_starts pat ln).
Proof.
  unfold Re.search, Re.match_starts.
  generalize (seq 0 (S (length (Py.chars ln)))) as l.
  induction l as [|i l IH]; simpl; [done|].
  rewrite filter_cons. intros H. apply orb_true_iff in H as [H|H].
  - apply bool_decide_eq_true in H. case_decide; [simpl; lia|done].
  - specialize (IH H). case_decide; simpl; lia.
Qed.

Lemma matching_patterns_le ln : (matching_patterns ln <= keyword_occurrences ln)%Z.
Proof.
  unfold matching_patterns, keyword_occurrences.
  induction control_flow_patterns as [|pat pats IH]; simpl; [done|].
  rewrite filter_cons, length_app. case_decide as H; simpl.
  - apply search_match_starts in H. lia.
  - lia.
Qed.

(** The estimate never exceeds the count of occurrences. *)
Lemma estimate_complexity_le span :
  (_estimate_complexity span <= complexity_of span)%Z.
Proof.
  rewrite estimate_complexity_pairs. unfold complexity_of.
  induction span as [|ln span IH]; simpl; [lia|].
  pose proof (matching_patterns_le ln). lia.
Qed.

(** The loop of [_check_functions] over the spans. *)
Lemma fold_check_function th lines repo_path fs : ∀ acc,
  fold_left (check_function th lines repo_path) fs acc
  = acc ++ flat_map (λ f, check_function th lines repo_path [] f) fs.
Proof.
  induction fs as [|f fs IH]; intros acc; simpl.
  - by rewrite app_nil_r.
  - rewrite IH, app_assoc. f_equal.
    unfold check_function.
    repeat match goal with |- context [if ?b then _ else _] =>
                             destruct b end;
      simpl; rewrite <- ?app_assoc, ?app_nil_r; reflexivity.
Qed.

(** C5, as stated: the reported complexity is 1 plus the count of
    keyword occurrences.  It fails for a function whose second line holds
    twelve keywords: the estimate is 3, not 13. *)
Lemma complexity_not_occurrences :
  ¬ (∀ lines file_ext functions f,
       _find_functions lines (_get_function_patterns file_ext)
       = Some functions →
       f ∈ functions →
       _estimate_complexity (Py.slice lines (start_line f - 1) (end_line f))
       = complexity_of (Py.slice lines (start_line f - 1) (end_line f))).
Proof.
  intros H.
  assert (_find_functions
            (long_function 1
               "    r = (1 if a else 2 if b else 3 if c else 4 if d else 5 if e else 6 if f else 7)")
            (_get_function_patterns ".py")
          = Some [Func "handle" "function" 1 55 55]) as Hfind.
  { vm_compute. reflexivity. }
  specialize (H _ _ _ _ Hfind (list_elem_of_here _ _)).
  vm_compute in H. discriminate H.
Qed.

(** For that function of 55 lines and twelve occurrences, with the
    thresholds 50 and 10, the length issue is the only one. *)
Lemma one_line_keywords_no_complexity_issue :
  let lines := long_function 1
    "    r = (1 if a else 2 if b else 3 if c else 4 if d else 5 if e else 6 if f else 7)" in
  span_occurrences lines = 12%Z ∧
  _check_functions default_thresholds lines "m.py" ".py"
  = [length_issue default_thresholds "m.py" (Func "handle" "function" 1 55 55)].
Proof. vm_compute. split; reflexivity. Qed.

(** The question mark of a ternary operator that stands between spaces
    is not counted: twelve such lines leave the estimate at 1. *)
Lemma spaced_ternary_not_counted :
  Re.search (keyword "?") "    x = a ? b : c;" = false
  ∧ _estimate_complexity (replicate 12 "    x = a ? b : c;") = 1%Z.
Proof. vm_compute. by split. Qed.

(** C5, amended: for every span that [_find_functions] finds, a span
    longer than [function_length] yields a length issue at its start
    line; and when no line of the span holds a question mark, the
    complexity that is reported is 1 plus the number of pairs of a line of
    the span and a control-flow keyword that occurs in that line (the
    words if, else, for, while, switch, case, catch, and, or as whole
    words, the operators && and ||), and a span whose complexity exceeds
    [complexity] yields a separate complexity issue at the same line.
    What the estimate does with the question mark of the ternary operator
    is left out. *)
Theorem check_functions_length_and_complexity
    th lines repo_path file_ext functions f :
  _find_functions lines (_get_function_patterns file_ext) = Some functions →
  f ∈ functions →
  let span := Py.slice lines (start_line f - 1) (end_line f) in
  let reported := _check_functions th lines repo_path file_ext in
  ((function_length th < func_length f)%Z →
   length_issue th repo_path f ∈ reported ∧
   line (length_issue th repo_path f) = Some (start_line f)) ∧
  (existsb (Py.contains "?") span = false →
   _estimate_complexity span = (1 + keyword_pairs span)%Z ∧
   ((complexity th < 1 + keyword_pairs span)%Z →
    complexity_issue th repo_path f (1 + keyword_pairs span) ∈ reported ∧
    line (complexity_issue th repo_path f (1 + keyword_pairs span))
    = Some (start_line f) ∧
    complexity_issue th repo_path f (1 + keyword_pairs span)
    ≠ length_issue th repo_path f)).
Proof.
  intros Hfind Hf span reported.
  assert (∀ i, i ∈ check_function th lines repo_path [] f → i ∈ reported)
    as Hin.
  { intros i Hi. unfold reported, _check_functions. rewrite Hfind.
    rewrite fold_check_function. simpl.
    apply list_elem_of_In, in_flat_map. exists f.
    split; by apply list_elem_of_In. }
  split.
  - intros Hlen. split; [|done]. apply Hin. unfold check_function.
    apply Z.ltb_lt in Hlen. rewrite Hlen.
    clear Hlen. destruct (complexity th <? _)%Z; simpl; constructor.
  - intros Hno.
    assert (_estimate_complexity span = (1 + keyword_pairs span)%Z) as He
      by by rewrite estimate_complexity_pairs, matching_pairs_keywords.
    split; [done|].
    intros Hc. split; [|split; [done|]].
    + apply Hin. unfold check_function. fold span. rewrite He.
      apply Z.ltb_lt in Hc. rewrite Hc.
      apply elem_of_app. right. constructor.
    + unfold complexity_issue, length_issue, quality_issue.
      intros Heq. injection Heq as _ Heq. discriminate Heq.
Qed.

(** The scenario of the specification: 55 lines against the threshold 50,
    and twelve lines with one keyword each against the threshold 10. *)
Lemma check_functions_length_and_complexity_witness :
  let lines := long_function 12 "    if x: x = x - 1" in
  let f := Func "handle" "function" 1 55 55 in
  let reported := _check_functions default_thresholds lines "m.py" ".py" in
  _estimate_complexity (Py.slice lines 0 55) = 13%Z ∧
  length_issue default_thresholds "m.py" f ∈ reported ∧
  complexity_issue default_thresholds "m.py" f 13 ∈ reported ∧
  line (length_issue default_thresholds "m.py" f) = Some 1%Z ∧
  line (complexity_issue default_thresholds "m.py" f 13) = Some 1%Z.
Proof.
  intros lines f reported.
  destruct (check_functions_length_and_complexity default_thresholds lines
              "m.py" ".py" [f] f) as (Hl & Hc).
  - vm_compute. reflexivity.
  - by constructor.
  - destruct Hl as [Hl1 Hl2]; [vm_compute; reflexivity|].
    destruct Hc as (He & Hc); [vm_compute; reflexivity|].
    assert (keyword_pairs (Py.slice lines (start_line f - 1) (end_line f))
            = 12%Z) as E by (vm_compute; reflexivity).
    rewrite E in He, Hc.
    destruct Hc as (Hc1 & Hc2 & _); [vm_compute; reflexivity|].
    split; [exact He|].
    split; [exact Hl1|]. split; [exact Hc1|]. split; [exact Hl2 | exact Hc2].
Defined.

End Functions.


(** ** Duplicated blocks *)

Section Duplication.
Import QualityReviewer Spec.

(** C7, at the inputs on which the code departs from it.  A window with
    three hash characters in one line of code and no comment is skipped,
    and its repetition is not reported; a window of a JavaScript file with
    three comment lines out of five is kept, and its repetition is
    reported. *)
Theorem skip_block_counts_hash_characters :
  let code_window :=
    ["palette = ['#fff', '#000', '#abc']"; "a = 1"; "b = 2"; "c = 3"; "d = 4"] in
  let comment_window :=
    ["// alpha"; "// beta"; "// gamma"; "x = 1"; "y = 2"] in
  (skip_window "#" code_window = false ∧
   skip_block (Py.join Py.newline code_window) = true ∧
   _check_duplication
     (["one"; "two"] ++ code_window ++ ["three"] ++ code_window ++ ["four"])
     "m.py" = []) ∧
  (skip_window "//" comment_window = true ∧
   skip_block (Py.join Py.newline comment_window) = false ∧
   _check_duplication
     (["one"; "two"] ++ comment_window ++ ["three"] ++ comment_window
      ++ ["four"])
     "m.js" = [duplication_issue "m.js" [3; 9]%Z]).
Proof. vm_compute. repeat split. Qed.

Lemma forallb_seq_pairs (f : nat → nat → bool) n :
  forallb (λ i, forallb (f i) (seq 0 n)) (seq 0 n) = true →
  ∀ i j, i < n → j < n → f i j = true.
Proof.
  intros H i j Hi Hj.
  rewrite forallb_forall in H.
  specialize (H i). rewrite forallb_forall in H.
  apply H; apply in_seq; lia.
Qed.

Lemma only_duplicate_10_50_spec lines :
  only_duplicate_10_50 lines = true →
  ∀ i j, i < j ≤ length lines - 5 →
         block_at lines i = block_at lines j → i = 9 ∧ j = 49.
Proof.
  intros H i j Hij Heq. unfold only_duplicate_10_50 in H.
  pose proof (forallb_seq_pairs _ _ H i j ltac:(lia) ltac:(lia)) as Hf.
  simpl in Hf. apply orb_true_iff in Hf as [Hf|Hf].
  - apply negb_true_iff, andb_false_iff in Hf as [Hf|Hf].
    + apply Nat.ltb_ge in Hf. lia.
    + apply String.eqb_neq in Hf. done.
  - apply andb_true_iff in Hf as [H1 H2].
    apply Nat.eqb_eq in H1, H2. done.
Qed.

(** C6, as stated: a block of five lines at the lines 10 to 14 and 50 to
    54, and no other repeated window, yield one issue at line 10.  It
    fails for a block of five empty lines, whose windows are skipped. *)
Lemma duplicated_blank_block_unreported :
  ¬ (∀ lines repo_path,
       54 ≤ length lines →
       take 5 (drop 9 lines) = take 5 (drop 49 lines) →
       (∀ i j, i < j ≤ length lines - 5 →
               block_at lines i = block_at lines j → i = 9 ∧ j = 49) →
       ∃ i, _check_duplication lines repo_path = [i]
            ∧ line i = Some 10%Z ∧ severity i = Some "medium").
Proof.
  intros H.
  destruct (H (block_file [""; ""; ""; ""; ""]) "m.py") as (i & Hi & _).
  - vm_compute. lia.
  - reflexivity.
  - apply only_duplicate_10_50_spec. vm_compute. reflexivity.
  - vm_compute in Hi. discriminate Hi.
Qed.

(** *** The dictionary of blocks *)

Lemma lookup_add_block blocks b n b' :
  lookup_block b' (add_block blocks b n)
  = if decide (b' = b)
    then Some (default [] (lookup_block b blocks) ++ [n])
    else lookup_block b' blocks.
Proof.
  induction blocks as [|[k ns] blocks IH]; simpl.
  - destruct (String.eqb_spec b b'); case_decide; congruence.
  - destruct (String.eqb_spec k b) as [->|Hkb]; simpl.
    + destruct (String.eqb_spec b b') as [<-|Hbb']; case_decide; congruence.
    + rewrite IH. destruct (String.eqb_spec k b') as [<-|Hkb'];
        case_decide; congruence.
Qed.

Lemma keys_add_block blocks b n :
  ((add_block blocks b n).*1 = blocks.*1)
  ∨ ((b ∉ blocks.*1) ∧ (add_block blocks b n).*1 = blocks.*1 ++ [b]).
Proof.
  induction blocks as [|[k ns] blocks IH]; cbn [add_block].
  - right. split; [apply not_elem_of_nil|done].
  - destruct (String.eqb_spec k b) as [->|Hkb]; [by left|].
    rewrite !fmap_cons. cbn [fst].
    destruct IH as [->|[Hb ->]]; [by left|right].
    split; [|done]. rewrite elem_of_cons. intros [?|?]; congruence.
Qed.

Lemma NoDup_add_block blocks b n :
  NoDup blocks.*1 → NoDup (add_block blocks b n).*1.
Proof.
  intros Hnd. destruct (keys_add_block blocks b n) as [->|[Hb ->]]; [done|].
  apply NoDup_app. repeat split; [done| |apply NoDup_singleton].
  intros x Hx Hxb. apply list_elem_of_singleton in Hxb. congruence.
Qed.

Lemma lookup_block_elem_of blocks b ns :
  NoDup blocks.*1 →
  (b, ns) ∈ blocks ↔ lookup_block b blocks = Some ns.
Proof.
  induction blocks as [|[k v] blocks IH]; cbn [lookup_block]; intros Hnd.
  - split; [intros H; by apply elem_of_nil in H | done].
  - rewrite fmap_cons in Hnd. cbn [fst] in Hnd.
    apply NoDup_cons in Hnd as [Hk Hnd]. rewrite elem_of_cons.
    destruct (String.eqb_spec k b) as [->|Hkb].
    + split.
      * intros [Heq|Hin]; [congruence|]. exfalso. apply Hk.
        apply list_elem_of_fmap. by exists (b, ns).
      * intros [= ->]. by left.
    + rewrite <- (IH Hnd). split; [|by right].
      intros [Heq|Hin]; [congruence|done].
Qed.

(** The state of the dictionary after the windows of [todo], when it
    holds the windows of [done]. *)
Lemma collect_blocks_invariant lines todo : ∀ done blocks,
  NoDup blocks.*1 →
  (∀ b, lookup_block b blocks = nonempty (line_numbers_of lines b done)) →
  let blocks' :=
    fold_left
      (λ blocks i,
         let block := block_at lines i in
         if skip_block block then blocks
         else add_block blocks block (Z.of_nat i + 1)%Z)
      todo blocks in
  NoDup blocks'.*1 ∧
  ∀ b, lookup_block b blocks'
       = nonempty (line_numbers_of lines b (done ++ todo)).
Proof.
  induction todo as [|i todo IH]; intros done blocks Hnd Hl; cbn [fold_left].
  - by rewrite app_nil_r.
  - replace (done ++ i :: todo) with ((done ++ [i]) ++ todo)
      by by rewrite <- app_assoc.
    apply IH.
    + cbv zeta. destruct (skip_block _); [done|by apply NoDup_add_block].
    + intros b. unfold line_numbers_of. rewrite filter_app, fmap_app.
      fold (line_numbers_of lines b done).
      cbv zeta. destruct (skip_block (block_at lines i)) eqn:Hs.
      * rewrite filter_cons, filter_nil, decide_False.
        -- by rewrite app_nil_r.
        -- intros [Hk _]. congruence.
      * rewrite lookup_add_block, filter_cons, filter_nil.
        case_decide as Hb.
        -- subst b. rewrite decide_True by done. rewrite Hl.
           by destruct (line_numbers_of _ _ _).
        -- rewrite decide_False by (intros [_ ?]; congruence).
           by rewrite app_nil_r.
Qed.

Lemma collect_blocks_lookup lines :
  NoDup (collect_blocks lines).*1 ∧
  ∀ b, lookup_block b (collect_blocks lines)
       = nonempty (line_numbers_of lines b (seq 0 (length lines - 5 + 1))).
Proof.
  apply (collect_blocks_invariant lines _ [] []); [apply NoDup_nil_2|done].
Qed.

(** *** The report of the repeated blocks *)

Lemma filter_none {A} (P : A → Prop) `{∀ x, Decision (P x)} (l : list A) :
  (∀ x, x ∈ l → ¬ P x) → filter P l = [].
Proof.
  induction l as [|a l IH]; intros Hl; [done|].
  rewrite filter_cons, decide_False.
  - apply IH. intros x Hx. apply Hl. by right.
  - apply Hl. by left.
Qed.

(** The members of a range that satisfy a property which holds at two
    places only. *)
Lemma filter_seq_two (P : nat → Prop) `{∀ x, Decision (P x)} n x y :
  x < y < n → P x → P y → (∀ i, i < n → P i → i = x ∨ i = y) →
  filter P (seq 0 n) = [x; y].
Proof.
  intros Hxy Hx Hy Hother.
  replace n with (x + (1 + ((y - x - 1) + (1 + (n - y - 1))))) by lia.
  rewrite !seq_app, !filter_app. cbn [seq].
  rewrite (filter_none P (seq 0 x)), (filter_none P (seq _ (y - x - 1))),
    (filter_none P (seq _ (n - y - 1))).
  - rewrite !filter_cons, !filter_nil.
    replace (0 + x) with x by lia.
    replace (x + 1 + (y - x - 1)) with y by lia.
    by rewrite !decide_True.
  - intros i Hi Hp. apply elem_of_seq in Hi.
    destruct (Hother i ltac:(lia) Hp); lia.
  - intros i Hi Hp. apply elem_of_seq in Hi.
    destruct (Hother i ltac:(lia) Hp); lia.
  - intros i Hi Hp. apply elem_of_seq in Hi.
    destruct (Hother i ltac:(lia) Hp); lia.
Qed.

Lemma filter_unique {A B} (P : A * B → Prop) `{∀ x, Decision (P x)}
    (l : list (A * B)) (e0 : A * B) :
  NoDup l.*1 → e0 ∈ l → P e0 → (∀ e, e ∈ l → P e → e = e0) →
  filter P l = [e0].
Proof.
  induction l as [|e l IH]; intros Hnd Hin Hp Hall.
  - by apply elem_of_nil in Hin.
  - rewrite fmap_cons in Hnd. apply NoDup_cons in Hnd as [He Hnd].
    rewrite filter_cons. case_decide as Hpe.
    + assert (e = e0) as -> by (apply Hall; [by left|done]).
      f_equal. apply filter_none. intros x Hx Hpx.
      assert (x = e0) as -> by (apply Hall; [by right|done]).
      apply He. apply list_elem_of_fmap. by exists e0.
    + apply IH; [done| |done|].
      * apply elem_of_cons in Hin as [->|Hin]; done.
      * intros x Hx. apply Hall. by right.
Qed.

(** The loop that reports the entries with more than one line number. *)
Lemma fold_report repo_path blocks : ∀ acc,
  fold_left
    (λ issues entry,
       if (1 <? Py.len entry.2)%Z
       then issues ++ [duplication_issue repo_path entry.2]
       else issues)
    blocks acc
  = acc ++ ((λ e, duplication_issue repo_path e.2)
            <$> filter (λ e : string * list Z, 1 < length e.2) blocks).
Proof.
  induction blocks as [|e blocks IH]; intros acc; cbn [fold_left].
  - by rewrite filter_nil, app_nil_r.
  - rewrite IH, filter_cons. unfold Py.len.
    destruct (Z.ltb_spec 1 (Z.of_nat (length e.2))).
    + rewrite decide_True by lia. by rewrite fmap_cons, <- app_assoc.
    + by rewrite decide_False by lia.
Qed.

(** A repeated block whose window the check keeps, when no other two
    kept windows hold the same text, is reported once. *)
Lemma kept_block_reported lines repo_path :
  54 ≤ length lines →
  take 5 (drop 9 lines) = take 5 (drop 49 lines) →
  skip_block (block_at lines 9) = false →
  (∀ i j, i < j ≤ length lines - 5 →
          skip_block (block_at lines i) = false →
          block_at lines i = block_at lines j → i = 9 ∧ j = 49) →
  ∃ i, _check_duplication lines repo_path = [i]
       ∧ line i = Some 10%Z ∧ severity i = Some "medium"
       ∧ message i = "Duplicated code block found at lines 10, 50".
Proof.
  intros Hlen Hblock Hkeep Hother.
  set (n := length lines - 5 + 1).
  set (b0 := block_at lines 9).
  assert (block_at lines 49 = b0) as H49.
  { unfold b0, block_at, block_size. by rewrite Hblock. }
  assert (filter (kept_with lines b0) (seq 0 n) = [9; 49]) as Hb0.
  { apply filter_seq_two.
    - unfold n. lia.
    - by split.
    - split; [by rewrite H49|done].
    - intros i Hi [Hki Hbi]. unfold n in Hi.
      destruct (decide (i < 9)) as [Hlt|Hge].
      + destruct (Hother i 9 ltac:(lia) Hki Hbi). lia.
      + destruct (decide (i = 9)) as [->|Hne]; [by left|right].
        by destruct (Hother 9 i ltac:(lia) Hkeep (eq_sym Hbi)). }
  destruct (collect_blocks_lookup lines) as [Hnd Hlookup]. fold n in Hlookup.
  exists (duplication_issue repo_path [10; 50]%Z).
  split; [|by vm_compute].
  unfold _check_duplication, Py.len.
  destruct (Z.ltb_spec (Z.of_nat (length lines)) 10); [lia|].
  rewrite fold_report. cbn [app].
  rewrite (filter_unique _ _ (b0, [10; 50]%Z)); [done|done| |simpl; lia|].
  - apply lookup_block_elem_of; [done|]. rewrite Hlookup.
    unfold line_numbers_of. by rewrite Hb0.
  - intros [b ns] Hin Hlong. cbn [snd] in Hlong.
    apply lookup_block_elem_of in Hin; [|done].
    rewrite Hlookup in Hin.
    assert (ns = line_numbers_of lines b (seq 0 n)) as Hns.
    { destruct (line_numbers_of lines b (seq 0 n)); simpl in Hin; congruence. }
    assert (b = b0) as ->; [|by rewrite Hns; unfold line_numbers_of; rewrite Hb0].
    rewrite Hns in Hlong. unfold line_numbers_of in Hlong.
    rewrite length_fmap in Hlong.
    pose proof (NoDup_filter (kept_with lines b) _ (NoDup_seq 0 n)) as Hnd2.
    destruct (filter (kept_with lines b) (seq 0 n)) as [|x [|y rest]] eqn:Hf;
      [simpl in Hlong; lia..|].
    assert (x ∈ filter (kept_with lines b) (seq 0 n)) as Hx
      by (rewrite Hf; by left).
    assert (y ∈ filter (kept_with lines b) (seq 0 n)) as Hy
      by (rewrite Hf; right; by left).
    apply list_elem_of_filter in Hx as [[Hkx Hbx] Hx].
    apply list_elem_of_filter in Hy as [[Hky Hby] Hy].
    apply elem_of_seq in Hx, Hy. unfold n in Hx, Hy.
    apply NoDup_cons in Hnd2 as [Hxy _].
    assert (x ≠ y) as Hne by (intros ->; apply Hxy; by left).
    destruct (decide (x < y)).
    + destruct (Hother x y ltac:(lia) Hkx ltac:(congruence)) as [-> _].
      done.
    + destruct (Hother y x ltac:(lia) Hky ltac:(congruence)) as [-> _].
      done.
Qed.

(** *** Blank windows and windows without a hash *)

Lemma lstrip_blank s :
  Notions.blank (Py.lstrip s) = Notions.blank s.
Proof.
  induction s as [|c s IH]; [done|]. cbn [Py.lstrip].
  destruct (Py.isspace c) eqn:Hc; [|done].
  rewrite IH. unfold Notions.blank. rewrite chars_cons. cbn [forallb].
  by rewrite Hc.
Qed.

Lemma rstrip_empty s : Py.rstrip s = EmptyString ↔ Notions.blank s = true.
Proof.
  induction s as [|c s IH]; [done|]. cbn [Py.rstrip].
  unfold Notions.blank in *. rewrite chars_cons. cbn [forallb].
  rewrite andb_true_iff, <- IH.
  destruct (Py.rstrip s); destruct (Py.isspace c); split; try done;
    intros [? ?]; done.
Qed.

Lemma strip_empty s : Py.strip s = EmptyString ↔ Notions.blank s = true.
Proof. unfold Py.strip. by rewrite rstrip_empty, lstrip_blank. Qed.

Lemma blank_app a b :
  Notions.blank (a +:+ b) = Notions.blank a && Notions.blank b.
Proof. unfold Notions.blank. by rewrite chars_app, forallb_app. Qed.

Lemma join_cons sep x y l :
  Py.join sep (x :: y :: l) = x +:+ sep +:+ Py.join sep (y :: l).
Proof. reflexivity. Qed.

(** A block is blank only if each of its lines is. *)
Lemma blank_join window :
  Notions.blank (Py.join Py.newline window) = true →
  forallb (λ ln, String.eqb (Py.strip ln) "") window = true.
Proof.
  induction window as [|ln [|ln' window] IH]; [done| |].
  - cbn [Py.join forallb]. intros Hb. apply strip_empty in Hb.
    by rewrite Hb.
  - rewrite join_cons, !blank_app. intros Hb.
    apply andb_true_iff in Hb as [Hln Hb].
    apply andb_true_iff in Hb as [_ Hb].
    change (forallb _ (ln :: ln' :: window))
      with (String.eqb (Py.strip ln) "" && forallb
              (λ ln, String.eqb (Py.strip ln) "") (ln' :: window)).
    apply strip_empty in Hln. rewrite Hln, (IH Hb). done.
Qed.

Lemma count_app c a b :
  Py.count c (a +:+ b) = (Py.count c a + Py.count c b)%Z.
Proof.
  induction a as [|d a IH]; [done|].
  change (String d a +:+ b) with (String d (a +:+ b)).
  cbn [Py.count]. rewrite IH. lia.
Qed.

Lemma count_absent c s : Py.contains c s = false → Py.count c s = 0%Z.
Proof.
  induction s as [|d s IH]; [done|]. cbn [Py.contains Py.count].
  intros H. apply orb_false_iff in H as [Hd Hs]. by rewrite Hd, IH.
Qed.

Lemma count_join window :
  existsb (Py.contains "#") window = false →
  Py.count "#" (Py.join Py.newline window) = 0%Z.
Proof.
  induction window as [|ln [|ln' window] IH]; [done| |].
  - cbn [existsb Py.join]. rewrite orb_false_r. apply count_absent.
  - intros H. change (existsb _ (ln :: ln' :: window))
      with (Py.contains "#" ln || existsb (Py.contains "#") (ln' :: window))
      in H.
    apply orb_false_iff in H as [Hln H].
    rewrite join_cons, !count_app, (count_absent _ _ Hln), (IH H).
    reflexivity.
Qed.

(** A window that the filter of the specification keeps and that holds
    no hash is kept by the check. *)
Lemma kept_window_not_skipped window :
  kept_window window = true →
  existsb (Py.contains "#") window = false →
  skip_block (Py.join Py.newline window) = false.
Proof.
  intros Hkept Hhash. unfold skip_block.
  rewrite (count_join _ Hhash). rewrite orb_false_r.
  apply not_true_iff_false. intros Hb. apply String.eqb_eq in Hb.
  apply strip_empty, blank_join in Hb.
  unfold kept_window, line_comment_delimiters in Hkept.
  cbn [forallb] in Hkept. apply andb_true_iff in Hkept as [Hk _].
  apply negb_true_iff in Hk. unfold skip_window in Hk.
  apply orb_false_iff in Hk as [Hk _]. congruence.
Qed.

(** C6, amended: when the five lines 10 to 14 are repeated at the lines
    50 to 54, no other two windows hold the same text, the filter of the
    specification keeps their window (it is not blank, and at most half of
    its lines are pure comments, for the delimiter [#] as for [//]) and
    the window holds no hash character, the check returns exactly one
    issue, of severity medium, at line 10, whose message lists the lines
    10 and 50.  What the check does with a window that holds hash
    characters is left out: it is the subject of C7. *)
Theorem duplicated_block_reported lines repo_path :
  54 ≤ length lines →
  take 5 (drop 9 lines) = take 5 (drop 49 lines) →
  kept_window (take 5 (drop 9 lines)) = true →
  existsb (Py.contains "#") (take 5 (drop 9 lines)) = false →
  (∀ i j, i < j ≤ length lines - 5 →
          block_at lines i = block_at lines j → i = 9 ∧ j = 49) →
  ∃ i, _check_duplication lines repo_path = [i]
       ∧ line i = Some 10%Z ∧ severity i = Some "medium"
       ∧ message i = "Duplicated code block found at lines 10, 50".
Proof.
  intros Hlen Hblock Hkept Hhash Hother.
  apply kept_block_reported; [done|done| |].
  - by apply kept_window_not_skipped.
  - intros i j Hij _. by apply Hother.
Qed.

Lemma duplicated_block_reported_witness :
  ∃ i, _check_duplication
         (block_file ["total = 0"; "for item in items:";
                      "    total += item.price"; "// log(total)";
                      "return total"]) "m.js" = [i]
       ∧ line i = Some 10%Z ∧ severity i = Some "medium"
       ∧ message i = "Duplicated code block found at lines 10, 50".
Proof.
  apply duplicated_block_reported.
  - vm_compute. lia.
  - reflexivity.
  - vm_compute. reflexivity.
  - vm_compute. reflexivity.
  - apply only_duplicate_10_50_spec. vm_compute. reflexivity.
Defined.

End Duplication.


(** ** Patterns *)

Section Patterns.
Import Re.

Lemma state_eqb_eq (x y : state) : state_eqb x y = true ↔ x = y.
Proof.
  destruct x as [i [[a b]|]], y as [j [[c d]|]]; unfold state_eqb; simpl;
    rewrite ?andb_true_iff, ?Nat.eqb_eq; split;
    try (intros [= -> -> ->]); try (intros [= ->]);
    try (intros (-> & -> & ->)); try (intros [-> ?]); try done.
Qed.

(** A state of a list stays when the repeated states are dropped. *)
Lemma dedup_elem (x : state) l : ∀ seen,
  x ∈ l → x ∈ dedup seen l ∨ existsb (state_eqb x) seen = true.
Proof.
  induction l as [|y l IH]; intros seen Hx; cbn [dedup].
  - by apply elem_of_nil in Hx.
  - destruct (existsb (state_eqb y) seen) eqn:Hy.
    + apply elem_of_cons in Hx as [->|Hx]; [by right|by apply IH].
    + apply elem_of_cons in Hx as [->|Hx]; [left; by left|].
      destruct (IH (y :: seen) Hx) as [Hin|Hseen]; [left; by right|].
      cbn [existsb] in Hseen. apply orb_true_iff in Hseen as [Heq|Hseen].
      * apply state_eqb_eq in Heq as ->. left. by left.
      * by right.
Qed.

Lemma dedup_nil_elem (x : state) l : x ∈ l → x ∈ dedup [] l.
Proof. intros Hx. by destruct (dedup_elem x l [] Hx). Qed.

Lemma star_iter_here step fuel x : x ∈ star_iter step fuel x.
Proof.
  destruct fuel; cbn [star_iter]; [by left|].
  apply elem_of_app. right. by left.
Qed.

Lemma elem_of_flat_map {A B} (f : A → list B) l x y :
  x ∈ l → y ∈ f x → y ∈ flat_map f l.
Proof.
  intros Hx Hy. apply list_elem_of_In, in_flat_map.
  exists x. split; by apply list_elem_of_In.
Qed.

(** The matcher finds the words of a pattern: a word of the pattern that
    stands in the subject after [pre] is matched from the end of [pre] to
    its own end. *)
Lemma run_lang r w :
  lang r w →
  (∀ pre post cap, ∃ cap',
     (length pre + length w, cap') ∈ run r (pre ++ w ++ post) (length pre, cap))
  ∧ (∀ r', r = Star r' →
     ∀ pre post cap fuel, length w + length post < fuel →
     ∃ cap', (length pre + length w, cap')
             ∈ star_iter (run r' (pre ++ w ++ post)) fuel (length pre, cap)).
Proof.
  induction 1 as [ | p c Hp | r1 r2 w1 w2 _ [IH1 _] _ [IH2 _]
                 | r1 r2 w _ [IH _] | r1 r2 w _ [IH _] | r
                 | r w1 w2 Hne _ [IH1 _] _ [_ IH2] | r w _ [IH _] ].
  - split; [|done]. intros pre post cap. exists cap.
    rewrite Nat.add_0_r. by left.
  - split; [|done]. intros pre post cap. exists cap. cbn [run fst snd].
    rewrite lookup_app_r, Nat.sub_diag by lia. simpl. rewrite Hp.
    replace (length pre + 1) with (S (length pre)) by lia. by left.
  - split; [|done]. intros pre post cap. cbn [run].
    destruct (IH1 pre (w2 ++ post) cap) as [cap1 H1].
    destruct (IH2 (pre ++ w1) post cap1) as [cap2 H2].
    exists cap2. apply dedup_nil_elem.
    rewrite <- !app_assoc in *. rewrite length_app in *.
    rewrite Nat.add_assoc. eapply elem_of_flat_map; eassumption.
  - split; [|done]. intros pre post cap. cbn [run].
    destruct (IH pre post cap) as [cap1 H1]. exists cap1.
    apply dedup_nil_elem, elem_of_app. by left.
  - split; [|done]. intros pre post cap. cbn [run].
    destruct (IH pre post cap) as [cap1 H1]. exists cap1.
    apply dedup_nil_elem, elem_of_app. by right.
  - split.
    + intros pre post cap. exists cap. cbn [run]. rewrite Nat.add_0_r.
      apply dedup_nil_elem, star_iter_here.
    + intros r' _ pre post cap fuel _. exists cap. rewrite Nat.add_0_r.
      apply star_iter_here.
  - assert (∀ pre post cap fuel, length (w1 ++ w2) + length post < fuel →
            ∃ cap', (length pre + length (w1 ++ w2), cap')
                    ∈ star_iter (run r (pre ++ (w1 ++ w2) ++ post)) fuel
                        (length pre, cap)) as HQ.
    { intros pre post cap fuel Hfuel.
      destruct fuel as [|fuel]; [lia|].
      assert (0 < length w1) by (destruct w1; [done|simpl; lia]).
      rewrite length_app in Hfuel.
      destruct (IH1 pre (w2 ++ post) cap) as [cap1 H1].
      destruct (IH2 r eq_refl (pre ++ w1) post cap1 fuel ltac:(lia))
        as [cap2 H2].
      exists cap2. cbn [star_iter]. apply elem_of_app. left.
      rewrite <- !app_assoc in *. rewrite length_app in *.
      rewrite Nat.add_assoc.
      eapply elem_of_flat_map; [exact H1|]. cbn [fst].
      destruct (Nat.ltb_spec (length pre) (length pre + length w1)); [|lia].
      exact H2. }
    split.
    + intros pre post cap. cbn [run].
      destruct (HQ pre post cap (S (length (pre ++ (w1 ++ w2) ++ post))))
        as [cap' H'].
      * rewrite !length_app. lia.
      * exists cap'. by apply dedup_nil_elem.
    + intros r' [= <-]. exact HQ.
  - split; [|done]. intros pre post cap. cbn [run].
    destruct (IH pre post cap) as [cap1 H1].
    exists (Some (length pre, length pre + length w)).
    apply list_elem_of_fmap. by exists (length pre + length w, cap1).
Qed.

(** [re.search] finds a word of the pattern that stands somewhere in
    the line. *)
Lemma search_lang r ln pre w post :
  Py.chars ln = pre ++ w ++ post → lang r w → search r ln = true.
Proof.
  intros Hln Hw. unfold search. rewrite Hln.
  apply existsb_exists. exists (length pre). split.
  - apply in_seq. rewrite length_app. lia.
  - apply bool_decide_eq_true. unfold match_at.
    destruct (proj1 (run_lang r w Hw) pre post None) as [cap Hcap].
    destruct (run r (pre ++ w ++ post) (length pre, None)).
    + by apply elem_of_nil in Hcap.
    + by eexists.
Qed.

Lemma lang_star_chr p w :
  Forall (λ c, p c = true) w → lang (Star (Chr p)) w.
Proof.
  induction 1 as [|c w Hc _ IH]; [constructor|].
  change (c :: w) with ([c] ++ w).
  apply lang_star_cons; [done|by constructor|done].
Qed.

Lemma lang_LitI key : ∀ w,
  key ≠ "" →
  Py.lower_char <$> Py.chars key = Py.lower_char <$> w →
  lang (LitI key) w.
Proof.
  induction key as [|c key IH]; intros w Hne Hw; [done|].
  rewrite chars_cons, fmap_cons in Hw.
  destruct w as [|d w]; [done|]. rewrite fmap_cons in Hw.
  injection Hw as Hcd Hw.
  assert (lang (CharI c) [d]) as Hd.
  { constructor. apply Ascii.eqb_eq. done. }
  destruct key as [|c2 key].
  - destruct w; [|done]. exact Hd.
  - change (lang (Cat (CharI c) (LitI (String c2 key))) ([d] ++ w)).
    constructor; [exact Hd|]. by apply IH.
Qed.

End Patterns.


(** ** Hardcoded secrets *)

Section Secrets.
Import Re SecurityReviewer Spec.

(** The pattern of the rule [hardcoded_secrets]. *)
Lemma hardcoded_pattern_lang key name plural ws1 sep ws2 q1 lit q2 :
  key ∈ secret_keys →
  same_ignoring_case key name →
  plural ∈ [""; "s"; "S"] →
  Forall (λ c, is_quote_or_space c = true) (Py.chars ws1) →
  Py.contains sep ":=" = true →
  Forall (λ c, is_quote_or_space c = true) (Py.chars ws2) →
  is_quote q1 = true →
  lit ≠ "" →
  Forall (λ c, Py.isword c = true) (Py.chars lit) →
  is_quote q2 = true →
  lang
    (Seq [Group (Any [LitI "password"; LitI "secret"; LitI "key";
                      LitI "token"; LitI "credential"]);
          Opt (CharI "s"); Star quote_or_space; OneOf ":=";
          Star quote_or_space; quote; Plus Word; quote])
    (Py.chars name ++ Py.chars plural ++ Py.chars ws1 ++ [sep]
     ++ Py.chars ws2 ++ [q1] ++ Py.chars lit ++ [q2]).
Proof.
  intros Hkey Hname Hplural Hws1 Hsep Hws2 Hq1 Hlit Hword Hq2.
  cbn [Seq]. repeat apply lang_cat.
  - apply lang_group. unfold secret_keys in Hkey. cbn [Any].
    repeat (apply elem_of_cons in Hkey as [->|Hkey];
            [repeat (first [ by (apply lang_alt_l, lang_LitI)
                           | apply lang_alt_r ]);
             by apply lang_LitI |]).
    by apply elem_of_nil in Hkey.
  - unfold Opt.
    repeat (apply elem_of_cons in Hplural as [->|Hplural]).
    + apply lang_alt_r. constructor.
    + apply lang_alt_l. by constructor.
    + apply lang_alt_l. by constructor.
    + by apply elem_of_nil in Hplural.
  - by apply (lang_star_chr is_quote_or_space).
  - by constructor.
  - by apply (lang_star_chr is_quote_or_space).
  - by apply (lang_chr is_quote).
  - destruct lit as [|c lit]; [done|]. rewrite chars_cons in *.
    apply Forall_cons in Hword as [Hc Hword].
    change (c :: Py.chars lit) with ([c] ++ Py.chars lit).
    apply lang_cat; [by constructor|by apply lang_star_chr].
  - by apply (lang_chr is_quote).
Qed.

(** The rule of hardcoded secrets is the first of the table, no other
    rule has its name, and it matches the lines that assign a literal of
    word characters. *)
Lemma hardcoded_pattern_search ln :
  word_literal_assignment ln →
  ∃ info rest,
    security_patterns = ("hardcoded_secrets", info) :: rest
    ∧ Forall (λ c : string * check_info, c.1 ≠ "hardcoded_secrets") rest
    ∧ check_message info = "Potential hardcoded secret or credential"
    ∧ check_severity info = "critical"
    ∧ search (pattern info) ln = true.
Proof.
  intros [pre key name plural ws1 sep ws2 q1 lit q2 post
            Hkey Hname Hplural Hws1 Hsep Hws2 Hq1 Hlit Hword Hq2].
  eexists _, _. split; [reflexivity|].
  split; [repeat constructor; discriminate|].
  split; [reflexivity|]. split; [reflexivity|]. cbn [pattern].
  eapply (search_lang _ _ (Py.chars pre) _ (Py.chars post));
    [|by apply (hardcoded_pattern_lang key name plural ws1 sep ws2 q1 lit q2)].
  repeat (rewrite chars_app || rewrite chars_cons).
  rewrite <- !app_assoc. reflexivity.
Qed.

(** *** The loops of [_check_security_patterns] *)

Lemma check_lines_acc repo_path name info lines : ∀ i acc,
  check_lines repo_path name info i lines acc
  = acc ++ check_lines repo_path name info i lines [].
Proof.
  induction lines as [|ln lines IH]; intros i acc; cbn [check_lines].
  - by rewrite app_nil_r.
  - rewrite IH, (IH _ (if search _ _ then _ else _)).
    destruct (search (pattern info) ln); [|done].
    by rewrite <- app_assoc.
Qed.

(** The issues of a rule carry its name and a line after the first
    index. *)
Lemma check_lines_elem repo_path name info lines : ∀ i x,
  x ∈ check_lines repo_path name info i lines [] →
  code x = Some name ∧ ∃ k, line x = Some k ∧ (i < k)%Z.
Proof.
  induction lines as [|ln lines IH]; intros i x Hx; cbn [check_lines] in Hx.
  - by apply elem_of_nil in Hx.
  - rewrite check_lines_acc in Hx. apply elem_of_app in Hx as [Hx|Hx].
    + destruct (search (pattern info) ln); [|by apply elem_of_nil in Hx].
      apply list_elem_of_singleton in Hx as ->. simpl.
      split; [done|]. eexists. split; [done|lia].
    + destruct (IH _ _ Hx) as (Hc & k & Hk & Hlt).
      split; [done|]. exists k. split; [done|lia].
Qed.

(** A line that the pattern of a rule matches gets one issue of that
    rule. *)
Lemma filter_check_lines_at repo_path name info lines : ∀ i n ln,
  lines !! n = Some ln →
  search (pattern info) ln = true →
  filter (λ x, code x = Some name ∧ line x = Some (i + Z.of_nat n + 1)%Z)
    (check_lines repo_path name info i lines [])
  = [ {| file := repo_path;
         line := Some (i + Z.of_nat n + 1)%Z;
         message := check_message info;
         severity := Some (check_severity info);
         type_ := Some "security";
         code := Some name;
         suggestion := Some (_get_suggestion name) |} ].
Proof.
  induction lines as [|l0 lines IH]; intros i n ln Hn Hs; [done|].
  cbn [check_lines]. rewrite check_lines_acc, filter_app.
  destruct n as [|n].
  - injection Hn as ->. rewrite Hs. cbn [app].
    rewrite filter_cons, filter_nil, decide_True.
    + rewrite (filter_none _ (check_lines _ _ _ _ _ _)).
      * simpl. do 3 f_equal. lia.
      * intros x Hx [_ Hl].
        apply check_lines_elem in Hx as (_ & k & Hk & Hlt).
        rewrite Hk in Hl. injection Hl as ->. lia.
    + simpl. split; [done|]. f_equal. lia.
  - rewrite (filter_none _ (if search _ _ then _ else _)).
    + cbn [app]. cbn [lookup list_lookup] in Hn.
      replace (i + Z.of_nat (S n) + 1)%Z with (i + 1 + Z.of_nat n + 1)%Z
        by lia.
      by apply (IH (i + 1)%Z n ln).
    + intros x Hx [_ Hl].
      destruct (search (pattern info) l0); [|by apply elem_of_nil in Hx].
      apply list_elem_of_singleton in Hx as ->. simpl in Hl.
      injection Hl as Hl. lia.
Qed.

Lemma check_patterns_flat_map patterns lines repo_path : ∀ acc,
  fold_left
    (λ issues check,
       check_lines repo_path check.1 check.2 0%Z lines issues)
    patterns acc
  = acc ++ flat_map (λ check, check_lines repo_path check.1 check.2 0%Z lines [])
             patterns.
Proof.
  induction patterns as [|c patterns IH]; intros acc; cbn [fold_left flat_map].
  - by rewrite app_nil_r.
  - by rewrite IH, check_lines_acc, <- app_assoc.
Qed.

(** C8, as stated: every line that assigns a literal string to a variable
    named password gets exactly one critical issue.  It fails for a
    literal with a character that is not a word character: the line gets
    no issue. *)
Lemma hardcoded_secret_missed :
  ¬ (∀ name lit repo_path,
       name ∈ secret_keys →
       ∃ i, filter (λ x, severity x = Some "critical")
              (_check_security_patterns [secret_assignment name lit] repo_path)
            = [i]
            ∧ code i = Some "hardcoded_secrets").
Proof.
  intros H.
  destruct (H "password" "hunter-2" "app.py") as (i & Hi & _).
  - by left.
  - vm_compute in Hi. discriminate Hi.
Qed.

(** Another rule may report the same line: an assignment followed by a
    call with a concatenation gets two critical issues. *)
Lemma hardcoded_secret_and_injection :
  code <$> filter (λ x, severity x = Some "critical")
             (_check_security_patterns
                ["token = 'abc'; db.execute(query + token)"] "app.py")
  = [Some "hardcoded_secrets"; Some "sql_injection"].
Proof. vm_compute. reflexivity. Qed.

(** C8, amended: a line that assigns a literal of one or more word
    characters gets exactly one issue of the rule [hardcoded_secrets]; it
    is critical and carries the suggestion of that rule. *)
Theorem hardcoded_secret_reported lines n ln repo_path :
  lines !! n = Some ln →
  word_literal_assignment ln →
  filter (λ x, code x = Some "hardcoded_secrets"
               ∧ line x = Some (Z.of_nat n + 1)%Z)
    (_check_security_patterns lines repo_path)
  = [hardcoded_secret_issue repo_path (Z.of_nat n + 1)].
Proof.
  intros Hn Hln.
  destruct (hardcoded_pattern_search ln Hln)
    as (info & rest & Hsp & Hrest & Hmsg & Hsev & Hsearch).
  unfold _check_security_patterns, check_patterns.
  rewrite Hsp, check_patterns_flat_map. cbn [app flat_map fst snd].
  rewrite filter_app.
  pose proof (filter_check_lines_at repo_path "hardcoded_secrets" info lines
                0%Z n ln Hn Hsearch) as Hfirst.
  rewrite Z.add_0_l in Hfirst. rewrite Hfirst, Hmsg, Hsev.
  rewrite filter_none; [reflexivity|].
  intros x Hx [Hc _].
  apply list_elem_of_In, in_flat_map in Hx as (c & Hc1 & Hc2).
  apply list_elem_of_In in Hc1, Hc2.
  apply check_lines_elem in Hc2 as [Hc2 _].
  rewrite Forall_forall in Hrest. apply (Hrest c Hc1). congruence.
Qed.

Lemma hardcoded_secret_reported_witness :
  filter (λ x, code x = Some "hardcoded_secrets" ∧ line x = Some 2%Z)
    (_check_security_patterns
       ["import os"; "    DB_PASSWORD = 'hunter2'  # todo"] "app.py")
  = [hardcoded_secret_issue "app.py" 2].
Proof.
  apply (hardcoded_secret_reported
           ["import os"; "    DB_PASSWORD = 'hunter2'  # todo"] 1
           "    DB_PASSWORD = 'hunter2'  # todo" "app.py" eq_refl).
  apply (WordLiteralAssignment "    DB_" "password" "PASSWORD" "" " " "="
           " " "'" "hunter2" "'" "  # todo").
  - by left.
  - reflexivity.
  - by left.
  - repeat constructor.
  - reflexivity.
  - repeat constructor.
  - reflexivity.
  - done.
  - repeat constructor.
  - reflexivity.
Defined.

End Secrets.


(** ** The severities of the reviewers

    The issues of the embedded checks respect the data model, so that the
    summary of their results is computed. *)

Section Severities.
Import SecurityReviewer QualityReviewer Spec.

Lemma check_lines_severity repo_path name info lines : ∀ i x,
  x ∈ check_lines repo_path name info i lines [] →
  severity x = Some (check_severity info).
Proof.
  induction lines as [|ln lines IH]; intros i x Hx; cbn [check_lines] in Hx.
  - by apply elem_of_nil in Hx.
  - rewrite check_lines_acc in Hx. apply elem_of_app in Hx as [Hx|Hx].
    + destruct (Re.search (pattern info) ln); [|by apply elem_of_nil in Hx].
      by apply list_elem_of_singleton in Hx as ->.
    + by apply (IH _ _ Hx).
Qed.

Lemma security_patterns_known lines repo_path x :
  x ∈ _check_security_patterns lines repo_path → known_severity x.
Proof.
  unfold _check_security_patterns, check_patterns.
  rewrite check_patterns_flat_map. cbn [app]. intros Hx.
  apply list_elem_of_In, in_flat_map in Hx as (c & Hc & Hx).
  apply list_elem_of_In in Hc, Hx. apply check_lines_severity in Hx.
  unfold known_severity, effective_severity. rewrite Hx. cbn [default].
  assert (Forall (λ c : string * check_info, check_severity c.2 ∈ severities)
            security_patterns) as Hall.
  { unfold security_patterns, severities. repeat constructor. }
  rewrite Forall_forall in Hall. by apply Hall.
Qed.

Lemma medium_known x : severity x = Some "medium" → known_severity x.
Proof.
  intros Hx. unfold known_severity, effective_severity. rewrite Hx.
  unfold severities. cbn [default]. repeat constructor.
Qed.

Lemma file_length_known th content repo_path x :
  x ∈ _check_file_length th content repo_path → known_severity x.
Proof.
  unfold _check_file_length. intros Hx. apply medium_known.
  destruct content; [|by apply elem_of_nil in Hx].
  destruct (_ <? _)%Z; [|by apply elem_of_nil in Hx].
  by apply list_elem_of_singleton in Hx as ->.
Qed.

Lemma functions_known th lines repo_path file_ext x :
  x ∈ _check_functions th lines repo_path file_ext → known_severity x.
Proof.
  unfold _check_functions. intros Hx. apply medium_known.
  destruct (_find_functions _ _); [|by apply elem_of_nil in Hx].
  rewrite fold_check_function in Hx. cbn [app] in Hx.
  apply list_elem_of_In, in_flat_map in Hx as (f & _ & Hx).
  apply list_elem_of_In in Hx. unfold check_function in Hx.
  repeat match type of Hx with
         | context [if ?b then _ else _] => destruct b
         end;
    repeat (apply elem_of_app in Hx as [Hx|Hx]);
    try (by apply elem_of_nil in Hx);
    by apply list_elem_of_singleton in Hx as ->.
Qed.

Lemma duplication_known lines repo_path x :
  x ∈ _check_duplication lines repo_path → known_severity x.
Proof.
  unfold _check_duplication. intros Hx. apply medium_known.
  destruct (_ <? _)%Z; [by apply elem_of_nil in Hx|].
  rewrite fold_report in Hx. cbn [app] in Hx.
  by apply list_elem_of_fmap in Hx as (e & -> & _).
Qed.

End Severities.


(** * Further properties of the code *)

(** ** The summary and the report: errors and invariants *)

Section SummaryErrors.
Import ReviewManager Spec.

Lemma fold_count_issue_none xs : fold_left count_issue xs None = None.
Proof. induction xs as [|x xs IH]; [done|]. exact IH. Qed.

Lemma counts_of_lookup_unknown c h m l i sev :
  sev ∉ severities → counts_of c h m l i !! sev = None.
Proof.
  unfold severities, counts_of. intros Hs.
  repeat (rewrite lookup_insert_ne;
          [|intros <-; apply Hs; repeat constructor]).
  apply lookup_empty.
Qed.

(** A counting loop that meets a severity outside the five values
    fails. *)
Lemma fold_count_issue_unknown xs : ∀ c h m l i,
  Exists (λ x, ¬ known_severity x) xs →
  fold_left count_issue xs (Some (counts_of c h m l i)) = None.
Proof.
  induction xs as [|x xs IH]; intros c h m l i Hex.
  - by apply Exists_nil in Hex.
  - cbn [fold_left]. destruct (decide (known_severity x)) as [Hk|Hk].
    + rewrite (count_issue_counts_of _ _ _ _ _ _ Hk). apply IH.
      apply Exists_cons in Hex as [Hx|Hxs]; [done|exact Hxs].
    + unfold count_issue. cbn [mbind option_bind].
      fold (effective_severity x).
      rewrite (counts_of_lookup_unknown _ _ _ _ _ _ Hk).
      apply fold_count_issue_none.
Qed.

Lemma generate_summary_unknown style sec qual :
  Exists (λ x, ¬ known_severity x) (all_issues style sec qual) →
  _generate_summary style sec qual = None.
Proof.
  intros Hex. unfold _generate_summary. cbv zeta.
  rewrite <- !fold_left_app. fold (all_issues style sec qual).
  by rewrite initial_counts_of, (fold_count_issue_unknown _ _ _ _ _ _ Hex).
Qed.

Lemma generate_summary_some_known style sec qual s :
  _generate_summary style sec qual = Some s →
  Forall known_severity (all_issues style sec qual).
Proof.
  intros Hs.
  destruct (decide (Forall known_severity (all_issues style sec qual)))
    as [Hk|Hk]; [done|].
  apply not_Forall_Exists in Hk; [|apply _].
  apply generate_summary_unknown in Hk. congruence.
Qed.

(** X1.  [_generate_summary] raises [KeyError] exactly when some issue of
    one of the three results has a severity that is not one of critical,
    high, medium, low and info. *)
Theorem generate_summary_fails_iff style sec qual :
  _generate_summary style sec qual = None
  ↔ Exists (λ x, ¬ known_severity x) (all_issues style sec qual).
Proof.
  split; [|apply generate_summary_unknown].
  intros Hnone.
  destruct (decide (Forall known_severity (all_issues style sec qual)))
    as [Hk|Hk].
  - by rewrite (generate_summary_closed _ _ _ Hk) in Hnone.
  - by apply not_Forall_Exists in Hk; [|apply _].
Qed.

(** X2.  In a summary, [total_issues] is the number of issues of the
    three results, the dictionary [issues_by_severity] has exactly the
    five severities as keys, its values are natural numbers and they add
    up to [total_issues]. *)
Theorem summary_counts_add_up style sec qual s :
  _generate_summary style sec qual = Some s →
  total_issues s = Py.len (all_issues style sec qual)
  ∧ dom (issues_by_severity s) = list_to_set severities
  ∧ map_Forall (λ _ n, (0 <= n)%Z) (issues_by_severity s)
  ∧ sum_values (issues_by_severity s) = total_issues s.
Proof.
  intros Hs. pose proof (generate_summary_some_known _ _ _ _ Hs) as Hk.
  rewrite (generate_summary_closed _ _ _ Hk) in Hs. injection Hs as <-.
  cbn [total_issues issues_by_severity].
  split; [done|]. split; [|split].
  - unfold counts_of, severities. rewrite !dom_insert_L, dom_empty_L.
    cbn [list_to_set]. set_solver.
  - unfold counts_of. intros k n Hkn.
    repeat (rewrite lookup_insert in Hkn; case_decide;
            [injection Hkn as <-; apply tally_nonneg|]).
    by rewrite lookup_empty in Hkn.
  - rewrite sum_values_counts_of. by apply tally_total.
Qed.

Lemma summary_counts_add_up_witness :
  ∃ s,
    _generate_summary {| issues := Some [an_issue "low"; an_issue "info"] |}
      {| issues := None |} {| issues := Some [an_issue "high"] |} = Some s
    ∧ total_issues s = 3%Z
    ∧ sum_values (issues_by_severity s) = 3%Z.
Proof.
  assert (is_Some (_generate_summary
            {| issues := Some [an_issue "low"; an_issue "info"] |}
            {| issues := None |} {| issues := Some [an_issue "high"] |}))
    as [s Hs].
  { vm_compute. eexists. reflexivity. }
  exists s. split; [exact Hs|].
  destruct (summary_counts_add_up _ _ _ _ Hs) as (Ht & _ & _ & Hsum).
  rewrite Hsum, Ht. split; reflexivity.
Defined.

(** The entries of a list of issues can be written exactly when each
    issue has a severity. *)
Lemma listing_is_Some l :
  is_Some (listing l) ↔ Forall (λ x, is_Some (severity x)) l.
Proof.
  induction l as [|x l IH]; cbn [listing].
  - split; [constructor|by eexists].
  - rewrite Forall_cons, <- IH. unfold format_issue.
    destruct (severity x) as [sev|]; cbn [mbind option_bind].
    + destruct (listing l); cbn [mbind option_bind].
      * split; [intros _; by split; eexists|by eexists].
      * split; [intros [? [=]]|intros [_ [? [=]]]].
    + split; [intros [? [=]]|intros [[? [=]] _]].
Qed.

Lemma section_listing_is_Some title l :
  is_Some (section_listing title l) ↔ Forall (λ x, is_Some (severity x)) l.
Proof.
  destruct l as [|x l]; [split; [constructor|by eexists]|].
  rewrite <- listing_is_Some. unfold section_listing.
  destruct (listing (x :: l)); cbn [mbind option_bind];
    [by split; eexists|split; intros [? [=]]].
Qed.

(** X3.  The report of a review is rendered exactly when every issue has
    a ['severity'] key: an issue without one is counted as info by the
    summary, but [issue['severity']] raises [KeyError] when the report is
    written. *)
Theorem format_results_needs_severity style_r sec_r qual_r results title :
  _run_reviews style_r sec_r qual_r = Some results →
  (is_Some (_format_results results title)
   ↔ Forall (λ x, is_Some (severity x)) (all_issues style_r sec_r qual_r)).
Proof.
  unfold _run_reviews. intros Hrun.
  destruct (_generate_summary style_r sec_r qual_r) as [s|] eqn:Hs; [|done].
  cbn [mbind option_bind] in Hrun. injection Hrun as <-.
  pose proof (generate_summary_some_known _ _ _ _ Hs) as Hk.
  rewrite (generate_summary_closed _ _ _ Hk) in Hs. injection Hs as <-.
  unfold _format_results. cbv zeta.
  cbn [review_summary issues_by_severity style security quality].
  set (all := all_issues style_r sec_r qual_r).
  destruct (counts_of_lookup (tally "critical" all) (tally "high" all)
    (tally "medium" all) (tally "low" all) (tally "info" all))
    as (-> & -> & -> & -> & ->).
  cbn [mbind option_bind]. rewrite !format_category_listing.
  unfold all, all_issues. rewrite !Forall_app.
  rewrite <- (section_listing_is_Some ("## Style Issues" +:+ nl +:+ nl)).
  rewrite <- (section_listing_is_Some ("## Security Issues" +:+ nl +:+ nl)).
  rewrite <- (section_listing_is_Some
                ("## Code Quality Issues" +:+ nl +:+ nl)).
  destruct (section_listing _ (get_issues style_r)) as [st|];
    [|split; [intros [? [=]]|intros ([? [=]] & _)]].
  destruct (section_listing _ (get_issues sec_r)) as [se|];
    [|split; [intros [? [=]]|intros (_ & [? [=]] & _)]].
  destruct (section_listing _ (get_issues qual_r)) as [qu|];
    [|split; [intros [? [=]]|intros (_ & _ & [? [=]])]].
  cbn [mbind option_bind]. split; [intros _|intros _]; by repeat split; eexists.
Qed.

Lemma format_results_needs_severity_witness :
  let no_severity := Issue "a.py" (Some 3%Z) "note" None None None None in
  ∃ results,
    _run_reviews {| issues := Some [no_severity] |} {| issues := None |}
      {| issues := None |} = Some results
    ∧ _format_results results "Fix" = None.
Proof.
  intros no_severity.
  assert (is_Some (_run_reviews {| issues := Some [no_severity] |}
                     {| issues := None |} {| issues := None |}))
    as [results Hr].
  { vm_compute. eexists. reflexivity. }
  exists results. split; [exact Hr|].
  pose proof (format_results_needs_severity _ _ _ _ "Fix" Hr) as [Hfwd _].
  destruct (_format_results results "Fix"); [|done].
  exfalso. specialize (Hfwd ltac:(by eexists)).
  apply Forall_cons in Hfwd as [[? [=]] _].
Defined.

End SummaryErrors.


(** ** The files that are reviewed *)

Section Files.
Import ReviewManager Notions.

Lemma filter_files_fold excl files : ∀ acc,
  fold_left
    (λ filtered_files f,
       if String.eqb (status f) "removed" then filtered_files
       else if excluded excl (filename f) then filtered_files
       else
         let ext := FileUtils.get_file_extension (filename f) in
         if String.eqb ext ""
            || bool_decide (Py.lower ext ∈ skipped_extensions)
         then filtered_files
         else filtered_files ++ [f])
    files acc
  = acc ++ filter (reviewable excl) files.
Proof.
  induction files as [|f files IH]; intros acc; cbn [fold_left].
  - by rewrite app_nil_r.
  - rewrite IH, filter_cons. cbv zeta.
    destruct (decide (reviewable excl f)) as [(Hs & He & Hx & Hb)|Hr].
    + apply String.eqb_neq in Hs, Hx. rewrite Hs, He, Hx.
      rewrite bool_decide_eq_false_2 by done. cbn [orb].
      by rewrite <- app_assoc.
    + destruct (String.eqb_spec (status f) "removed") as [Hs|Hs]; [done|].
      destruct (excluded excl (filename f)) eqn:He; [done|].
      destruct (String.eqb_spec (FileUtils.get_file_extension (filename f))
                  "") as [Hx|Hx]; [done|]. cbn [orb].
      destruct (bool_decide_reflect
                  (Py.lower (FileUtils.get_file_extension (filename f))
                   ∈ skipped_extensions)) as [Hb|Hb]; [done|].
      by destruct Hr.
Qed.

Lemma filter_files_filter excl files :
  _filter_files_for_review excl files = filter (reviewable excl) files.
Proof. apply (filter_files_fold excl files []). Qed.

(** X4.  The files kept for review are, in their order, the files of the
    pull request that are not removed, whose name contains none of the
    excluded patterns, and whose extension is neither empty nor one of the
    image and document extensions in any letter case; filtering again
    changes nothing. *)
Theorem filter_files_for_review_kept excl files :
  sublist (_filter_files_for_review excl files) files
  ∧ (∀ f, f ∈ _filter_files_for_review excl files ↔
       f ∈ files
       ∧ status f ≠ "removed"
       ∧ (∀ pat, pat ∈ excl → Py.is_substring pat (filename f) = false)
       ∧ FileUtils.get_file_extension (filename f) ≠ ""
       ∧ Py.lower (FileUtils.get_file_extension (filename f))
         ∉ skipped_extensions)
  ∧ _filter_files_for_review excl (_filter_files_for_review excl files)
    = _filter_files_for_review excl files.
Proof.
  rewrite !filter_files_filter. split; [apply sublist_filter|]. split.
  - intros f. rewrite list_elem_of_filter. unfold reviewable, excluded.
    assert (existsb (λ pat, Py.is_substring pat (filename f)) excl = false
            ↔ ∀ pat, pat ∈ excl → Py.is_substring pat (filename f) = false)
      as ->; [|tauto].
    rewrite <- not_true_iff_false, existsb_exists. split.
    + intros Hno pat Hpat. apply not_true_iff_false. intros Hsub.
      apply Hno. exists pat. by rewrite <- list_elem_of_In.
    + intros Hall (pat & Hpat & Hsub). apply list_elem_of_In in Hpat.
      rewrite (Hall pat Hpat) in Hsub. discriminate.
  - induction files as [|f files IH]; [done|].
    rewrite filter_cons. case_decide; [|exact IH].
    rewrite filter_cons, decide_True by done. by rewrite IH.
Qed.

Lemma prefix_spec pat s :
  String.prefix pat s = true ↔ ∃ post, s = pat +:+ post.
Proof.
  revert s. induction pat as [|c pat IH]; intros s.
  - split; [intros _; by exists s|by destruct s].
  - destruct s as [|d s]; cbn [String.prefix].
    { split; [done|intros [post [=]]]. }
    destruct (Ascii.ascii_dec c d) as [<-|Hcd].
    + rewrite IH. split; intros [post Hpost]; exists post.
      * change (String c s = String c (pat +:+ post)). by f_equal.
      * by injection Hpost.
    + split; [done|]. intros [post Hpost]. by injection Hpost.
Qed.

(** [pat in s] holds when [pat] stands somewhere in [s]. *)
Lemma is_substring_spec pat s :
  Py.is_substring pat s = true ↔ ∃ pre post, s = pre +:+ pat +:+ post.
Proof.
  induction s as [|d s IH]; cbn [Py.is_substring].
  - rewrite orb_false_r, prefix_spec. split.
    + intros [post ->]. by exists "", post.
    + intros ([|? ?] & post & Hs); [by exists post|done].
  - rewrite orb_true_iff, prefix_spec, IH. split.
    + intros [[post ->]|(pre & post & ->)];
        [by exists "", post|by exists (String d pre), post].
    + intros ([|c pre] & post & Hs); [left; by exists post|right].
      injection Hs as -> ->. by exists pre, post.
Qed.

Lemma contains_app c a b :
  Py.contains c (a +:+ b) = Py.contains c a || Py.contains c b.
Proof.
  induction a as [|d a IH]; [done|].
  change (Ascii.eqb d c || Py.contains c (a +:+ b)
          = Ascii.eqb d c || Py.contains c a || Py.contains c b).
  by rewrite IH, orb_assoc.
Qed.

(** A pattern excludes a name only if each of its characters is in the
    name. *)
Lemma is_substring_contains c pat s :
  Py.is_substring pat s = true → Py.contains c pat = true →
  Py.contains c s = true.
Proof.
  intros (pre & post & ->)%is_substring_spec Hc.
  rewrite !contains_app, Hc. by rewrite orb_true_r.
Qed.

Lemma excluded_plain_patterns excl name :
  Py.contains "*" name = false →
  excluded excl name = excluded (plain_patterns excl) name.
Proof.
  intros Hname. unfold excluded, plain_patterns.
  induction excl as [|pat excl IH]; [done|].
  rewrite filter_cons. cbn [existsb]. rewrite IH.
  destruct (decide (Py.contains "*" pat = false)) as [Hp|Hp]; [done|].
  apply not_false_is_true in Hp.
  destruct (Py.is_substring pat name) eqn:Hsub; [|done].
  by rewrite (is_substring_contains _ _ _ Hsub Hp) in Hname.
Qed.

(** X5.  An excluded pattern is looked for as a piece of the file name,
    not as a glob: when no file name contains an asterisk, the patterns
    with an asterisk (such as [*.min.js] and [*.lock] of the default
    configuration) exclude nothing. *)
Theorem exclude_patterns_are_substrings excl files :
  (∀ f, f ∈ files → Py.contains "*" (filename f) = false) →
  _filter_files_for_review excl files
  = _filter_files_for_review (plain_patterns excl) files.
Proof.
  intros Hfiles. rewrite !filter_files_filter.
  induction files as [|f files IH]; [done|].
  rewrite !filter_cons, IH by (intros g Hg; apply Hfiles; by right).
  assert (reviewable excl f ↔ reviewable (plain_patterns excl) f) as Hiff.
  { unfold reviewable.
    by rewrite (excluded_plain_patterns excl (filename f))
      by (apply Hfiles; by left). }
  destruct (decide (reviewable excl f)) as [Hr|Hr];
    destruct (decide (reviewable (plain_patterns excl) f)) as [Hr'|Hr'];
    tauto || done.
Qed.

Lemma exclude_patterns_are_substrings_witness :
  let files := [ PrFile "web/app.min.js" "modified" "/tmp/web/app.min.js";
                 PrFile "yarn.lock" "added" "/tmp/yarn.lock";
                 PrFile "node_modules/x/index.js" "added" "/tmp/n.js";
                 PrFile "src/main.py" "modified" "/tmp/src/main.py" ] in
  _filter_files_for_review Config.default_exclude_patterns files
  = _filter_files_for_review
      ["node_modules/"; "venv/"; ".git/"; "__pycache__/"; "package-lock.json"]
      files.
Proof.
  intros files.
  apply (exclude_patterns_are_substrings Config.default_exclude_patterns).
  intros f Hf. unfold files in Hf.
  repeat (apply elem_of_cons in Hf as [->|Hf]; [reflexivity|]).
  by apply elem_of_nil in Hf.
Defined.

End Files.


(** ** The spans of the functions *)

Section Spans.
Import Re QualityReviewer Notions.

Lemma StronglySorted_snoc {A} (R : A → A → Prop) l x :
  StronglySorted R l → Forall (λ y, R y x) l → StronglySorted R (l ++ [x]).
Proof.
  induction 1 as [|y l Hl IH Hy]; intros Hx; cbn [app].
  - repeat constructor.
  - apply Forall_cons in Hx as [Hyx Hx]. constructor; [by apply IH|].
    apply Forall_app. split; [done|]. by constructor.
Qed.

Lemma span_ok_mono patterns lines n m f :
  (n <= m)%Z → span_ok patterns lines n f → span_ok patterns lines m f.
Proof. unfold span_ok. intros Hnm (? & ? & ? & ? & ?). repeat split; [lia..|done]. Qed.

(** Closing the open span keeps the state of the scan in order. *)
Lemma close_ok patterns lines n m st cur :
  scan_ok patterns lines n st →
  current_function st = Some cur →
  (n <= m)%Z →
  scan_ok patterns lines m (close st cur m).
Proof.
  intros (Hall & Hsorted & Hcur) Hc Hnm. rewrite Hc in Hcur.
  destruct Hcur as (Hs & Hstart & Hbefore).
  unfold scan_ok, close. cbn [functions current_function]. split; [|split].
  - apply Forall_app. split.
    + eapply Forall_impl; [exact Hall|]. intros f. by apply span_ok_mono.
    + repeat constructor; cbn [start_line end_line func_length func_name
                                 func_type]; [lia..|done].
  - apply StronglySorted_snoc; [done|].
    eapply Forall_impl; [exact Hbefore|]. by intros f Hf.
  - done.
Qed.

(** One line keeps the state of the scan in order. *)
Lemma scan_line_ok patterns lines n st ln st' :
  scan_ok patterns lines n st →
  lines !! Z.to_nat n = Some ln →
  (0 <= n)%Z →
  scan_line patterns st (n + 1)%Z ln = Some st' →
  scan_ok patterns lines (n + 1)%Z st'.
Proof.
  intros Hok Hln Hn Hstep. unfold scan_line in Hstep.
  destruct (current_function st) as [cur|] eqn:Hc.
  - cbv zeta in Hstep.
    destruct (_ || _); injection Hstep as <-.
    + apply (close_ok _ _ n); [done..|lia].
    + destruct Hok as (Hall & Hsorted & Hcur). rewrite Hc in Hcur.
      destruct Hcur as (Hs & Hstart & Hbefore).
      unfold scan_ok. cbn [functions current_function].
      split; [|split; [done|split; [lia|done]]].
      eapply Forall_impl; [exact Hall|]. intros f.
      apply span_ok_mono. lia.
  - destruct Hok as (Hall & Hsorted & _).
    assert (Forall (span_ok patterns lines (n + 1)) (functions st)) as Hall'.
    { eapply Forall_impl; [exact Hall|]. intros f. apply span_ok_mono. lia. }
    destruct (find_start patterns ln) as [[[nm ty]|]|] eqn:Hfs;
      [|done|]; injection Hstep as <-.
    + unfold scan_ok. cbn [functions current_function fst snd].
      split; [done|]. split; [done|]. split; [lia|]. split.
      * exists ln. split; [|done]. by replace (n + 1 - 1)%Z with n by lia.
      * eapply Forall_impl; [exact Hall|].
        intros f (_ & _ & ? & _). lia.
    + unfold scan_ok. rewrite Hc. done.
Qed.

Lemma scan_lines_ok patterns lines rest : ∀ done st st',
  lines = done ++ rest →
  scan_ok patterns lines (Py.len done) st →
  scan_lines patterns st (Py.len done) rest = Some st' →
  scan_ok patterns lines (Py.len lines) st'.
Proof.
  induction rest as [|ln rest IH]; intros done st st' Hlines Hok Hscan.
  - injection Hscan as <-. rewrite app_nil_r in Hlines. by subst done.
  - cbn [scan_lines] in Hscan.
    destruct (scan_line patterns st (Py.len done + 1) ln) as [st1|] eqn:Hstep;
      [|done].
    cbn [mbind option_bind] in Hscan.
    assert (Py.len (done ++ [ln]) = (Py.len done + 1)%Z) as Hlen.
    { unfold Py.len. rewrite length_app. simpl. lia. }
    apply (IH (done ++ [ln]) st1 st').
    + by rewrite <- app_assoc.
    + rewrite Hlen. eapply scan_line_ok; [done| |unfold Py.len; lia|done].
      unfold Py.len. rewrite Nat2Z.id, Hlines.
      by rewrite lookup_app_r, Nat.sub_diag by lia.
    + by rewrite Hlen.
Qed.

(** X6.  The spans that [_find_functions] returns lie within the file
    ([1 <= start_line <= end_line <= len(lines)]), their [length] is
    [end_line - start_line + 1], each starts at a line that a start
    pattern matches, with the name that the pattern captures, and each
    ends before the next one starts. *)
Theorem find_functions_spans lines patterns spans :
  _find_functions lines patterns = Some spans →
  Forall (span_ok patterns lines (Py.len lines)) spans
  ∧ StronglySorted span_before spans.
Proof.
  unfold _find_functions. intros Hfind.
  destruct (scan_lines patterns _ 0 lines) as [st|] eqn:Hscan; [|done].
  cbn [mbind option_bind] in Hfind.
  assert (scan_ok patterns lines (Py.len lines) st) as Hok.
  { apply (scan_lines_ok patterns lines lines []
             {| functions := []; current_function := None; brace_count := 0 |}
             st); [done| |done].
    unfold scan_ok. cbn [functions current_function].
    repeat split; constructor. }
  destruct (current_function st) as [cur|] eqn:Hc; injection Hfind as <-.
  - destruct (close_ok _ _ _ (Py.len lines) _ _ Hok Hc ltac:(lia))
      as (? & ? & _). done.
  - by destruct Hok as (? & ? & _).
Qed.

Lemma find_functions_spans_witness :
  let lines := ["import os"; "def f(a):"; "    return a"; "";
                "class C:"; "    x = 1"] in
  let patterns := _get_function_patterns ".py" in
  ∃ spans,
    _find_functions lines patterns = Some spans
    ∧ Forall (span_ok patterns lines 6) spans
    ∧ StronglySorted span_before spans.
Proof.
  intros lines patterns.
  assert (is_Some (_find_functions lines patterns)) as [spans Hs].
  { vm_compute. eexists. reflexivity. }
  exists spans. split; [exact Hs|].
  exact (find_functions_spans _ _ _ Hs).
Defined.

(** *** The name of a span *)

Lemma dedup_subset (y : state) l : ∀ seen, y ∈ dedup seen l → y ∈ l.
Proof.
  induction l as [|x l IH]; intros seen Hy; cbn [dedup] in Hy; [done|].
  destruct (existsb (state_eqb x) seen).
  - right. by apply (IH seen).
  - apply elem_of_cons in Hy as [->|Hy]; [by left|right].
    by apply (IH (x :: seen)).
Qed.

Lemma star_iter_invariant (P : state → Prop) step fuel : ∀ x y,
  (∀ a b, b ∈ step a → P a → P b) →
  P x → y ∈ star_iter step fuel x → P y.
Proof.
  induction fuel as [|fuel IH]; intros x y Hstep Hx Hy; cbn [star_iter] in Hy.
  - by apply list_elem_of_singleton in Hy as ->.
  - apply elem_of_app in Hy as [Hy|Hy];
      [|by apply list_elem_of_singleton in Hy as ->].
    apply list_elem_of_In, in_flat_map in Hy as (z & Hz & Hy).
    apply list_elem_of_In in Hz, Hy.
    destruct (x.1 <? z.1); [|by apply elem_of_nil in Hy].
    apply (IH z y Hstep); [by apply (Hstep x)|done].
Qed.

(** A match keeps the span of a group that is closed. *)
Lemma run_keeps_group r s : ∀ x y,
  y ∈ run r s x → is_Some x.2 → is_Some y.2.
Proof.
  induction r as [|p|r1 IH1 r2 IH2|r1 IH1 r2 IH2|r IH|r IH| | |];
    intros x y Hy Hx; cbn [run] in Hy.
  - by apply list_elem_of_singleton in Hy as ->.
  - destruct (s !! x.1) as [c|]; [|by apply elem_of_nil in Hy].
    destruct (p c); [|by apply elem_of_nil in Hy].
    by apply list_elem_of_singleton in Hy as ->.
  - apply dedup_subset, list_elem_of_In, in_flat_map in Hy as (z & Hz & Hy).
    apply list_elem_of_In in Hz, Hy. eauto.
  - apply dedup_subset, elem_of_app in Hy as [Hy|Hy]; eauto.
  - apply dedup_subset in Hy.
    by apply (star_iter_invariant (λ z : state, is_Some z.2) (run r s)
                (S (length s)) x y IH).
  - apply list_elem_of_fmap in Hy as (z & -> & _). by eexists.
  - destruct (x.1 =? 0); [|by apply elem_of_nil in Hy].
    by apply list_elem_of_singleton in Hy as ->.
  - destruct (at_end s x.1); [|by apply elem_of_nil in Hy].
    by apply list_elem_of_singleton in Hy as ->.
  - destruct (boundary s x.1); [|by apply elem_of_nil in Hy].
    by apply list_elem_of_singleton in Hy as ->.
Qed.

Lemma run_sets_group r s : ∀ x y,
  sets_group r = true → y ∈ run r s x → is_Some y.2.
Proof.
  induction r as [|p|r1 IH1 r2 IH2|r1 IH1 r2 IH2|r IH|r IH| | |];
    intros x y Hr Hy; cbn [sets_group] in Hr; try done; cbn [run] in Hy.
  - apply dedup_subset, list_elem_of_In, in_flat_map in Hy as (z & Hz & Hy).
    apply list_elem_of_In in Hz, Hy.
    apply orb_true_iff in Hr as [Hr|Hr]; [|by eapply IH2].
    eapply run_keeps_group; [done|]. by eapply IH1.
  - apply andb_true_iff in Hr as [Hr1 Hr2].
    apply dedup_subset, elem_of_app in Hy as [Hy|Hy]; eauto.
  - apply list_elem_of_fmap in Hy as (z & -> & _). by eexists.
Qed.

Lemma match_sets_group r ln g :
  sets_group r = true → match_ r ln = Some g → is_Some g.
Proof.
  unfold match_, match_at. intros Hr Hm.
  destruct (run r (Py.chars ln) (0, None)) as [|y l] eqn:Hrun; [done|].
  cbn [head mbind option_bind] in Hm. injection Hm as <-.
  assert (is_Some y.2) as [span Hspan].
  { apply (run_sets_group r (Py.chars ln) (0, None) y Hr).
    rewrite Hrun. by left. }
  rewrite Hspan. by eexists.
Qed.

Lemma find_start_named patterns ln :
  Forall (λ kv : string * regex, kv.1 = "end" ∨ sets_group kv.2 = true)
    patterns →
  find_start patterns ln ≠ Some None.
Proof.
  induction 1 as [|[ty pat] patterns Hpat _ IH]; [done|].
  cbn [find_start]. cbn [fst snd] in Hpat.
  destruct (String.eqb_spec ty "end") as [->|Hty]; [done|].
  destruct Hpat as [?|Hpat]; [done|].
  destruct (match_ pat ln) as [g|] eqn:Hm; [|done].
  by destruct (match_sets_group _ _ _ Hpat Hm) as [nm ->].
Qed.

Lemma scan_lines_named patterns lines : ∀ st i,
  Forall (λ kv : string * regex, kv.1 = "end" ∨ sets_group kv.2 = true)
    patterns →
  is_Some (scan_lines patterns st i lines).
Proof.
  induction lines as [|ln lines IH]; intros st i Hpat; cbn [scan_lines];
    [by eexists|].
  assert (is_Some (scan_line patterns st (i + 1) ln)) as [st' ->].
  { unfold scan_line. destruct (current_function st).
    - cbv zeta. destruct (_ || _); by eexists.
    - pose proof (find_start_named patterns ln Hpat).
      destruct (find_start patterns ln) as [[[nm ty]|]|];
        [by eexists|done|by eexists]. }
  cbn [mbind option_bind]. by apply IH.
Qed.

Lemma function_patterns_named file_ext :
  Forall (λ kv : string * regex, kv.1 = "end" ∨ sets_group kv.2 = true)
    (_get_function_patterns file_ext).
Proof.
  unfold _get_function_patterns. cbv zeta.
  repeat match goal with
         | |- context [String.eqb ?a ?b] => destruct (String.eqb a b)
         end;
    repeat (constructor; [first [by left | by right]|]); constructor.
Qed.

(** X7.  With the patterns of any file type, every start pattern
    captures a name, so [_find_functions] does not raise, and
    [_check_functions] reports for each span, in the order of the spans,
    its length issue and its complexity issue. *)
Theorem check_functions_all_spans th lines repo_path file_ext :
  ∃ spans,
    _find_functions lines (_get_function_patterns file_ext) = Some spans
    ∧ _check_functions th lines repo_path file_ext
      = flat_map (λ f, check_function th lines repo_path [] f) spans.
Proof.
  destruct (scan_lines_named (_get_function_patterns file_ext) lines
              {| functions := []; current_function := None; brace_count := 0 |}
              0 (function_patterns_named file_ext)) as [st Hst].
  unfold _check_functions, _find_functions. rewrite Hst.
  cbn [mbind option_bind].
  destruct (current_function st); eexists; (split; [reflexivity|]);
    by rewrite fold_check_function.
Qed.

End Spans.

(** ** The issues of the pattern scanner *)

Section Scanner.
Import Re SecurityReviewer.

(** A line that the pattern of a rule does not match gets no issue of
    that rule. *)
Lemma filter_check_lines_miss repo_path name info lines : ∀ i n,
  match lines !! n with
  | Some ln => search (pattern info) ln = false
  | None => True
  end →
  filter (λ x, code x = Some name ∧ line x = Some (i + Z.of_nat n + 1)%Z)
    (check_lines repo_path name info i lines [])
  = [].
Proof.
  induction lines as [|l0 lines IH]; intros i n Hn; [done|].
  cbn [check_lines]. rewrite check_lines_acc, filter_app.
  destruct n as [|n]; cbn [lookup list_lookup] in Hn.
  - rewrite Hn. cbn [app]. apply filter_none.
    intros x Hx [_ Hl]. apply check_lines_elem in Hx as (_ & k & Hk & Hlt).
    rewrite Hk in Hl. injection Hl as ->. lia.
  - rewrite (filter_none _ (if search _ _ then _ else _)).
    + cbn [app].
      replace (i + Z.of_nat (S n) + 1)%Z with (i + 1 + Z.of_nat n + 1)%Z by lia.
      by apply IH.
    + intros x Hx [_ Hl].
      destruct (search (pattern info) l0); [|by apply elem_of_nil in Hx].
      apply list_elem_of_singleton in Hx as ->. simpl in Hl.
      injection Hl as Hl. lia.
Qed.

(** The issues of a rule lie within the file. *)
Lemma check_lines_bound repo_path name info lines : ∀ i x,
  x ∈ check_lines repo_path name info i lines [] →
  ∃ k, line x = Some k ∧ (i < k <= i + Py.len lines)%Z.
Proof.
  induction lines as [|ln lines IH]; intros i x Hx; cbn [check_lines] in Hx.
  - by apply elem_of_nil in Hx.
  - assert (Py.len (ln :: lines) = (1 + Py.len lines)%Z) as ->
      by (unfold Py.len; simpl; lia).
    rewrite check_lines_acc in Hx. apply elem_of_app in Hx as [Hx|Hx].
    + destruct (search (pattern info) ln); [|by apply elem_of_nil in Hx].
      apply list_elem_of_singleton in Hx as ->. simpl.
      eexists. split; [done|]. unfold Py.len. lia.
    + destruct (IH _ _ Hx) as (k & Hk & Hlt). exists k. split; [done|lia].
Qed.

Lemma filter_rule_issues repo_path lines name info n patterns :
  NoDup patterns.*1 →
  (name, info) ∈ patterns →
  filter (λ x, code x = Some name ∧ line x = Some (Z.of_nat n + 1)%Z)
    (flat_map (λ check, check_lines repo_path check.1 check.2 0%Z lines [])
       patterns)
  = filter (λ x, code x = Some name ∧ line x = Some (Z.of_nat n + 1)%Z)
      (check_lines repo_path name info 0%Z lines []).
Proof.
  induction patterns as [|[k inf] patterns IH]; intros Hnd Hin.
  - by apply elem_of_nil in Hin.
  - rewrite fmap_cons in Hnd. cbn [fst] in Hnd.
    apply NoDup_cons in Hnd as [Hk Hnd].
    cbn [flat_map fst snd]. rewrite filter_app.
    apply elem_of_cons in Hin as [[= <- <-]|Hin].
    + rewrite (filter_none _ (flat_map _ _)); [by rewrite app_nil_r|].
      intros x Hx [Hc _].
      apply list_elem_of_In, in_flat_map in Hx as ([k' inf'] & Hk' & Hx).
      apply list_elem_of_In in Hk', Hx.
      apply check_lines_elem in Hx as [Hx _]. cbn [fst] in Hx.
      apply Hk. apply list_elem_of_fmap. exists (k', inf').
      split; [|done]. cbn [fst]. congruence.
    + rewrite (filter_none _ (check_lines _ k _ _ _ _)); [by apply IH|].
      intros x Hx [Hc _]. apply check_lines_elem in Hx as [Hx _].
      apply Hk. apply list_elem_of_fmap. exists (name, info).
      split; [|done]. cbn [fst]. congruence.
Qed.

Lemma security_patterns_NoDup : NoDup security_patterns.*1.
Proof.
  vm_compute.
  repeat (constructor;
          [intros H; repeat (apply elem_of_cons in H as [[=]|H]);
           by apply elem_of_nil in H|]).
  constructor.
Qed.

(** X8.  For every rule of the table and every line of the file, the
    pattern scanner returns exactly one issue of that rule at that line
    when the pattern of the rule matches somewhere in the line, and none
    otherwise; the issue has the message and the severity of the rule and
    the suggestion of [_get_suggestion].  Every issue lies within the
    file. *)
Theorem security_patterns_issue_per_rule_and_line
    lines repo_path name info n :
  (name, info) ∈ security_patterns →
  filter (λ x, code x = Some name ∧ line x = Some (Z.of_nat n + 1)%Z)
    (_check_security_patterns lines repo_path)
  = match lines !! n with
    | Some ln =>
        if search (pattern info) ln
        then [ {| file := repo_path;
                  line := Some (Z.of_nat n + 1)%Z;
                  message := check_message info;
                  severity := Some (check_severity info);
                  type_ := Some "security";
                  code := Some name;
                  suggestion := Some (_get_suggestion name) |} ]
        else []
    | None => []
    end
  ∧ Forall (λ x, ∃ k, line x = Some k ∧ (1 <= k <= Py.len lines)%Z)
      (_check_security_patterns lines repo_path).
Proof.
  intros Hin. unfold _check_security_patterns, check_patterns.
  rewrite check_patterns_flat_map. cbn [app]. split.
  - rewrite (filter_rule_issues _ _ name info n _ security_patterns_NoDup Hin).
    destruct (lines !! n) as [ln|] eqn:Hn.
    + destruct (search (pattern info) ln) eqn:Hs.
      * pose proof (filter_check_lines_at repo_path name info lines 0 n ln
                      Hn Hs) as H. by rewrite Z.add_0_l in H.
      * pose proof (filter_check_lines_miss repo_path name info lines 0 n)
          as H. rewrite Hn, Z.add_0_l in H. by apply H.
    + pose proof (filter_check_lines_miss repo_path name info lines 0 n)
        as H. rewrite Hn, Z.add_0_l in H. by apply H.
  - apply Forall_forall. intros x Hx.
    apply list_elem_of_In, in_flat_map in Hx as (c & _ & Hx).
    apply list_elem_of_In, check_lines_bound in Hx as (k & Hk & Hb).
    exists k. split; [done|lia].
Qed.

Lemma security_patterns_issue_per_rule_and_line_witness :
  ∃ info,
    (("insecure_random", info) ∈ security_patterns)
    ∧ filter (λ x, code x = Some "insecure_random" ∧ line x = Some 2%Z)
        (_check_security_patterns
           ["import random"; "x = random.random()"; "print(x)"] "a.py")
      = [ {| file := "a.py"; line := Some 2%Z;
             message := "Use of insecure random number generator";
             severity := Some "medium"; type_ := Some "security";
             code := Some "insecure_random";
             suggestion :=
               Some "Use a cryptographically secure random number generator" |} ].
Proof.
  eexists. split.
  - unfold security_patterns. do 4 right. left.
  - match goal with
    | |- context [_check_security_patterns ?l ?r] =>
        destruct (security_patterns_issue_per_rule_and_line l r
                    "insecure_random" _ 1
                    ltac:(unfold security_patterns; do 4 right; left))
          as [H _]
    end.
    exact H.
Defined.

End Scanner.

(** ** The groups of repeated windows and the complexity of spans *)

Section Groups.
Import QualityReviewer Spec.

(** The line numbers of a group increase. *)
Lemma line_numbers_sorted lines b n : ∀ a,
  StronglySorted Z.lt (line_numbers_of lines b (seq a n))
  ∧ Forall (λ k, (Z.of_nat a < k)%Z) (line_numbers_of lines b (seq a n)).
Proof.
  unfold line_numbers_of.
  induction n as [|n IH]; intros a; cbn [seq].
  - rewrite filter_nil. split; constructor.
  - destruct (IH (S a)) as [Hs Hb]. rewrite filter_cons.
    assert (Forall (λ k, (Z.of_nat a < k)%Z)
              ((λ i, (Z.of_nat i + 1)%Z)
               <$> filter (kept_with lines b) (seq (S a) n))) as Hb'.
    { eapply Forall_impl; [exact Hb|]. intros z Hz. cbn beta in *. lia. }
    destruct (decide (kept_with lines b a)); [|done].
    rewrite fmap_cons. split.
    + constructor; [done|].
      eapply Forall_impl; [exact Hb|]. intros z Hz. cbn beta in *. lia.
    + constructor; [cbn beta; lia|done].
Qed.

Lemma line_numbers_kept lines b positions k :
  k ∈ line_numbers_of lines b positions →
  ∃ i, k = (Z.of_nat i + 1)%Z ∧ block_at lines i = b.
Proof.
  unfold line_numbers_of. intros Hk.
  apply list_elem_of_fmap in Hk as (i & -> & Hi).
  apply list_elem_of_filter in Hi as [[_ Hb] _]. by exists i.
Qed.

(** X9.  For a file of ten lines or more the duplication check reports
    exactly one issue for each text that two or more kept windows hold,
    and nothing else: the issues are those of a list of groups in which
    no text comes twice, a text has a group exactly when two or more kept
    windows hold it, and no issue comes twice.  The issue of a group
    lists, in increasing order, the first lines of all the kept windows
    with its text, and is anchored at the first of them. *)
Theorem check_duplication_groups lines repo_path :
  (10 <= Py.len lines)%Z →
  ∃ groups : list (string * list Z),
    _check_duplication lines repo_path
    = (λ g, duplication_issue repo_path g.2) <$> groups
    ∧ NoDup groups.*1
    ∧ (∀ b ns, (b, ns) ∈ groups ↔
         ns = line_numbers_of lines b (seq 0 (length lines - 5 + 1))
         ∧ 1 < length ns)
    ∧ (∀ b ns, (b, ns) ∈ groups →
         StronglySorted Z.lt ns
         ∧ line (duplication_issue repo_path ns) = head ns)
    ∧ NoDup (_check_duplication lines repo_path).
Proof.
  intros Hlen. unfold _check_duplication.
  destruct (Z.ltb_spec (Py.len lines) 10) as [|_]; [lia|].
  destruct (collect_blocks_lookup lines) as [Hnd Hlookup].
  rewrite fold_report. cbn [app].
  set (groups := filter (λ e : string * list Z, 1 < length e.2)
                   (collect_blocks lines)).
  assert (∀ b ns, (b, ns) ∈ groups ↔
            ns = line_numbers_of lines b (seq 0 (length lines - 5 + 1))
            ∧ 1 < length ns) as Hgroups.
  { intros b ns. unfold groups. rewrite list_elem_of_filter. cbn [snd].
    rewrite (lookup_block_elem_of _ _ _ Hnd), Hlookup. split.
    - intros [Hl Hin]. split; [|done].
      destruct (line_numbers_of lines b _); cbn [nonempty] in Hin; congruence.
    - intros [-> Hl]. split; [done|].
      destruct (line_numbers_of lines b _); [simpl in Hl; lia|done]. }
  assert (NoDup groups.*1) as Hkeys.
  { eapply sublist_NoDup; [exact Hnd|].
    apply fmap_sublist, sublist_filter. }
  exists groups. split; [done|]. split; [done|]. split; [done|]. split.
  - intros b ns Hin. apply Hgroups in Hin as [-> _].
    split; [apply line_numbers_sorted|done].
  - apply NoDup_fmap_2_strong; [|by apply NoDup_fmap_1 in Hkeys].
    intros [b ns] [b' ns'] Hin Hin' Heq. cbn [snd] in Heq.
    apply Hgroups in Hin as [Hns Hl], Hin' as [Hns' Hl'].
    assert (head ns = head ns') as Hhead.
    { by apply (f_equal line) in Heq. }
    destruct ns as [|k ns0]; [simpl in Hl; lia|].
    destruct ns' as [|k' ns0']; [simpl in Hl'; lia|].
    injection Hhead as <-.
    assert (k ∈ line_numbers_of lines b (seq 0 (length lines - 5 + 1)))
      as Hk by (rewrite <- Hns; by left).
    assert (k ∈ line_numbers_of lines b' (seq 0 (length lines - 5 + 1)))
      as Hk' by (rewrite <- Hns'; by left).
    apply line_numbers_kept in Hk as (i & Hi & <-).
    apply line_numbers_kept in Hk' as (i' & Hi' & <-).
    assert (i = i') as <- by lia. by rewrite Hns, Hns'.
Qed.

(** A file of fourteen lines in which five lines come twice, at the
    lines 3 and 9. *)
Lemma check_duplication_groups_witness :
  let window := ["total = 0"; "for item in items:";
                 "    total += item.price"; "log(total)"; "return total"] in
  let lines := ["one"; "two"] ++ window ++ ["three"] ++ window ++ ["four"] in
  ∃ groups : list (string * list Z),
    _check_duplication lines "m.py"
    = (λ g, duplication_issue "m.py" g.2) <$> groups
    ∧ NoDup groups.*1
    ∧ (Py.join Py.newline window, [3; 9]%Z) ∈ groups
    ∧ NoDup (_check_duplication lines "m.py").
Proof.
  intros window lines.
  destruct (check_duplication_groups lines "m.py")
    as (groups & Heq & Hnd & Hiff & _ & Hnd').
  - vm_compute. discriminate.
  - exists groups. split; [exact Heq|]. split; [exact Hnd|].
    split; [|exact Hnd'].
    apply Hiff. split; [vm_compute; reflexivity|simpl; lia].
Defined.

Lemma matching_pairs_app a b :
  matching_pairs (a ++ b) = (matching_pairs a + matching_pairs b)%Z.
Proof.
  unfold matching_pairs. induction a as [|ln a IH]; cbn [app foldr]; lia.
Qed.

Lemma matching_patterns_bound ln : (0 <= matching_patterns ln <= 12)%Z.
Proof.
  unfold matching_patterns.
  pose proof (length_filter (λ pat, Re.search pat ln = true)
                control_flow_patterns) as H.
  change (length control_flow_patterns) with 12 in H. lia.
Qed.

(** X10.  The estimated complexity of a span is at least 1 and at most
    1 plus twelve per line; the estimate of two spans put together is the
    sum of their estimates less 1; and the estimate never exceeds 1 plus
    the number of keyword occurrences. *)
Theorem estimate_complexity_bounds a b :
  (1 <= _estimate_complexity a <= 1 + 12 * Py.len a)%Z
  ∧ _estimate_complexity (a ++ b)
    = (_estimate_complexity a + _estimate_complexity b - 1)%Z
  ∧ (_estimate_complexity a <= complexity_of a)%Z.
Proof.
  rewrite !estimate_complexity_pairs, matching_pairs_app.
  split; [|split; [lia|]].
  - unfold Py.len, matching_pairs.
    induction a as [|ln a IH]; cbn [foldr length]; [lia|].
    pose proof (matching_patterns_bound ln). lia.
  - rewrite <- estimate_complexity_pairs. apply estimate_complexity_le.
Qed.

End Groups.

(** ** The configuration *)

Section Configuration.
Import Config.
Context {A : Type}.
Implicit Types (base override d : list (string * value A)) (v w : value A).

Lemma merge_configs_nil base : _merge_configs base [] = base.
Proof. reflexivity. Qed.

(** One round of the loop of [_merge_configs] over
    [override_config.items()]. *)
Lemma merge_configs_cons base key v override :
  _merge_configs base ((key, v) :: override)
  = _merge_configs
      (set_item base key
         match get_item key base with
         | Some w => merge_value v w
         | None => v
         end)
      override.
Proof. reflexivity. Qed.

Lemma get_set_item d key v key' :
  get_item key' (set_item d key v)
  = if decide (key' = key) then Some v else get_item key' d.
Proof.
  induction d as [|[k w] d IH]; cbn [set_item get_item].
  - destruct (String.eqb_spec key key'); case_decide; congruence.
  - destruct (String.eqb_spec k key) as [->|Hk]; cbn [get_item].
    + destruct (String.eqb_spec key key'); case_decide; congruence.
    + rewrite IH. destruct (String.eqb_spec k key'); case_decide; congruence.
Qed.

Lemma get_item_None d key : key ∉ d.*1 → get_item key d = None.
Proof.
  induction d as [|[k w] d IH]; [done|]. rewrite fmap_cons.
  cbn [get_item fst]. intros Hk.
  destruct (String.eqb_spec k key) as [->|_]; [exfalso; apply Hk; by left|].
  apply IH. intros Hin. apply Hk. by right.
Qed.

Lemma keys_set_item d key v :
  (set_item d key v).*1
  = if decide (key ∈ d.*1) then d.*1 else d.*1 ++ [key].
Proof.
  induction d as [|[k w] d IH]; cbn [set_item].
  - rewrite decide_False; [done|]. apply not_elem_of_nil.
  - rewrite !fmap_cons. cbn [fst].
    destruct (String.eqb_spec k key) as [->|Hk].
    + rewrite decide_True; [done|]. by left.
    + rewrite fmap_cons, IH. cbn [fst].
      destruct (decide (key ∈ d.*1)) as [Hin|Hin].
      * rewrite decide_True; [done|]. by right.
      * rewrite decide_False; [done|].
        rewrite elem_of_cons. intros [?|?]; congruence.
Qed.

Lemma merge_configs_get base override key :
  NoDup override.*1 →
  get_item key (_merge_configs base override)
  = match get_item key override with
    | Some v =>
        Some match get_item key base with
             | Some w => merge_value v w
             | None => v
             end
    | None => get_item key base
    end.
Proof.
  revert base. induction override as [|[k v] override IH]; intros base Hnd.
  - done.
  - rewrite fmap_cons in Hnd. cbn [fst] in Hnd.
    apply NoDup_cons in Hnd as [Hk Hnd].
    rewrite merge_configs_cons, (IH _ Hnd), get_set_item. cbn [get_item].
    destruct (String.eqb_spec k key) as [->|Hne].
    + rewrite (get_item_None _ _ Hk). by rewrite decide_True.
    + by rewrite decide_False by congruence.
Qed.

(** X11.  After [_merge_configs], a key of the override holds the value
    of the override, merged with the value of the base when both are
    dictionaries, and every other key holds what it held in the base. *)
Theorem merge_configs_lookup base override key :
  NoDup override.*1 →
  get_item key (_merge_configs base override)
  = match get_item key override with
    | Some v =>
        Some match get_item key base with
             | Some w => merge_value v w
             | None => v
             end
    | None => get_item key base
    end.
Proof. apply merge_configs_get. Qed.

Lemma NoDup_set_item d key v : NoDup d.*1 → NoDup (set_item d key v).*1.
Proof.
  intros Hnd. rewrite keys_set_item. case_decide as Hin; [done|].
  apply NoDup_app. split; [done|]. split; [|apply NoDup_singleton].
  intros k Hk Hk'. apply list_elem_of_singleton in Hk'. congruence.
Qed.

Lemma filter_not_elem_snoc (base : list string) k (l : list string) :
  k ∉ l → filter (λ x, x ∉ base ++ [k]) l = filter (λ x, x ∉ base) l.
Proof.
  induction l as [|y l IH]; intros Hk; [done|].
  apply not_elem_of_cons in Hk as [Hky Hk].
  rewrite !filter_cons, (IH Hk).
  destruct (decide (y ∉ base)) as [Hy|Hy].
  - rewrite decide_True; [done|].
    rewrite not_elem_of_app, list_elem_of_singleton. split; congruence.
  - rewrite decide_False; [done|].
    rewrite not_elem_of_app. tauto.
Qed.

(** X12.  [_merge_configs] keeps the keys of the base in their order and
    adds after them, in the order of the override, exactly the keys of
    the override that the base does not have; no key comes twice. *)
Theorem merge_configs_keeps_keys base override :
  NoDup override.*1 →
  (_merge_configs base override).*1
  = base.*1 ++ filter (λ k, k ∉ base.*1) override.*1
  ∧ (NoDup base.*1 → NoDup (_merge_configs base override).*1).
Proof.
  revert base. induction override as [|[k v] override IH]; intros base Hnd.
  - rewrite merge_configs_nil, fmap_nil, filter_nil, app_nil_r. by split.
  - rewrite fmap_cons in Hnd. cbn [fst] in Hnd.
    apply NoDup_cons in Hnd as [Hk Hnd].
    rewrite merge_configs_cons.
    set (m := match get_item k base with
              | Some w => merge_value v w
              | None => v
              end).
    destruct (IH (set_item base k m) Hnd) as [Hkeys Hnd'].
    rewrite Hkeys, fmap_cons, filter_cons. cbn [fst].
    split.
    + rewrite keys_set_item.
      destruct (decide (k ∈ base.*1)) as [Hin|Hin].
      * by rewrite decide_False by tauto.
      * rewrite decide_True by done.
        by rewrite filter_not_elem_snoc, <- app_assoc.
    + intros Hb. rewrite <- Hkeys. by apply Hnd', NoDup_set_item.
Qed.

Lemma get_item_Some_key d key (v : value A) :
  get_item key d = Some v → key ∈ d.*1.
Proof.
  intros Hget. destruct (decide (key ∈ d.*1)) as [|Hno]; [done|].
  by rewrite (get_item_None _ _ Hno) in Hget.
Qed.

(** One round of the loop, seen from the defaults. *)
Lemma merge_shared_cons defaults key v override :
  merge_shared defaults ((key, v) :: override)
  = merge_shared
      match get_item key defaults, v with
      | Some (Dict b), Dict _ => set_item defaults key (merge_value v (Dict b))
      | _, _ => defaults
      end
      override.
Proof. reflexivity. Qed.

Lemma merge_shared_keys defaults override :
  (merge_shared defaults override).*1 = defaults.*1.
Proof.
  revert defaults. induction override as [|[k v] override IH];
    intros defaults; [done|].
  rewrite merge_shared_cons, IH.
  destruct (get_item k defaults) as [[a|b]|] eqn:Hget; [done| |done].
  destruct v as [a|o]; [done|].
  rewrite keys_set_item, decide_True; [done|].
  by apply get_item_Some_key in Hget.
Qed.

(** The value that the defaults hold under a key after the loop. *)
Lemma merge_shared_lookup defaults override key :
  NoDup override.*1 →
  get_item key (merge_shared defaults override)
  = match get_item key defaults, get_item key override with
    | Some (Dict b), Some (Dict o) => Some (merge_value (Dict o) (Dict b))
    | w, _ => w
    end.
Proof.
  revert defaults. induction override as [|[k v] override IH];
    intros defaults Hnd.
  - change (merge_shared defaults []) with defaults. cbn [get_item].
    by destruct (get_item key defaults) as [[?|?]|].
  - rewrite fmap_cons in Hnd. cbn [fst] in Hnd.
    apply NoDup_cons in Hnd as [Hk Hnd].
    rewrite merge_shared_cons, (IH _ Hnd). cbn [get_item].
    destruct (String.eqb_spec k key) as [->|Hne].
    + rewrite (get_item_None _ _ Hk).
      destruct (get_item key defaults) as [[a|b]|] eqn:Hget;
        rewrite ?Hget; [done| |done].
      destruct v as [a|o]; rewrite ?Hget; [done|].
      by rewrite get_set_item, decide_True.
    + assert (get_item key
                match get_item k defaults, v with
                | Some (Dict b), Dict _ =>
                    set_item defaults k (merge_value v (Dict b))
                | _, _ => defaults
                end
              = get_item key defaults) as ->; [|done].
      destruct (get_item k defaults) as [[a|b]|]; [done| |done].
      destruct v as [a|o]; [done|].
      rewrite get_set_item, decide_False; [done|congruence].
Qed.

End Configuration.

(** The test [test_merge_configs] of the repository. *)
Lemma merge_configs_lookup_witness :
  let base := [ ("a", Config.Atom 1%Z);
                ("b", Config.Dict [ ("c", Config.Atom 2%Z);
                                    ("d", Config.Atom 3%Z) ]) ] in
  let override := [ ("b", Config.Dict [("c", Config.Atom 4%Z)]);
                    ("e", Config.Atom 5%Z) ] in
  Config.get_item "a" (Config._merge_configs base override)
  = Some (Config.Atom 1%Z)
  ∧ Config.get_item "b" (Config._merge_configs base override)
    = Some (Config.Dict [("c", Config.Atom 4%Z); ("d", Config.Atom 3%Z)])
  ∧ Config.get_item "e" (Config._merge_configs base override)
    = Some (Config.Atom 5%Z).
Proof.
  intros base override.
  assert (NoDup override.*1) as Hnd.
  { repeat (constructor;
            [intros H; repeat (apply elem_of_cons in H as [[=]|H]);
             by apply elem_of_nil in H|]). constructor. }
  rewrite !(merge_configs_lookup _ _ _ Hnd). repeat split.
Defined.

(** The keys of the same dictionaries after the merge. *)
Lemma merge_configs_keeps_keys_witness :
  let base := [ ("a", Config.Atom 1%Z);
                ("b", Config.Dict [ ("c", Config.Atom 2%Z);
                                    ("d", Config.Atom 3%Z) ]) ] in
  let override := [ ("b", Config.Dict [("c", Config.Atom 4%Z)]);
                    ("e", Config.Atom 5%Z) ] in
  (Config._merge_configs base override).*1 = ["a"; "b"; "e"].
Proof.
  intros base override.
  assert (NoDup override.*1) as Hnd.
  { repeat (constructor;
            [intros H; repeat (apply elem_of_cons in H as [[=]|H]);
             by apply elem_of_nil in H|]). constructor. }
  rewrite (proj1 (merge_configs_keeps_keys base override Hnd)).
  reflexivity.
Defined.

(** X13.  The loader merges the file into a shallow copy of its
    defaults, so a section of the defaults that the file gives as an
    object is changed in the loader itself.  After a file has been
    loaded, a load on the same loader that finds no file, or a file that
    is not a JSON object, returns the keys of the defaults with, under
    each such section, the section as merged with the file, and not the
    initial default; under every other key it returns the value of the
    defaults.  The first result holds the same merged sections. *)
Theorem load_config_shares_sections override defaults file :
  NoDup override.*1 →
  match file with Some (Config.Dict _) => False | _ => True end →
  let first := Config.load_config (Some (Config.Dict override)) defaults in
  let later := Config.load_config file first.2 in
  later.1.*1 = defaults.*1
  ∧ (∀ key,
       Config.get_item key later.1
       = match Config.get_item key defaults, Config.get_item key override with
         | Some (Config.Dict b), Some (Config.Dict o) =>
             Some (Config.merge_value (Config.Dict o) (Config.Dict b))
         | w, _ => w
         end)
  ∧ (∀ key b o,
       Config.get_item key defaults = Some (Config.Dict b) →
       Config.get_item key override = Some (Config.Dict o) →
       Config.get_item key first.1 = Config.get_item key later.1).
Proof.
  intros Hnd Hfile first later.
  assert (later.1 = Config.merge_shared defaults override) as ->.
  { unfold later, first. by destruct file as [[a|o]|]. }
  split; [apply merge_shared_keys|]. split.
  - intros key. by apply merge_shared_lookup.
  - intros key b o Hb Ho. unfold first. cbn [Config.load_config fst].
    rewrite merge_shared_lookup, merge_configs_get by done.
    by rewrite Hb, Ho.
Qed.

Lemma load_config_shares_sections_witness :
  let file :=
    Config.Dict
      [("style", Config.Dict [("max_line_length", Config.Atom (Config.Int 80))])]
  in
  let first := Config.load_config (Some file) Config.default_config in
  let later := Config.load_config None first.2 in
  Config.get_item "style" later.1
  = Some (Config.Dict [ ("enabled", Config.Atom (Config.Bool true));
                        ("max_line_length", Config.Atom (Config.Int 80));
                        ("indent_size", Config.Atom (Config.Int 4)) ])
  ∧ Config.get_item "style" Config.default_config
    = Some (Config.Dict [ ("enabled", Config.Atom (Config.Bool true));
                          ("max_line_length", Config.Atom (Config.Int 100));
                          ("indent_size", Config.Atom (Config.Int 4)) ]).
Proof.
  intros file first later. split; [|reflexivity].
  destruct (load_config_shares_sections
              [("style",
                Config.Dict [("max_line_length", Config.Atom (Config.Int 80))])]
              Config.default_config None) as (_ & Hget & _).
  - apply NoDup_singleton.
  - exact I.
  - unfold later, first, file. rewrite Hget. reflexivity.
Defined.


(** ** Commented-out code *)

Section CommentedCode.
Import QualityReviewer.

(** The state of the loop after the lines up to [n]: the issues are
    those of some lines up to [n], in increasing order. *)
Lemma comment_lines_sorted delims repo_path lines : ∀ st i ks,
  st.2 = commented_code_issue repo_path <$> ks →
  StronglySorted Z.lt ks →
  Forall (λ k, (1 <= k <= i)%Z) ks →
  (0 <= i)%Z →
  ∃ ks',
    (comment_lines delims repo_path st i lines).2
    = commented_code_issue repo_path <$> ks'
    ∧ StronglySorted Z.lt ks'
    ∧ Forall (λ k, (1 <= k <= i + Py.len lines)%Z) ks'.
Proof.
  induction lines as [|ln lines IH]; intros st i ks Hst Hsorted Hbound Hi.
  - exists ks. split; [done|]. split; [done|].
    eapply Forall_impl; [exact Hbound|]. intros k Hk. cbn beta in *.
    unfold Py.len. simpl. lia.
  - assert (Py.len (ln :: lines) = (1 + Py.len lines)%Z) as ->
      by (unfold Py.len; simpl; lia).
    cbn [comment_lines].
    assert (Forall (λ k, (1 <= k <= i + 1)%Z) ks) as Hbound'.
    { eapply Forall_impl; [exact Hbound|]. intros k Hk. cbn beta in *. lia. }
    assert (∃ ks1, (comment_line delims repo_path st (i + 1) ln).2
                   = commented_code_issue repo_path <$> ks1
                   ∧ StronglySorted Z.lt ks1
                   ∧ Forall (λ k, (1 <= k <= i + 1)%Z) ks1)
      as (ks1 & Hst1 & Hsorted1 & Hbound1).
    { unfold comment_line. cbv zeta.
      repeat match goal with
             | |- context [if ?b then _ else _] => destruct b
             end; cbn [snd];
        try (exists ks; by repeat split);
        (exists (ks ++ [(i + 1)%Z]); split; [by rewrite fmap_app, Hst|];
         split; [|apply Forall_app; split; [done|repeat constructor; lia]];
         apply StronglySorted_snoc; [done|];
         eapply Forall_impl; [exact Hbound|];
         intros k Hk; cbn beta in *; lia). }
    destruct (IH _ (i + 1)%Z ks1 Hst1 Hsorted1 Hbound1 ltac:(lia))
      as (ks' & Hres & Hs' & Hb').
    exists ks'. split; [done|]. split; [done|].
    eapply Forall_impl; [exact Hb'|]. intros k Hk. cbn beta in *. lia.
Qed.

(** X14.  The issues of commented-out code are issues of severity low
    with the fixed message, at lines of the file in strictly increasing
    order, hence at most one for a line; a file type without comment
    delimiters gets none. *)
Theorem check_commented_code_lines local_path lines repo_path :
  (∃ ks,
     _check_commented_code local_path lines repo_path
     = commented_code_issue repo_path <$> ks
     ∧ StronglySorted Z.lt ks
     ∧ Forall (λ k, (1 <= k <= Py.len lines)%Z) ks)
  ∧ (comment_delimiters (FileUtils.get_file_extension local_path) = None →
     _check_commented_code local_path lines repo_path = []).
Proof.
  unfold _check_commented_code.
  destruct (comment_delimiters _) as [delims|]; [|split; [|done]].
  - split; [|done].
    destruct (comment_lines_sorted delims repo_path lines (false, []) 0 [])
      as (ks & Hres & Hs & Hb); [done|constructor|constructor|lia|].
    exists ks. split; [done|]. split; [done|].
    eapply Forall_impl; [exact Hb|]. intros k Hk. cbn beta in *. lia.
  - exists []. repeat split; constructor.
Qed.

Lemma comment_line_python repo_path acc i ln :
  comment_line ("#", triple_quote, triple_quote) repo_path (false, acc) i ln
  = (false,
     acc ++ if Notions.python_comment_with_code ln
            then [commented_code_issue repo_path i] else []).
Proof.
  unfold comment_line, Notions.python_comment_with_code. cbv zeta.
  cbn [fst snd negb andb].
  destruct (Py.is_substring triple_quote ln); cbn [andb negb].
  - by rewrite app_nil_r.
  - destruct (String.prefix "#" (Py.strip ln)); cbn [andb negb].
    + change (String.length "#") with 1.
      by destruct (looks_like_code _); rewrite ?app_nil_r.
    + by rewrite app_nil_r.
Qed.

Lemma comment_lines_python repo_path lines : ∀ acc i,
  comment_lines ("#", triple_quote, triple_quote) repo_path (false, acc) i
    lines
  = (false, acc ++ Notions.python_report repo_path i lines).
Proof.
  induction lines as [|ln lines IH]; intros acc i;
    cbn [comment_lines Notions.python_report].
  - by rewrite app_nil_r.
  - by rewrite comment_line_python, IH, <- app_assoc.
Qed.

Lemma python_report_elem repo_path lines : ∀ i k,
  commented_code_issue repo_path k ∈ Notions.python_report repo_path i lines
  ↔ ∃ n ln, lines !! n = Some ln
            ∧ k = (i + Z.of_nat n + 1)%Z
            ∧ Notions.python_comment_with_code ln = true.
Proof.
  induction lines as [|ln lines IH]; intros i k;
    cbn [Notions.python_report].
  - split; [intros H; by apply elem_of_nil in H|].
    by intros (n & l & Hl & _).
  - rewrite elem_of_app, IH. split.
    + intros [Hin|(n & l & Hl & -> & Hc)].
      * destruct (Notions.python_comment_with_code ln) eqn:Hc;
          [|by apply elem_of_nil in Hin].
        apply list_elem_of_singleton in Hin. injection Hin as ->.
        exists 0, ln. split; [done|]. split; [lia|done].
      * exists (S n), l. split; [done|]. split; [lia|done].
    + intros ([|n] & l & Hl & -> & Hc).
      * injection Hl as ->. left. rewrite Hc.
        apply list_elem_of_singleton. f_equal. lia.
      * right. exists n, l. split; [done|]. split; [lia|done].
Qed.

(** X15.  In a Python file the check of commented-out code looks at each
    line by itself: the line [k] is reported exactly when it holds no
    triple quote, starts with a hash after its indentation, and the text
    after the hash matches one of the code patterns.  The start and the
    end of a string of several lines are the same delimiter, so the state
    [in_multi_line_comment] is never set after a line: the lines between
    two triple quotes are treated like all the others, and a comment with
    code among them is reported. *)
Theorem check_commented_code_python local_path lines repo_path :
  Py.lower (FileUtils.get_file_extension local_path) = ".py" →
  _check_commented_code local_path lines repo_path
  = Notions.python_report repo_path 0 lines
  ∧ (∀ k, commented_code_issue repo_path k
           ∈ _check_commented_code local_path lines repo_path
          ↔ ∃ n ln, lines !! n = Some ln
                    ∧ k = (Z.of_nat n + 1)%Z
                    ∧ Notions.python_comment_with_code ln = true)
  ∧ ∀ st i,
      (comment_lines ("#", triple_quote, triple_quote) repo_path
         (false, st) i lines).1 = false.
Proof.
  intros Hext.
  assert (_check_commented_code local_path lines repo_path
          = Notions.python_report repo_path 0 lines) as Heq.
  { unfold _check_commented_code, comment_delimiters.
    cbv zeta. rewrite Hext.
    rewrite bool_decide_eq_true_2 by (by left).
    by rewrite comment_lines_python. }
  split; [done|]. split.
  - intros k. rewrite Heq, python_report_elem.
    split; intros (n & ln & Hl & -> & Hc); exists n, ln;
      (split; [done|]); (split; [lia|done]).
  - intros st i. by rewrite comment_lines_python.
Qed.

(** A file with a string of several lines: the comment with code inside
    the string, at line 3, is reported like the one at line 6. *)
Lemma check_commented_code_python_witness :
  line <$> _check_commented_code "/tmp/pr/app/Views.PY"
             [ String "034" (String "034" (String "034" " Docstring"));
               "return compute(items)";
               "# total = compute(items)";
               triple_quote;
               "x = 1  # call(x)";
               "    # if x > 1:";
               "# " +:+ triple_quote +:+ " call(x)" ] "app/Views.PY"
  = [Some 3%Z; Some 6%Z].
Proof.
  rewrite (proj1 (check_commented_code_python "/tmp/pr/app/Views.PY" _ _
                    eq_refl)).
  vm_compute. reflexivity.
Defined.

End CommentedCode.

(** ** File extensions *)

Section Extensions.
Import FileUtils ReviewManager.

Lemma chars_of_list l : Py.chars (string_of_list_ascii l) = l.
Proof. apply list_ascii_of_string_of_list_ascii. Qed.

Lemma of_chars s : string_of_list_ascii (Py.chars s) = s.
Proof. apply string_of_list_ascii_of_string. Qed.

Lemma chars_inj s t : Py.chars s = Py.chars t → s = t.
Proof. intros H. by rewrite <- (of_chars s), H, of_chars. Qed.

Lemma last_occurrence {A} `{EqDecision A} (x : A) l :
  x ∈ l → ∃ l1 l2, l = l1 ++ x :: l2 ∧ x ∉ l2.
Proof.
  induction l as [|y l IH]; intros Hx; [by apply elem_of_nil in Hx|].
  destruct (decide (x ∈ l)) as [Hin|Hout].
  - destruct (IH Hin) as (l1 & l2 & -> & Hl2). by exists (y :: l1), l2.
  - apply elem_of_cons in Hx as [->|?]; [|done]. by exists [], l.
Qed.

Lemma rfind_from_absent c s i :
  c ∉ Py.chars s → Py.rfind_from c s i = (-1)%Z.
Proof.
  revert i. induction s as [|d s IH]; intros i Hc; [done|].
  rewrite chars_cons, not_elem_of_cons in Hc. destruct Hc as [Hd Hc].
  cbn [Py.rfind_from]. rewrite (IH _ Hc). cbn.
  destruct (Ascii.eqb_spec d c); congruence.
Qed.

Lemma rfind_from_last c s i l1 l2 :
  (0 <= i)%Z → Py.chars s = l1 ++ c :: l2 → c ∉ l2 →
  Py.rfind_from c s i = (i + Z.of_nat (length l1))%Z.
Proof.
  revert s i. induction l1 as [|d l1 IH]; intros s i Hi Hs Hc.
  - destruct s as [|d s]; [done|]. rewrite chars_cons in Hs.
    injection Hs as -> Hs. cbn [Py.rfind_from].
    rewrite rfind_from_absent by by rewrite Hs.
    cbn. rewrite Ascii.eqb_refl. cbn [length]. lia.
  - destruct s as [|d' s]; [done|]. rewrite chars_cons in Hs.
    injection Hs as -> Hs. cbn [Py.rfind_from].
    rewrite (IH s (i + 1)%Z); [|lia|done|done]. cbn zeta.
    rewrite (proj2 (Z.leb_le _ _)) by lia. cbn [length]. lia.
Qed.

Lemma rfind_cases c s :
  ((c ∉ Py.chars s) ∧ Py.rfind c s = (-1)%Z)
  ∨ (∃ l1 l2, Py.chars s = l1 ++ c :: l2 ∧ (c ∉ l2)
              ∧ Py.rfind c s = Z.of_nat (length l1)).
Proof.
  destruct (decide (c ∈ Py.chars s)) as [Hin|Hout].
  - right. apply last_occurrence in Hin as (l1 & l2 & Hs & Hc).
    exists l1, l2. split; [done|]. split; [done|].
    unfold Py.rfind. by rewrite (rfind_from_last c s 0 l1 l2).
  - left. split; [done|]. by apply rfind_from_absent.
Qed.

(** The last occurrence lies before a tail without the character. *)
Lemma rfind_before c s a rest :
  Py.chars s = a ++ rest → c ∉ rest →
  ∃ k, Py.rfind c s = (Z.of_nat k - 1)%Z ∧ k <= length a.
Proof.
  intros Hs Hrest.
  destruct (rfind_cases c s) as [[_ Hr]|(l1 & l2 & Hl & _ & Hr)].
  - exists 0. split; [by rewrite Hr|lia].
  - exists (S (length l1)). split; [rewrite Hr; lia|].
    destruct (decide (length l1 < length a)) as [|Hge]; [lia|].
    exfalso. apply Hrest.
    assert ((a ++ rest) !! length l1 = Some c) as Hlook.
    { rewrite <- Hs, Hl. apply list_lookup_middle. done. }
    rewrite lookup_app_r in Hlook by lia.
    by apply list_elem_of_lookup_2 in Hlook.
Qed.

Lemma existsb_elem {A} (f : A → bool) l :
  existsb f l = true ↔ ∃ x, x ∈ l ∧ f x = true.
Proof.
  rewrite existsb_exists. by setoid_rewrite list_elem_of_In.
Qed.

Lemma slice_lookup {A} (l : list A) lo hi k x :
  l !! k = Some x → lo <= k < hi →
  x ∈ Py.slice l (Z.of_nat lo) (Z.of_nat hi).
Proof.
  intros Hk Hlo. unfold Py.slice. rewrite !Nat2Z.id.
  apply (list_elem_of_lookup_2 _ (k - lo)).
  rewrite lookup_take_lt by lia. rewrite lookup_drop.
  by replace (lo + (k - lo)) with k by lia.
Qed.

Lemma slice_elem {A} (l : list A) lo hi x :
  x ∈ Py.slice l (Z.of_nat lo) (Z.of_nat hi) →
  ∃ k, l !! k = Some x ∧ lo <= k < hi.
Proof.
  unfold Py.slice. rewrite !Nat2Z.id. intros Hx.
  apply list_elem_of_lookup_1 in Hx as (j & Hj).
  apply lookup_take_Some in Hj as [Hj Hlt]. rewrite lookup_drop in Hj.
  exists (lo + j). split; [done|lia].
Qed.

(** The extension of a name whose last dot comes after a character of the
    base name that is not a dot. *)
Lemma splitext_chars p a c b e :
  Py.chars p = a ++ c :: b ++ "."%char :: e →
  c ≠ "."%char → "/"%char ∉ c :: b → "."%char ∉ e → "/"%char ∉ e →
  Py.splitext p
  = (string_of_list_ascii (a ++ c :: b), string_of_list_ascii ("."%char :: e)).
Proof.
  intros Hp Hc Hb He1 He2. unfold Py.splitext.
  assert (Py.chars p = (a ++ c :: b) ++ "."%char :: e) as Hp'
    by by rewrite Hp, <- app_assoc.
  assert (Py.rfind "." p = Z.of_nat (length (a ++ c :: b))) as ->.
  { unfold Py.rfind.
    rewrite (rfind_from_last "." p 0 (a ++ c :: b) e); [lia|lia|done|done]. }
  destruct (rfind_before "/" p a (c :: b ++ "."%char :: e) Hp) as
    (k & -> & Hk).
  { rewrite app_comm_cons, not_elem_of_app. split; [done|].
    rewrite not_elem_of_cons. by split. }
  rewrite (proj2 (Z.ltb_lt _ _))
    by (rewrite length_app; cbn [length]; lia).
  cbn [andb].
  replace (Z.of_nat k - 1 + 1)%Z with (Z.of_nat k) by lia.
  rewrite (proj2 (existsb_elem _ _)).
  - unfold Py.prefix_to, Py.suffix_from. rewrite !Nat2Z.id, Hp'.
    by rewrite take_app_length, drop_app_length.
  - exists c. split; [|by destruct (Ascii.eqb_spec c ".")].
    apply (slice_lookup _ _ _ (length a));
      [|rewrite length_app; cbn [length]; lia].
    rewrite Hp. by apply list_lookup_middle.
Qed.

(** No occurrence comes after the last one. *)
Lemma rfind_max c s j :
  Py.chars s !! j = Some c → (Z.of_nat j <= Py.rfind c s)%Z.
Proof.
  intros Hj.
  destruct (rfind_cases c s) as [[Hno _]|(l1 & l2 & Hl & Hl2 & ->)].
  - by apply list_elem_of_lookup_2 in Hj.
  - destruct (decide (j <= length l1)) as [|Hgt]; [lia|].
    exfalso. apply Hl2. rewrite Hl in Hj.
    rewrite lookup_app_r in Hj by lia.
    destruct (j - length l1) as [|n] eqn:Hn; [lia|].
    cbn in Hj. by apply list_elem_of_lookup_2 in Hj.
Qed.

(** Conversely, a non-empty extension comes from such a name. *)
Lemma splitext_inv p root ext :
  Py.splitext p = (root, ext) →
  (root = p ∧ ext = EmptyString)
  ∨ (∃ a c b e, Py.chars p = a ++ c :: b ++ "."%char :: e
      ∧ root = string_of_list_ascii (a ++ c :: b)
      ∧ ext = string_of_list_ascii ("."%char :: e)
      ∧ c ≠ "."%char ∧ ("/"%char ∉ c :: b) ∧ ("."%char ∉ e)
      ∧ ("/"%char ∉ e)).
Proof.
  unfold Py.splitext.
  destruct (_ && _) eqn:Hcond; [|intros [= <- <-]; by left].
  intros [= <- <-]. right.
  apply andb_true_iff in Hcond as [Hlt Hex]. apply Z.ltb_lt in Hlt.
  assert (∃ n, Py.rfind "/" p = (Z.of_nat n - 1)%Z) as (n & Hn).
  { destruct (rfind_cases "/" p) as [[_ ->]|(l1 & ? & _ & _ & ->)];
      [by exists 0|exists (S (length l1)); lia]. }
  destruct (rfind_cases "." p) as [[_ Hr]|(d1 & d2 & Hd & Hd2 & Hr)];
    [lia|].
  rewrite Hr, Hn in Hex.
  replace (Z.of_nat n - 1 + 1)%Z with (Z.of_nat n) in Hex by lia.
  apply existsb_elem in Hex as (c & Hin & Hc).
  apply slice_elem in Hin as (k & Hk & Hrange).
  assert (d1 !! k = Some c) as Hk1.
  { rewrite Hd in Hk. by rewrite lookup_app_l in Hk by lia. }
  exists (take k d1), c, (drop (S k) d1), d2.
  rewrite app_comm_cons, app_assoc, (take_drop_middle d1 k c Hk1).
  unfold Py.prefix_to, Py.suffix_from. rewrite Hr, !Nat2Z.id, Hd.
  rewrite take_app_length, drop_app_length.
  split; [done|]. split; [done|]. split; [done|].
  split; [by destruct (Ascii.eqb_spec c ".")|].
  assert (∀ j, k <= j → Py.chars p !! j ≠ Some "/"%char) as Hafter.
  { intros j Hj Hlook. apply rfind_max in Hlook. lia. }
  split; [|split; [done|]].
  - intros Hin. apply list_elem_of_lookup_1 in Hin as (j & Hj).
    apply (Hafter (k + j)); [lia|].
    rewrite Hd, <- (take_drop_middle d1 k c Hk1), <- app_assoc.
    rewrite lookup_app_r; rewrite length_take; [|lia].
    replace (k `min` length d1) with k by lia.
    replace (k + j - k) with j by lia.
    by apply (lookup_app_l_Some (c :: drop (S k) d1)).
  - intros Hin. apply list_elem_of_lookup_1 in Hin as (j & Hj).
    apply (Hafter (length d1 + S j)); [lia|].
    rewrite Hd, lookup_app_r by lia.
    by replace (length d1 + S j - length d1) with (S j) by lia.
Qed.

(** X16.  The extension is empty or starts with a dot.  It is a dot
    followed by [e] exactly when the name ends with that dot and [e], [e]
    has neither dot nor slash, and a character that is not a dot comes
    before the dot with no slash between them: the last dot of the name
    counts only after a character of the base name other than a dot. *)
Theorem get_file_extension_spec filename :
  (get_file_extension filename = EmptyString
   ∨ ∃ e, get_file_extension filename = String "." e)
  ∧ ∀ e, get_file_extension filename = String "." e ↔
      ∃ a c b, filename = a +:+ String c b +:+ String "." e
        ∧ c ≠ "."%char
        ∧ Py.contains "/" (String c b) = false
        ∧ Py.contains "." e = false
        ∧ Py.contains "/" e = false.
Proof.
  unfold get_file_extension. split.
  - destruct (Py.splitext filename) as [root ext] eqn:Hsplit.
    apply splitext_inv in Hsplit
      as [[_ ->]|(a & c & b & e & _ & _ & -> & _)]; [by left|].
    right. by exists (string_of_list_ascii e).
  - intros e. split.
    + destruct (Py.splitext filename) as [root ext] eqn:Hsplit.
      cbn [snd]. intros ->.
      apply splitext_inv in Hsplit
        as [[_ [=]]|(a & c & b & e' & Hp & _ & He & Hc & Hb & He1 & He2)].
      cbn [string_of_list_ascii] in He. injection He as ->.
      exists (string_of_list_ascii a), c, (string_of_list_ascii b).
      rewrite !not_contains_chars, chars_cons, !chars_of_list.
      split; [|done]. apply chars_inj.
      rewrite !chars_app, !chars_cons, !chars_of_list. exact Hp.
    + intros (a & c & b & -> & Hc & Hb & He1 & He2).
      rewrite not_contains_chars in Hb, He1, He2. rewrite chars_cons in Hb.
      rewrite (splitext_chars _ (Py.chars a) c (Py.chars b) (Py.chars e));
        [|by rewrite !chars_app, !chars_cons|done..].
      cbn [snd string_of_list_ascii]. by rewrite of_chars.
Qed.

(** A base name without a dot after its leading dots has no extension. *)
Lemma get_file_extension_none dir dots name :
  dir = EmptyString ∨ (∃ d, dir = d +:+ "/") →
  Forall (λ c, c = "."%char) (Py.chars dots) →
  Py.contains "." name = false →
  get_file_extension (dir +:+ dots +:+ name) = EmptyString.
Proof.
  intros Hdir Hdots Hname. apply not_contains_chars in Hname.
  unfold get_file_extension.
  destruct (Py.splitext _) as [root ext] eqn:Hsplit.
  apply splitext_inv in Hsplit
    as [[_ ->]|(a & c & b & e & Hp & _ & _ & Hc & Hb & _ & He)]; [done|].
  exfalso. rewrite !chars_app in Hp.
  set (D := Py.chars dir) in *. set (O := Py.chars dots) in *.
  set (N := Py.chars name) in *.
  assert ((D ++ O ++ N) !! length a = Some c) as Hc'
    by (rewrite Hp; by apply list_lookup_middle).
  assert ((D ++ O ++ N) !! (length a + S (length b)) = Some "."%char) as Hd.
  { rewrite Hp, lookup_app_r by lia.
    replace (length a + S (length b) - length a) with (S (length b)) by lia.
    cbn. by apply list_lookup_middle. }
  assert (length a + S (length b) < length D + length O) as Hlt.
  { destruct (decide (length a + S (length b) < length D + length O));
      [done|].
    rewrite app_assoc, lookup_app_r in Hd
      by (rewrite length_app; lia).
    by apply list_elem_of_lookup_2 in Hd. }
  assert (length a < length D) as HaD.
  { destruct (decide (length a < length D)); [done|].
    rewrite lookup_app_r, lookup_app_l in Hc' by lia.
    apply list_elem_of_lookup_2 in Hc'.
    by apply (proj1 (Forall_forall _ _) Hdots) in Hc'. }
  destruct Hdir as [->|[d Hd']]; [cbn in HaD; lia|].
  assert (D = Py.chars d ++ ["/"%char]) as HD
    by (unfold D; by rewrite Hd', chars_app).
  assert ((D ++ O ++ N) !! length (Py.chars d) = Some "/"%char) as Hs.
  { rewrite HD, <- app_assoc. by apply list_lookup_middle. }
  rewrite HD, length_app in HaD, Hlt. cbn [length] in HaD, Hlt.
  rewrite Hp, lookup_app_r in Hs by lia.
  apply list_elem_of_lookup_2 in Hs.
  rewrite app_comm_cons, elem_of_app, (elem_of_cons e) in Hs.
  by destruct Hs as [?|[?|?]].
Qed.

(** X17.  A file whose base name has no dot after its leading dots, such
    as [Makefile], [.gitignore] or [.env], is not kept for review. *)
Theorem files_without_extension_not_reviewed excl files f dir dots name :
  filename f = dir +:+ dots +:+ name →
  dir = EmptyString ∨ (∃ d, dir = d +:+ "/") →
  Forall (λ c, c = "."%char) (Py.chars dots) →
  Py.contains "." name = false →
  f ∉ _filter_files_for_review excl files.
Proof.
  intros Hname Hdir Hdots Hn. rewrite filter_files_filter.
  rewrite list_elem_of_filter. intros [(_ & _ & Hext & _) _].
  apply Hext. rewrite Hname. by apply get_file_extension_none.
Qed.

Lemma files_without_extension_not_reviewed_witness :
  PrFile "deploy/.env" "added" "/tmp/pr/deploy/.env"
  ∉ _filter_files_for_review ["node_modules/"]
      [PrFile "deploy/.env" "added" "/tmp/pr/deploy/.env";
       PrFile "deploy/run.py" "added" "/tmp/pr/deploy/run.py"].
Proof.
  apply (files_without_extension_not_reviewed _ _ _ "deploy/" "." "env").
  - reflexivity.
  - right. by exists "deploy".
  - by repeat constructor.
  - reflexivity.
Defined.

End Extensions.


(** ** Line counts *)

Section LineCount.
Import FileUtils.

Lemma count_lines_from_line ln rest pending :
  Py.contains "010" ln = false → Py.contains "013" ln = false →
  count_lines_from (ln +:+ Py.newline +:+ rest) pending
  = (1 + count_lines_from rest false)%Z.
Proof.
  revert pending. induction ln as [|c ln IH]; intros pending Hlf Hcr.
  - reflexivity.
  - cbn [Py.contains] in Hlf, Hcr.
    apply orb_false_iff in Hlf as [Hc1 Hlf], Hcr as [Hc2 Hcr].
    change (String c ln +:+ Py.newline +:+ rest)
      with (String c (ln +:+ Py.newline +:+ rest)).
    cbn [count_lines_from]. rewrite Hc1, Hc2. by apply IH.
Qed.

Lemma count_lines_from_last ln pending :
  Py.contains "010" ln = false → Py.contains "013" ln = false →
  count_lines_from ln pending
  = match ln with
    | EmptyString => if pending then 1%Z else 0%Z
    | _ => 1%Z
    end.
Proof.
  revert pending. induction ln as [|c ln IH]; intros pending Hlf Hcr.
  - reflexivity.
  - cbn [Py.contains] in Hlf, Hcr.
    apply orb_false_iff in Hlf as [Hc1 Hlf], Hcr as [Hc2 Hcr].
    cbn [count_lines_from]. rewrite Hc1, Hc2, (IH true Hlf Hcr).
    by destruct ln.
Qed.

(** X18.  A text made of lines without line break characters, joined by
    line feeds, counts one line for each of them, except an empty last
    line; with a line feed after the last line it counts each of them.  So
    a final line feed does not add a line. *)
Theorem count_lines_of_joined_lines lines :
  Forall (λ ln, Py.contains "010" ln = false ∧ Py.contains "013" ln = false)
    lines →
  count_lines (Py.join Py.newline lines)
  = (Py.len lines - if decide (last lines = Some EmptyString) then 1 else 0)%Z
  ∧ (lines ≠ [] →
     count_lines (Py.join Py.newline lines +:+ Py.newline) = Py.len lines).
Proof.
  unfold count_lines, Py.len. induction 1 as [|ln lines [Hlf Hcr] Hall IH].
  - split; [reflexivity|done].
  - destruct lines as [|ln' lines].
    + cbn [Py.join last length]. split.
      * rewrite count_lines_from_last by done.
        destruct ln; [by rewrite decide_True|by rewrite decide_False].
      * intros _.
        change (ln +:+ Py.newline) with (ln +:+ Py.newline +:+ EmptyString).
        by rewrite count_lines_from_line.
    + destruct IH as [IH1 IH2]. rewrite join_cons.
      change (last (ln :: ln' :: lines)) with (last (ln' :: lines)).
      split.
      * rewrite count_lines_from_line, IH1 by done.
        cbn [length]. case_decide; lia.
      * intros _. rewrite !string_app_assoc.
        rewrite count_lines_from_line, IH2 by done.
        cbn [length]. lia.
Qed.

Lemma count_lines_of_joined_lines_witness :
  count_lines ("import os" +:+ Py.newline +:+ Py.newline +:+ "print(os.name)")
  = 3%Z
  ∧ count_lines ("import os" +:+ Py.newline +:+ Py.newline
                 +:+ "print(os.name)" +:+ Py.newline)
    = 3%Z.
Proof.
  destruct (count_lines_of_joined_lines
              ["import os"; EmptyString; "print(os.name)"]) as [H1 H2].
  - by repeat constructor.
  - split; [exact H1|by apply H2].
Defined.

End LineCount.
